(** * darling.c: the setuid launcher of a Darling prefix

    A shallow embedding of [src/startup/darling.c]: the shell-mode quoting
    ([escapeQuotes], [spawnShell]), the shellspawn wire client
    ([pushShellspawnCommand*], [setup*], [spawnGo], [spawnBinary]), the
    terminal proxy ([signalHandler], [shellLoop]) and the discovery of a
    running container ([getInitProcess]). *)

From Stdlib Require Import ZArith Ascii String List Lia.
From stdpp Require Import base tactics option list numbers strings.
Import ListNotations.

Local Open Scope nat_scope.

(** ** C strings and malloc'd blocks *)

(** A [char*] is the list of bytes found at the pointer; every libc routine
    that takes a string reads it up to (not including) the first nul byte,
    and the end of the list stands for the terminator as well. *)
Abbreviation cstr := (list ascii).

Definition NUL : ascii := "000"%char.
Definition QUOTE : ascii := "'"%char.
Definition BACKSLASH : ascii := "\"%char.
Definition SPACE : ascii := " "%char.
Definition DQUOTE : ascii := "034"%char.
Definition NEWLINE : ascii := "010"%char.
Definition TAB : ascii := "009"%char.

Fixpoint c_str (p : cstr) : list ascii :=
  match p with
  | [] => []
  | c :: p' => if decide (c = NUL) then [] else c :: c_str p'
  end.

Definition strlen (p : cstr) : nat := length (c_str p).

(** [strcmp(a, b) == 0] *)
Definition streq (a b : cstr) : bool := bool_decide (c_str a = c_str b).

Definition lit (s : string) : cstr := list_ascii_of_string s.

(** A block returned by [malloc]: every cell starts indeterminate ([None]).
    A store outside the block is undefined behaviour, modelled as [None]. *)
Abbreviation heap := (list (option ascii)).

Definition malloc (n : nat) : heap := replicate n None.

Definition store (b : heap) (i : nat) (c : ascii) : option heap :=
  if decide (i < length b) then Some (<[i := Some c]> b) else None.

Fixpoint memcpy (b : heap) (i : nat) (cs : list ascii) : option heap :=
  match cs with
  | [] => Some b
  | c :: cs' => b' ← store b i c; memcpy b' (S i) cs'
  end.

(** [stpcpy(to, s)]: copies [s] with its terminator, returns the address of
    the terminator written. *)
Definition stpcpy (b : heap) (to : nat) (s : cstr) : option (nat * heap) :=
  b' ← memcpy b to (c_str s ++ [NUL]); Some (to + strlen s, b').

(** The string a [char*] into the block denotes: the initialised cells up to
    the first nul; [None] when an indeterminate cell or the end of the block
    is reached first. *)
Fixpoint heap_string (b : heap) : option (list ascii) :=
  match b with
  | [] => None
  | None :: _ => None
  | Some c :: b' => if decide (c = NUL) then Some [] else (c ::.) <$> heap_string b'
  end.

(** ** escapeQuotes *)

(** [dest] is [None] for the null pointer and [Some d] for the address
    [buffer + d]. *)
Definition poke (dest : option nat) (len : nat) (cs : list ascii) (b : heap)
  : option heap :=
  match dest with
  | Some d => memcpy b (d + len) cs
  | None => Some b
  end.

Fixpoint escapeQuotes_from (dest : option nat) (src : cstr) (len : nat) (b : heap)
  : option (nat * heap) :=
  match src with
  | [] => b' ← poke dest len [NUL] b; Some (len, b')
  | c :: src' =>
      if decide (c = NUL) then b' ← poke dest len [NUL] b; Some (len, b')
      else if decide (c = QUOTE) then
        b' ← poke dest len [QUOTE; BACKSLASH; QUOTE; QUOTE] b;
        escapeQuotes_from dest src' (len + 4) b'
      else
        b' ← poke dest len [c] b;
        escapeQuotes_from dest src' (len + 1) b'
  end.

Definition escapeQuotes (dest : option nat) (src : cstr) (b : heap)
  : option (nat * heap) :=
  escapeQuotes_from dest src 0 b.

(** ** spawnShell: the command line handed to the shell *)

(** First loop: [for (count = 0; argv[count] != NULL; count++)
    total_len += escapeQuotes(NULL, argv[count]);] *)
Fixpoint spawnShell_measure (argv : list cstr) (count total_len : nat) (b : heap)
  : option (nat * nat) :=
  match argv with
  | [] => Some (count, total_len)
  | a :: argv' =>
      '(n, _) ← escapeQuotes None a b;
      spawnShell_measure argv' (S count) (total_len + n) b
  end.

(** Second loop; [to] is the offset of the write pointer in [buffer]. *)
Fixpoint spawnShell_fill (argv : list cstr) (to : nat) (b : heap)
  : option (nat * heap) :=
  match argv with
  | [] => Some (to, b)
  | a :: argv' =>
      '(to1, b1) ← (if decide (to ≠ 0) then stpcpy b to [SPACE] else Some (to, b));
      '(to2, b2) ← stpcpy b1 to1 [QUOTE];
      '(n, b3) ← escapeQuotes (Some to2) a b2;
      '(to4, b4) ← stpcpy b3 (to2 + n) [QUOTE];
      spawnShell_fill argv' to4 b4
  end.

(** [buffer] as [spawnShell] leaves it for a non-null [argv]; [None] if a
    store fell outside the allocation. *)
Definition spawnShell_buffer (argv : list cstr) : option heap :=
  '(count, total_len) ← spawnShell_measure argv 0 0 [];
  let buffer := malloc (total_len + count * 3) in
  snd <$> spawnShell_fill argv 0 buffer.

(** ** The quoting rule in the words of the specification *)

(** Every single quote becomes close-quote, backslash, quote, open-quote. *)
Fixpoint escape_spec (a : list ascii) : list ascii :=
  match a with
  | [] => []
  | c :: a' =>
      if decide (c = QUOTE) then QUOTE :: BACKSLASH :: QUOTE :: QUOTE :: escape_spec a'
      else c :: escape_spec a'
  end.

Definition quote_spec (a : list ascii) : list ascii :=
  QUOTE :: escape_spec a ++ [QUOTE].

(** Quoted arguments joined by single spaces. *)
Fixpoint cmdline_spec (args : list (list ascii)) : list ascii :=
  match args with
  | [] => []
  | [a] => quote_spec a
  | a :: args' => quote_spec a ++ SPACE :: cmdline_spec args'
  end.

(** The separator [spawnShell] puts before an argument when [pre] is what
    the buffer holds so far. *)
Definition fill_sep (pre : list ascii) : list ascii :=
  if decide (length pre ≠ 0) then [SPACE] else [].

Definition count_quotes (a : list ascii) : nat :=
  length (filter (λ c, c = QUOTE) a).

(** ** Word splitting of the POSIX shell (XCU 2.2 Quoting, 2.3 Token
    Recognition), restricted to literal words: blanks separate words, single
    quotes keep everything up to the next single quote, a backslash keeps
    the next character, double quotes keep everything except backslash
    before dollar, backquote, double quote, backslash and newline. Operators,
    expansions, comments and patterns are outside the fragment ([None]), and
    so is an unterminated quote. *)
Inductive sh_mode := Plain | InSingle | InDouble.

Definition sh_blank (c : ascii) : bool :=
  bool_decide (c = SPACE) || bool_decide (c = TAB)
  || bool_decide (c = NEWLINE).

Definition sh_special (c : ascii) : bool :=
  bool_decide (c ∈ lit "|&;<>()$`#*?[~").

Definition sh_dq_escapable (c : ascii) : bool :=
  bool_decide (c ∈ lit "$`\") || bool_decide (c = DQUOTE).

Definition sh_flush (cur : option (list ascii)) : list (list ascii) :=
  match cur with Some w => [w] | None => [] end.

Definition sh_add (cur : option (list ascii)) (cs : list ascii) : option (list ascii) :=
  Some (default [] cur ++ cs).

Fixpoint sh_split_from (m : sh_mode) (cur : option (list ascii)) (s : list ascii)
  : option (list (list ascii)) :=
  match s with
  | [] => match m with Plain => Some (sh_flush cur) | _ => None end
  | c :: s' =>
      match m with
      | Plain =>
          if sh_blank c then (sh_flush cur ++.) <$> sh_split_from Plain None s'
          else if decide (c = QUOTE) then sh_split_from InSingle (sh_add cur []) s'
          else if decide (c = DQUOTE) then sh_split_from InDouble (sh_add cur []) s'
          else if decide (c = BACKSLASH) then
            match s' with
            | [] => None
            | c2 :: s'' =>
                if decide (c2 = NEWLINE) then sh_split_from Plain cur s''
                else sh_split_from Plain (sh_add cur [c2]) s''
            end
          else if sh_special c then None
          else sh_split_from Plain (sh_add cur [c]) s'
      | InSingle =>
          if decide (c = QUOTE) then sh_split_from Plain cur s'
          else sh_split_from InSingle (sh_add cur [c]) s'
      | InDouble =>
          if decide (c = DQUOTE) then sh_split_from Plain cur s'
          else if decide (c = BACKSLASH) then
            match s' with
            | [] => None
            | c2 :: s'' =>
                if decide (c2 = NEWLINE) then sh_split_from InDouble cur s''
                else if sh_dq_escapable c2 then sh_split_from InDouble (sh_add cur [c2]) s''
                else sh_split_from InDouble (sh_add cur [c; c2]) s''
            end
          else if bool_decide (c ∈ lit "$`") then None
          else sh_split_from InDouble (sh_add cur [c]) s'
      end
  end.

Definition sh_split (s : list ascii) : option (list (list ascii)) :=
  sh_split_from Plain None s.


(** ** The shellspawn protocol *)

(** Modelled from the spec: the command kinds and the message layout of
    [shellspawn.h], which is not part of these sources: a message is a
    command kind, a payload length and that many payload bytes. *)
Inductive shellspawn_cmd_type_t :=
  | SHELLSPAWN_ADDARG
  | SHELLSPAWN_SETENV
  | SHELLSPAWN_CHDIR
  | SHELLSPAWN_GO
  | SHELLSPAWN_SIGNAL
  | SHELLSPAWN_SETUIDGID
  | SHELLSPAWN_SETEXEC.

#[global] Instance shellspawn_cmd_type_eq_dec : EqDecision shellspawn_cmd_type_t.
Proof. solve_decision. Defined.

Record shellspawn_cmd := {
  cmd : shellspawn_cmd_type_t;
  data_length : nat;
  data : list ascii
}.

(** An [int] in memory: four bytes, least significant first. *)
Definition byte_of (z : Z) : ascii := ascii_of_N (Z.to_N (z `mod` 256)).

Definition int_bytes (z : Z) : list ascii :=
  [byte_of z; byte_of (z ≫ 8); byte_of (z ≫ 16); byte_of (z ≫ 24)]%Z.

Definition Z_of_byte (c : ascii) : Z := Z.of_N (N_of_ascii c).

Definition int_of_bytes (bs : list ascii) : Z :=
  let u := fold_right (λ c acc, Z_of_byte c + 256 * acc)%Z 0%Z bs in
  (if decide (u < 2 ^ 31) then u else u - 2 ^ 32)%Z.

(** Constants of the Linux headers. *)
Definition STDIN_FILENO : Z := 0.
Definition STDOUT_FILENO : Z := 1.
Definition STDERR_FILENO : Z := 2.
Definition SIGINT : Z := 2.
Definition SIGTERM : Z := 15.
Definition SIGWINCH : Z := 28.
Definition POLLIN : Z := 1.
Definition POLLHUP : Z := 16.
Definition EXIT_FAILURE : Z := 1.
Definition sizeof_buf : Z := 4096.
Definition sizeof_sun_path : nat := 108.

Record winsize := {
  ws_row : Z;
  ws_col : Z;
  ws_xpixel : Z;
  ws_ypixel : Z
}.

(** ** The process and its environment *)

(** What the process does to the outside, in program order. A command
    written to the socket is kept as the structure it was built from. *)
Inductive syscall :=
  | sys_connect (fd : Z) (sun_path : heap)
  | sys_write_cmd (fd : Z) (c : shellspawn_cmd)
  | sys_write_cmd_short (fd : Z) (c : shellspawn_cmd)
  | sys_sendmsg (fd : Z) (c : shellspawn_cmd) (scm_rights : list Z)
  | sys_write (fd : Z) (bytes : list ascii)
  | sys_read (fd : Z)
  | sys_get_winsz (fd : Z)
  | sys_set_winsz (fd : Z) (win : winsize)
  | sys_set_termios (fd : Z)
  | sys_atexit_restoreTermios
  | sys_close (fd : Z).

(** The file-scope variables of the proxy and the [revents] of [pfds]. *)
Record state := {
  trace : list syscall;
  _shSockfd : Z;
  pty_master : Z;
  pfds_revents : Z * Z * Z
}.

Definition initial_state : state :=
  {| trace := []; _shSockfd := -1; pty_master := 0; pfds_revents := (0, 0, 0)%Z |}.

Definition log (c : syscall) (s : state) : state :=
  {| trace := trace s ++ [c]; _shSockfd := _shSockfd s;
     pty_master := pty_master s; pfds_revents := pfds_revents s |}.

Definition log_all (cs : list syscall) (s : state) : state :=
  {| trace := trace s ++ cs; _shSockfd := _shSockfd s;
     pty_master := pty_master s; pfds_revents := pfds_revents s |}.

Definition set_handler_vars (sockfd master : Z) (s : state) : state :=
  {| trace := trace s; _shSockfd := sockfd;
     pty_master := master; pfds_revents := pfds_revents s |}.

Definition set_revents (r : Z * Z * Z) (s : state) : state :=
  {| trace := trace s; _shSockfd := _shSockfd s;
     pty_master := pty_master s; pfds_revents := r |}.

(** A run returns, calls [exit], is still blocked when the scripted events
    are used up, or has stored outside an object. [Exit] holds the argument
    of [exit] and the state at the call; what the process still does inside
    [exit()], or after [main] has returned, is given by [exit_handlers]. *)
Inductive result (A : Type) : Type :=
  | Ret (a : A) (s : state)
  | Exit (status : Z) (s : state)
  | Pending (s : state)
  | Undefined (s : state).
Arguments Ret {A} a s.
Arguments Exit {A} status s.
Arguments Pending {A} s.
Arguments Undefined {A} s.

Definition M (A : Type) : Type := state → result A.

#[global] Instance M_ret : MRet M := λ A a s, Ret a s.
#[global] Instance M_bind : MBind M := λ A B f m s,
  match m s with
  | Ret a s' => f a s'
  | Exit n s' => Exit n s'
  | Pending s' => Pending s'
  | Undefined s' => Undefined s'
  end.

Definition exit {A} (status : Z) : M A := λ s, Exit status s.
Definition pending {A} : M A := λ s, Pending s.
Definition undefined {A} : M A := λ s, Undefined s.
Definition emit (c : syscall) : M unit := λ s, Ret tt (log c s).
Definition get_state : M state := λ s, Ret s s.
Definition put_state (f : state → state) : M unit := λ s, Ret tt (f s).

Definition final_state {A} (r : result A) : state :=
  match r with Ret _ s | Exit _ s | Pending s | Undefined s => s end.

(** The global variables set up by [main] before anything is spawned (the
    two identities are [uid_t] values, between 0 and 2^32 - 1), and the two
    path macros of [darling.h] and [shellspawn.h]. *)
Record globals := {
  SYSTEM_ROOT : cstr;
  SHELLSPAWN_SOCKPATH : cstr;
  prefix : cstr;
  g_workingDirectory : cstr;
  g_originalUid : Z;
  g_originalGid : Z
}.

(** One return of [poll] in [shellLoop] and what the reads after it find.
    [wk_revents] is what the kernel stored in [revents] (of the first
    [fdcount] entries), if it stored anything. *)
Inductive poll_ret := PollReady | PollEINTR | PollError.

#[global] Instance poll_ret_eq_dec : EqDecision poll_ret.
Proof. solve_decision. Defined.

Record wakeup := {
  wk_poll : poll_ret;
  wk_revents : option (Z * Z * Z);
  wk_master : list (option (list ascii));
  wk_stdin : list (option Z * option (list ascii));
  wk_sock : option (list ascii)
}.

(** A signal is delivered between two iterations of the loop; [win] is the
    window size the terminal reports at that moment. [ev_signal] stands for
    one run of [signalHandler], which [shellLoop] installs for the signals 1
    to 31 (the [sigaction] loop); which numbers can reach it is said by
    [handled_signal]. *)
Inductive event :=
  | ev_signal (signo : Z) (win : winsize)
  | ev_wakeup (k : wakeup).

(** Results of the system and library calls that the code branches on. A
    read is [None] for -1 and the bytes available otherwise. *)
Record env := {
  getpwuid_name : option cstr;
  getlogin : option cstr;
  realpath : cstr → option cstr;
  socket_ret : Z;
  connect_ret : Z;
  write_whole : nat → bool;
  sendmsg_ret : Z;
  isatty : Z → bool;
  dup_ret : Z;
  tcgetattr_ret : Z;
  posix_openpt_ret : Z;
  unlockpt_ret : Z;
  open_slave_ret : Z;
  tcsetattr_ret : Z;
  tty_winsize : winsize;
  script : list event
}.

(** [pw->pw_name] of [getpwuid(geteuid())] if there is an entry, else
    [getlogin()]. *)
Definition login_name (e : env) : option cstr :=
  match getpwuid_name e with Some n => Some n | None => getlogin e end.

(** ** The protocol client *)

Section Client.
Variable g : globals.
Variable e : env.

(** [data = None] is a null [data]: the payload bytes are then not set. A
    write that does not transfer the whole command is fatal. *)
Definition pushShellspawnCommandData (sockfd : Z) (type : shellspawn_cmd_type_t)
    (data : option (list ascii)) (data_length : nat) : M unit :=
  s ← get_state;
  let c := {| cmd := type; data_length := data_length;
              data := from_option (take data_length) [] data |} in
  if write_whole e (length (trace s)) then emit (sys_write_cmd sockfd c)
  else emit (sys_write_cmd_short sockfd c);; exit EXIT_FAILURE.

Definition pushShellspawnCommand (sockfd : Z) (type : shellspawn_cmd_type_t)
    (value : option cstr) : M unit :=
  match value with
  | None => pushShellspawnCommandData sockfd type None 0
  | Some v => pushShellspawnCommandData sockfd type (Some (c_str v ++ [NUL])) (strlen v + 1)
  end.

(** The message body is the bare command header; the three descriptors
    travel in one SCM_RIGHTS control message. *)
Definition pushShellspawnCommandFDs (sockfd : Z) (type : shellspawn_cmd_type_t)
    (fds : Z * Z * Z) : M unit :=
  let c := {| cmd := type; data_length := 0; data := [] |} in
  let '(fd0, fd1, fd2) := fds in
  emit (sys_sendmsg sockfd c [fd0; fd1; fd2]);;
  if decide (sendmsg_ret e < 0)%Z then exit EXIT_FAILURE else mret tt.

(** [win] is what [ioctl(0, TIOCGWINSZ)] reads when the handler runs. *)
Definition signalHandler (signo : Z) (win : winsize) : M unit :=
  s ← get_state;
  (if decide (signo = SIGWINCH ∧ pty_master s ≠ (-1)%Z)
   then emit (sys_get_winsz 0);; emit (sys_set_winsz (pty_master s) win)
   else mret tt);;
  let signo := if decide (pty_master s = (-1)%Z ∧ signo = SIGINT) then SIGTERM else signo in
  pushShellspawnCommandData (_shSockfd s) SHELLSPAWN_SIGNAL (Some (int_bytes signo)) 4.

(** [read(fd, buf, count)] on what the descriptor has to offer. *)
Definition read_bytes (count : Z) (r : option (list ascii)) : list ascii :=
  take (Z.to_nat count) (default [] r).

Definition read_ret (count : Z) (r : option (list ascii)) : Z :=
  match r with
  | None => -1
  | Some _ => Z.of_nat (length (read_bytes count r))
  end.

(** [do rd = read(master, ...); if (rd > 0) write(STDOUT_FILENO, ...);
    while (rd == sizeof(buf));] *)
Fixpoint shellLoop_master (master : Z) (reads : list (option (list ascii))) : M unit :=
  match reads with
  | [] => pending
  | r :: reads' =>
      let rd := read_ret sizeof_buf r in
      emit (sys_read master);;
      (if decide (0 < rd)%Z then emit (sys_write STDOUT_FILENO (read_bytes sizeof_buf r))
       else mret tt);;
      if decide (rd = sizeof_buf) then shellLoop_master master reads' else mret tt
  end.

(** The standard-input branch. [rd > sizeof(buf)] compares an [int] with a
    [size_t], so [rd] is converted to 64 bits unsigned first. *)
Definition stdin_count (n : Z) : Z :=
  (if decide (sizeof_buf < n `mod` 2 ^ 64) then sizeof_buf else n)%Z.

Fixpoint shellLoop_stdin (master : Z) (reads : list (option Z * option (list ascii)))
  : M unit :=
  match reads with
  | [] => pending
  | (fionread, r) :: reads' =>
      match fionread with
      | None => exit 1
      | Some n =>
          let rd := read_ret (stdin_count n) r in
          emit (sys_read STDIN_FILENO);;
          (if decide (0 < rd)%Z then emit (sys_write master (read_bytes (stdin_count n) r))
           else exit 1);;
          if decide (rd = sizeof_buf) then shellLoop_stdin master reads' else mret tt
      end
  end.

(** The protocol-channel branch: [read(sockfd, &exitStatus, sizeof(int))]. *)
Definition shellLoop_sock (sockfd : Z) (r : option (list ascii)) : M unit :=
  emit (sys_read sockfd);;
  if decide (read_ret 4 r = 4)%Z then exit (int_of_bytes (read_bytes 4 r))
  else exit 1.

Definition poll_store (fdcount : nat) (new old : Z * Z * Z) : Z * Z * Z :=
  let '(n0, n1, n2) := new in
  let '(o0, o1, o2) := old in
  (if decide (0 < fdcount) then n0 else o0,
   if decide (1 < fdcount) then n1 else o1,
   if decide (2 < fdcount) then n2 else o2).

(** [poll(pfds, fdcount, -1)] as far as [pfds] is concerned. *)
Definition shellLoop_poll (fdcount : nat) (k : wakeup) (s : state) : state :=
  match wk_revents k with
  | Some new => set_revents (poll_store fdcount new (pfds_revents s)) s
  | None => s
  end.

(** The two branches that proxy the pty: master to standard output, then
    standard input to master. *)
Definition shellLoop_pty (master : Z) (k : wakeup) : M unit :=
  s ← get_state;
  let '(_, rev1, rev2) := pfds_revents s in
  (if decide (Z.land rev2 POLLIN ≠ 0)%Z then shellLoop_master master (wk_master k)
   else mret tt);;
  (if decide (Z.land rev1 POLLIN ≠ 0)%Z then shellLoop_stdin master (wk_stdin k)
   else mret tt).

(** One iteration of [while (1)]; the result is [false] after [break]. *)
Definition shellLoop_body (sockfd master : Z) (fdcount : nat) (k : wakeup) : M bool :=
  put_state (shellLoop_poll fdcount k);;
  if decide (wk_poll k = PollError) then mret false
  else
    shellLoop_pty master k;;
    s ← get_state;
    (if decide (Z.land (pfds_revents s).1.1 (Z.lor POLLHUP POLLIN) ≠ 0)%Z
     then shellLoop_sock sockfd (wk_sock k)
     else mret tt);;
    mret true.

Fixpoint shellLoop_run (sockfd master : Z) (fdcount : nat) (evs : list event) : M unit :=
  match evs with
  | [] => pending
  | ev_signal signo win :: evs' =>
      signalHandler signo win;; shellLoop_run sockfd master fdcount evs'
  | ev_wakeup k :: evs' =>
      continue ← shellLoop_body sockfd master fdcount k;
      if continue : bool then shellLoop_run sockfd master fdcount evs' else mret tt
  end.

Definition shellLoop (sockfd master : Z) : M unit :=
  let fdcount := if decide (master ≠ (-1)%Z) then 3 else 1 in
  put_state (set_handler_vars sockfd master);;
  put_state (set_revents (0, 0, 0)%Z);;
  shellLoop_run sockfd master fdcount (script e).

(** [strcpy] and [strcat] into a block. *)
Definition strcpy (b : heap) (s : cstr) : option heap :=
  memcpy b 0 (c_str s ++ [NUL]).

Definition strcat (b : heap) (s : cstr) : option heap :=
  n ← length <$> heap_string b; memcpy b n (c_str s ++ [NUL]).

(** [addr.sun_path] as it is handed to [connect] (USE_LINUX_4_11_HACK is 1). *)
Definition connectToShellspawn_sun_path : option heap :=
  p ← store (malloc sizeof_sun_path) 0 NUL;
  p ← strcpy p (prefix g);
  strcat p (SHELLSPAWN_SOCKPATH g).

Definition connectToShellspawn : M Z :=
  match connectToShellspawn_sun_path with
  | None => undefined
  | Some sun_path =>
      let sockfd := socket_ret e in
      if decide (sockfd = -1)%Z then exit 1
      else
        emit (sys_connect sockfd sun_path);;
        if decide (connect_ret e = -1)%Z then exit 1 else mret sockfd
  end.

(** [snprintf(buffer2, sizeof(buffer2), ...)] keeps at most 4095 characters. *)
Definition snprintf_4096 (s : list ascii) : cstr := take 4095 s.

Definition setupShellspawnEnv (sockfd : Z) : M unit :=
  pushShellspawnCommand sockfd SHELLSPAWN_SETENV
    (Some (lit "PATH=/usr/bin:/bin:/usr/sbin:/sbin:/usr/local/bin"));;
  pushShellspawnCommand sockfd SHELLSPAWN_SETENV (Some (lit "TMPDIR=/private/tmp"));;
  match login_name e with
  | None => exit 1
  | Some login =>
      let buffer2 := snprintf_4096 (lit "HOME=/Users/" ++ c_str login) in
      pushShellspawnCommand sockfd SHELLSPAWN_SETENV (Some buffer2)
  end.

Definition setupWorkingDir (sockfd : Z) : M unit :=
  let buffer2 := snprintf_4096 (c_str (SYSTEM_ROOT g) ++ c_str (g_workingDirectory g)) in
  pushShellspawnCommand sockfd SHELLSPAWN_CHDIR (Some buffer2).

Definition setupIDs (sockfd : Z) : M unit :=
  let ids := int_bytes (g_originalUid g) ++ int_bytes (g_originalGid g) in
  pushShellspawnCommandData sockfd SHELLSPAWN_SETUIDGID (Some ids) 8.

(** [openpty_darling(master, &fds[0], NULL, &termios, NULL)]: [None] is the
    return value -1, otherwise the master and the slave. *)
Definition openpty_darling : M (option (Z * Z)) :=
  let amaster := posix_openpt_ret e in
  if decide (amaster = -1)%Z then mret None
  else if decide (unlockpt_ret e < 0)%Z then mret None
  else
    let aslave := open_slave_ret e in
    if decide (aslave = -1)%Z then mret None
    else emit (sys_set_termios amaster);; mret (Some (amaster, aslave)).

Definition setupPtys : M (Z * Z * Z * Z) :=
  let tty := negb (bool_decide (tcgetattr_ret e < 0)%Z) in
  r ← openpty_darling;
  match r with
  | None => exit 1
  | Some (master, slave) =>
      (if tty then
         emit (sys_get_winsz 0);;
         emit (sys_set_termios STDIN_FILENO);;
         (if decide (tcsetattr_ret e < 0)%Z then exit 1 else mret tt);;
         emit (sys_set_winsz master (tty_winsize e));;
         emit sys_atexit_restoreTermios
       else mret tt);;
      mret (slave, slave, slave, master)
  end.

(** Returns [fds] and [*master]. *)
Definition setupFDs : M (Z * Z * Z * Z) :=
  '(fd0, fd1, fd2, master) ←
    (if isatty e STDIN_FILENO then setupPtys
     else mret (dup_ret e, 0, 0, -1)%Z);
  let fd1 := if decide (master = (-1)%Z ∨ ¬ isatty e STDOUT_FILENO) then STDOUT_FILENO else fd1 in
  let fd2 := if decide (master = (-1)%Z ∨ ¬ isatty e STDERR_FILENO) then STDERR_FILENO else fd2 in
  mret (fd0, fd1, fd2, master).

Definition spawnGo (sockfd : Z) (fds : Z * Z * Z) (master : Z) : M unit :=
  pushShellspawnCommandFDs sockfd SHELLSPAWN_GO fds;;
  emit (sys_close (fds.1.1));;
  shellLoop sockfd master;;
  (if decide (master ≠ (-1)%Z) then emit (sys_close master) else mret tt);;
  emit (sys_close sockfd).

(** [argv = None] is a null [argv]. *)
Definition spawnShell (argv : option (list cstr)) : M unit :=
  buffer ← match argv with
           | None => mret None
           | Some argv => match spawnShell_buffer argv with
                          | Some b => mret (Some b)
                          | None => undefined
                          end
           end;
  sockfd ← connectToShellspawn;
  setupShellspawnEnv sockfd;;
  match buffer with
  | None => mret tt
  | Some b =>
      pushShellspawnCommand sockfd SHELLSPAWN_ADDARG (Some (lit "-c"));;
      match heap_string b with
      | Some str => pushShellspawnCommand sockfd SHELLSPAWN_ADDARG (Some str)
      | None => undefined
      end
  end;;
  setupWorkingDir sockfd;;
  setupIDs sockfd;;
  '(fd0, fd1, fd2, master) ← setupFDs;
  spawnGo sockfd (fd0, fd1, fd2) master.

Fixpoint spawnBinary_args (sockfd : Z) (argv : list cstr) : M unit :=
  match argv with
  | [] => mret tt
  | a :: argv' =>
      pushShellspawnCommand sockfd SHELLSPAWN_ADDARG (Some a);;
      spawnBinary_args sockfd argv'
  end.

Definition spawnBinary (binary : cstr) (argv : list cstr) : M unit :=
  sockfd ← connectToShellspawn;
  setupShellspawnEnv sockfd;;
  pushShellspawnCommand sockfd SHELLSPAWN_SETEXEC (Some binary);;
  spawnBinary_args sockfd argv;;
  setupWorkingDir sockfd;;
  setupIDs sockfd;;
  '(fd0, fd1, fd2, master) ← setupFDs;
  spawnGo sockfd (fd0, fd1, fd2) master.

(** The last part of [main], from the point where the container is up
    (after [seteuid(g_originalUid)]); the result is the status [main]
    returns. [main] gets this far only when [getopt_long] has met neither
    [--help] nor [--version] and [argv[1]] is not [shutdown]: see
    [spawn_request]. *)
Definition main_spawn (argv : list cstr) : M Z :=
  match argv with
  | _ :: arg1 :: rest =>
      if streq arg1 (lit "shell") then
        (if decide (2 < length argv) then spawnShell (Some rest) else spawnShell None);;
        mret 0%Z
      else
        let doExec := streq arg1 (lit "exec") in
        let argvIndex := if doExec then 2 else 1 in
        if doExec && bool_decide (length argv ≤ 2) then mret 1%Z
        else
          match realpath e (default [] (argv !! argvIndex)) with
          | None => mret 1%Z
          | Some path =>
              let fullPath := c_str (SYSTEM_ROOT g) ++ c_str path in
              let argv := <[argvIndex := fullPath]> argv in
              (if doExec then spawnBinary fullPath (drop argvIndex argv)
               else spawnShell (Some (drop argvIndex argv)));;
              mret 0%Z
          end
  | _ => mret 1%Z
  end.

End Client.

(** A scripted read of standard input that fills the buffer, so that the
    [do ... while] goes round again, and what such reads leave in the trace. *)
Definition stdin_full (x : option Z * option (list ascii)) : bool :=
  match x.1 with
  | Some n => bool_decide (read_ret (stdin_count n) x.2 = sizeof_buf)
  | None => false
  end.

Definition stdin_full_trace (master : Z) (x : option Z * option (list ascii))
  : list syscall :=
  match x.1 with
  | Some n => [sys_read STDIN_FILENO; sys_write master (read_bytes (stdin_count n) x.2)]
  | None => []
  end.

(** ** Formatted input ([fscanf], [sscanf], [getline]) *)

Definition isspace (c : ascii) : bool :=
  bool_decide (c ∈ [SPACE; TAB; NEWLINE; "011"%char; "012"%char; "013"%char]).

Fixpoint skip_space (s : list ascii) : list ascii :=
  match s with
  | [] => []
  | c :: s' => if isspace c then skip_space s' else s
  end.

Definition digit_of (c : ascii) : option Z :=
  let n := Z_of_byte c in
  if decide (48 ≤ n ≤ 57)%Z then Some (n - 48)%Z else None.

Fixpoint scan_digits (s : list ascii) (acc : Z) : Z * list ascii :=
  match s with
  | [] => (acc, [])
  | c :: s' =>
      match digit_of c with
      | Some d => scan_digits s' (10 * acc + d)%Z
      | None => (acc, s)
      end
  end.

(** The conversion [%d] of glibc on an LP64 target: blanks are skipped, a
    sign is optional, at least one digit is required; the value saturates to
    [long] and is then stored into an [int]. [None] is a failed conversion. *)
Definition to_long (z : Z) : Z := Z.max (- 2 ^ 63) (Z.min (2 ^ 63 - 1) z).
Definition to_int (z : Z) : Z := ((z + 2 ^ 31) `mod` 2 ^ 32 - 2 ^ 31)%Z.
Definition to_unsigned (z : Z) : Z := (z `mod` 2 ^ 32)%Z.

Definition scan_sign (s : list ascii) : bool * list ascii :=
  match s with
  | c :: s' =>
      if decide (c = "-"%char) then (true, s')
      else if decide (c = "+"%char) then (false, s')
      else (false, s)
  | [] => (false, [])
  end.

Definition scan_d (s : list ascii) : option (Z * list ascii) :=
  let '(neg, s) := scan_sign (skip_space s) in
  match s with
  | [] => None
  | c :: _ =>
      if digit_of c is Some _ then
        let '(v, rest) := scan_digits s 0 in
        Some (to_int (to_long (if neg : bool then - v else v)), rest)
      else None
  end.

Fixpoint scan_word (s : list ascii) : list ascii * list ascii :=
  match s with
  | [] => ([], [])
  | c :: s' =>
      if isspace c then ([], s)
      else let '(w, rest) := scan_word s' in (c :: w, rest)
  end.

(** The conversion [%ms]: blanks are skipped, then the characters up to the
    next blank are taken; it fails when there is none. *)
Definition scan_ms (s : list ascii) : option (list ascii * list ascii) :=
  match scan_word (skip_space s) with
  | ([], _) => None
  | (w, rest) => Some (w, rest)
  end.

Fixpoint match_literal (l s : list ascii) : option (list ascii) :=
  match l, s with
  | [], _ => Some s
  | _ :: _, [] => None
  | c :: l', d :: s' => if decide (c = d) then match_literal l' s' else None
  end.

(** [sscanf(statusBuf, "<tag> %d %d %d %d", ...) == 4] and the four values. *)
Definition sscanf_ids (tag : string) (statusBuf : cstr) : option (Z * Z * Z * Z) :=
  s ← match_literal (lit tag) (c_str statusBuf);
  '(rid, s) ← scan_d (skip_space s);
  '(eid, s) ← scan_d (skip_space s);
  '(sid, s) ← scan_d (skip_space s);
  '(fid, _) ← scan_d (skip_space s);
  Some (rid, eid, sid, fid).

(** The lines [getline] returns for a file, each with its newline. *)
Fixpoint getlines_from (cur s : list ascii) : list (list ascii) :=
  match s with
  | [] => match cur with [] => [] | _ => [cur] end
  | c :: s' =>
      if decide (c = NEWLINE) then (cur ++ [c]) :: getlines_from [] s'
      else getlines_from (cur ++ [c]) s'
  end.

Definition getlines (s : list ascii) : list (list ascii) := getlines_from [] s.

(** ** getInitProcess *)

(** The files and processes [getInitProcess] looks at: the contents of
    [<prefix>/.init.pid] ([None] when [fopen] fails), the return value of
    [kill(pid, 0)], and the contents of [/proc/<pid>/comm] and
    [/proc/<pid>/status]. *)
Record host := {
  init_pid : option (list ascii);
  kill0 : Z → Z;
  proc_comm : Z → option (list ascii);
  proc_status : Z → option (list ascii)
}.

Definition unlink_pidPath (h : host) : host :=
  {| init_pid := None; kill0 := kill0 h;
     proc_comm := proc_comm h; proc_status := proc_status h |}.

(** An [int] compared with a [uid_t] is converted to unsigned first. *)
Definition id_eq (x : Z) (id : Z) : bool :=
  bool_decide (to_unsigned x = id).

Definition ids_match (ids : Z * Z * Z * Z) (id : Z) : bool :=
  let '(rid, eid, sid, fid) := ids in
  id_eq rid id && id_eq eid id && id_eq sid id && id_eq fid id.

(** One round of the [getline] loop on [uidMatch] and [gidMatch]. *)
Definition getInitProcess_line (g : globals) (m : bool * bool) (statusBuf : cstr)
  : bool * bool :=
  let '(uidMatch, gidMatch) := m in
  (match sscanf_ids "Uid:" statusBuf with
   | Some ids => ids_match ids (g_originalUid g)
   | None => uidMatch
   end,
   match sscanf_ids "Gid:" statusBuf with
   | Some ids => ids_match ids (g_originalGid g)
   | None => gidMatch
   end).

Definition getInitProcess (g : globals) (h : host) : Z * host :=
  match init_pid h with
  | None => (0%Z, h)
  | Some content =>
  match scan_d content with
  | None => (0%Z, unlink_pidPath h)
  | Some (pid, _) =>
  if decide (kill0 h pid = -1)%Z then (0%Z, unlink_pidPath h)
  else
  match proc_comm h pid with
  | None => (0%Z, unlink_pidPath h)
  | Some comm =>
  match scan_ms comm with
  | None => (0%Z, unlink_pidPath h)
  | Some (exeBuf, _) =>
  if negb (streq exeBuf (lit "darlingserver")) then (0%Z, unlink_pidPath h)
  else if decide (g_originalUid g ≠ 0)%Z then
    match proc_status h pid with
    | None => (0%Z, unlink_pidPath h)
    | Some status =>
        let '(uidMatch, gidMatch) :=
          fold_left (getInitProcess_line g) (getlines status) (false, false) in
        if negb uidMatch || negb gidMatch then (0%Z, unlink_pidPath h)
        else (pid, h)
    end
  else (pid, h)
  end end end end.

(** ** Vocabulary of the statements *)

(** A Go command travels by [sendmsg], with no payload and three
    descriptors in its control message; [write] never carries one. *)
Definition Go_wellformed (c : syscall) : Prop :=
  match c with
  | sys_sendmsg _ c scm_rights =>
      cmd c = SHELLSPAWN_GO ∧ data_length c = 0 ∧ data c = []
      ∧ length scm_rights = 3
  | sys_write_cmd _ c | sys_write_cmd_short _ c => cmd c ≠ SHELLSPAWN_GO
  | _ => True
  end.

(** Whatever [m] does, it appends to the trace calls that satisfy [P]. *)
Definition emits {A} (P : syscall → Prop) (m : M A) : Prop :=
  ∀ s, ∃ r, trace (final_state (m s)) = trace s ++ r ∧ Forall P r.

(** The commands that went out whole on the protocol channel, in order,
    each with the descriptors passed along. *)
Definition wire (t : list syscall) : list (shellspawn_cmd * list Z) :=
  omap (λ c, match c with
             | sys_write_cmd _ c => Some (c, [])
             | sys_sendmsg _ c scm_rights => Some (c, scm_rights)
             | _ => None
             end) t.

Definition wire_kinds (t : list syscall) : list shellspawn_cmd_type_t :=
  (λ x, cmd x.1) <$> wire t.

(** A command whose payload is the string [v] with its terminator. *)
Definition string_cmd (type : shellspawn_cmd_type_t) (v : list ascii) : shellspawn_cmd :=
  {| cmd := type; data_length := length v + 1; data := v ++ [NUL] |}.

(** The environment lets [setupFDs] return: with a terminal on standard
    input the pty can be opened and the terminal be put into raw mode. *)
Definition setupFDs_succeeds (e : env) : Prop :=
  isatty e STDIN_FILENO = true →
  posix_openpt_ret e ≠ (-1)%Z ∧ ¬ (unlockpt_ret e < 0)%Z
  ∧ open_slave_ret e ≠ (-1)%Z
  ∧ (¬ (tcgetattr_ret e < 0)%Z → ¬ (tcsetattr_ret e < 0)%Z).

(** ** Example data *)

Definition example_globals : globals :=
  {| SYSTEM_ROOT := lit "/Volumes/SystemRoot";
     SHELLSPAWN_SOCKPATH := lit "/var/run/shellspawn.sock";
     prefix := lit "/home/user/.darling";
     g_workingDirectory := lit "/home/user";
     g_originalUid := 1000;
     g_originalGid := 1000 |}.

Definition example_winsize : winsize :=
  {| ws_row := 24; ws_col := 80; ws_xpixel := 0; ws_ypixel := 0 |}.

(** The broker reports [status] on the first wake-up. *)
Definition example_wakeup (status : Z) : wakeup :=
  {| wk_poll := PollReady; wk_revents := Some (POLLIN, 0, 0)%Z;
     wk_master := []; wk_stdin := []; wk_sock := Some (int_bytes status) |}.

(** Standard input is not a terminal, every call succeeds, the user is
    [user], [realpath] finds every path already canonical. *)
Definition example_env (evs : list event) : env :=
  {| getpwuid_name := Some (lit "user"); getlogin := None;
     realpath := λ p, Some p;
     socket_ret := 3; connect_ret := 0;
     write_whole := λ _, true; sendmsg_ret := 0;
     isatty := λ _, false; dup_ret := 4;
     tcgetattr_ret := -1; posix_openpt_ret := 5; unlockpt_ret := 0;
     open_slave_ret := 6; tcsetattr_ret := 0;
     tty_winsize := example_winsize;
     script := evs |}.

(** The handler variables as [shellLoop] sets them with a pty in use. *)
Definition example_pty_state : state := set_handler_vars 3 5 initial_state.

(** A line of [/proc/<pid>/status] as the kernel prints it: the tag, then a
    tab before each of the four numbers, then a newline. *)
Definition status_line (tag : string) (ids : list string) : list ascii :=
  lit tag ++ concat ((λ x, TAB :: lit x) <$> ids) ++ [NEWLINE].

(** The record names process 4242, which is alive with the command name
    [comm], the four user ids [uids] and the group id 1000 four times; no
    other process exists. *)
Definition example_host (comm : string) (uids : list string) : host :=
  {| init_pid := Some (lit "4242");
     kill0 := λ pid, if decide (pid = 4242%Z) then 0%Z else (-1)%Z;
     proc_comm := λ pid, if decide (pid = 4242%Z) then Some (lit comm ++ [NEWLINE]) else None;
     proc_status := λ pid,
       if decide (pid = 4242%Z)
       then Some (status_line "Name:" [comm] ++ status_line "Uid:" uids
                  ++ status_line "Gid:" ["1000"; "1000"; "1000"; "1000"]%string)
       else None |}.

(** ** Further vocabulary *)

(** The bytes written to descriptor [fd], in order. *)
Definition written_to (fd : Z) (t : list syscall) : list ascii :=
  concat (omap (λ c, match c with
                     | sys_write fd' bytes => if decide (fd' = fd) then Some bytes else None
                     | _ => None
                     end) t).

(** The Signal command for a signal number. *)
Definition signal_cmd (signo : Z) : shellspawn_cmd :=
  {| cmd := SHELLSPAWN_SIGNAL; data_length := 4; data := int_bytes signo |}.


Definition is_short_write (c : syscall) : bool :=
  match c with sys_write_cmd_short _ _ => true | _ => false end.

(** A scripted read of the pty master that fills the buffer. *)
Definition master_full (r : option (list ascii)) : bool :=
  bool_decide (read_ret sizeof_buf r = sizeof_buf).

(** The calls of the loop when no pty is in use: reads of the protocol
    channel and Signal commands written to it. *)
Definition channel_only (sockfd : Z) (c : syscall) : Prop :=
  c = sys_read sockfd
  ∨ ∃ signo, c = sys_write_cmd sockfd (signal_cmd signo)
             ∨ c = sys_write_cmd_short sockfd (signal_cmd signo).

(** The three SetEnv commands of [setupShellspawnEnv] for a user name, and
    the Chdir and SetIdentity commands that precede Go. *)
Definition env_cmds (login : cstr) : list (shellspawn_cmd * list Z) :=
  [ (string_cmd SHELLSPAWN_SETENV
       (lit "PATH=/usr/bin:/bin:/usr/sbin:/sbin:/usr/local/bin"), []);
    (string_cmd SHELLSPAWN_SETENV (lit "TMPDIR=/private/tmp"), []);
    (string_cmd SHELLSPAWN_SETENV (snprintf_4096 (lit "HOME=/Users/" ++ c_str login)), []) ].

Definition go_cmds (g : globals) (fds : list Z) : list (shellspawn_cmd * list Z) :=
  [ (string_cmd SHELLSPAWN_CHDIR
       (snprintf_4096 (c_str (SYSTEM_ROOT g) ++ c_str (g_workingDirectory g))), []);
    ({| cmd := SHELLSPAWN_SETUIDGID; data_length := 8;
        data := int_bytes (g_originalUid g) ++ int_bytes (g_originalGid g) |}, []);
    ({| cmd := SHELLSPAWN_GO; data_length := 0; data := [] |}, fds) ].

(** The broker can be reached and, at the first wake-up of the loop,
    reports the exit status [status] and nothing else. *)
Definition broker_reports (g : globals) (e : env) (status : Z) : Prop :=
  length (c_str (prefix g) ++ c_str (SHELLSPAWN_SOCKPATH g)) < sizeof_sun_path
  ∧ socket_ret e ≠ (-1)%Z ∧ connect_ret e ≠ (-1)%Z
  ∧ (∀ n, write_whole e n = true) ∧ ¬ (sendmsg_ret e < 0)%Z
  ∧ setupFDs_succeeds e
  ∧ (- 2 ^ 31 ≤ status < 2 ^ 31)%Z
  ∧ ∃ k evs rev0 rev1 rev2,
      script e = ev_wakeup k :: evs ∧ wk_poll k ≠ PollError
      ∧ wk_revents k = Some (rev0, rev1, rev2)
      ∧ Z.land rev0 (Z.lor POLLHUP POLLIN) ≠ 0%Z
      ∧ Z.land rev1 POLLIN = 0%Z ∧ Z.land rev2 POLLIN = 0%Z
      ∧ wk_sock k = Some (int_bytes status).

(** A short write of a command is the last call of a run, and the run then
    ends in [exit(EXIT_FAILURE)]. *)
Definition short_fatal {A} (m : M A) : Prop :=
  ∀ s, ∃ r,
    trace (final_state (m s)) = trace s ++ r
    ∧ (Forall (λ c, is_short_write c = false) r
       ∨ ∃ r0 fd c s',
           r = r0 ++ [sys_write_cmd_short fd c]
           ∧ Forall (λ c, is_short_write c = false) r0
           ∧ m s = Exit EXIT_FAILURE s').

(** The example environment, except that only the first [n] calls of the
    trace may be followed by a whole write. *)
Definition example_env_short (n : nat) (evs : list event) : env :=
  {| getpwuid_name := Some (lit "user"); getlogin := None;
     realpath := λ p, Some p;
     socket_ret := 3; connect_ret := 0;
     write_whole := λ k, bool_decide (k < n); sendmsg_ret := 0;
     isatty := λ _, false; dup_ret := 4;
     tcgetattr_ret := -1; posix_openpt_ret := 5; unlockpt_ret := 0;
     open_slave_ret := 6; tcsetattr_ret := 0;
     tty_winsize := example_winsize;
     script := evs |}.

(** The example environment with a broker that refuses the connection, and
    with a user that has no name. *)
Definition example_env_refused (evs : list event) : env :=
  {| getpwuid_name := Some (lit "user"); getlogin := None;
     realpath := λ p, Some p;
     socket_ret := 3; connect_ret := -1;
     write_whole := λ _, true; sendmsg_ret := 0;
     isatty := λ _, false; dup_ret := 4;
     tcgetattr_ret := -1; posix_openpt_ret := 5; unlockpt_ret := 0;
     open_slave_ret := 6; tcsetattr_ret := 0;
     tty_winsize := example_winsize;
     script := evs |}.

Definition example_env_nobody (evs : list event) : env :=
  {| getpwuid_name := None; getlogin := None;
     realpath := λ p, Some p;
     socket_ret := 3; connect_ret := 0;
     write_whole := λ _, true; sendmsg_ret := 0;
     isatty := λ _, false; dup_ret := 4;
     tcgetattr_ret := -1; posix_openpt_ret := 5; unlockpt_ret := 0;
     open_slave_ret := 6; tcsetattr_ret := 0;
     tty_winsize := example_winsize;
     script := evs |}.

(** The calls by which [main] hands a request to the broker. *)
Inductive spawn_call (g : globals) (e : env) : M unit → Prop :=
  | spawn_shell_plain : spawn_call g e (spawnShell g e None)
  | spawn_shell_args (argv : list cstr) :
      argv ≠ [] → spawn_call g e (spawnShell g e (Some argv))
  | spawn_binary (binary : cstr) (argv : list cstr) :
      spawn_call g e (spawnBinary g e binary argv).

(** ** Formatted output *)

Definition digit_char (d : Z) : ascii := byte_of (48 + d).

(** The decimal digits of [n], most significant first, in front of [acc];
    [fuel] bounds the number of digits. *)
Fixpoint print_digits (fuel : nat) (n : Z) (acc : list ascii) : list ascii :=
  match fuel with
  | 0 => acc
  | S fuel' =>
      let acc' := digit_char (n `mod` 10) :: acc in
      if decide (n < 10)%Z then acc' else print_digits fuel' (n / 10) acc'
  end.

(** The conversions [%u] and [%d] of [printf], for values of at most 20
    digits. *)
Definition print_u (n : Z) : list ascii := print_digits 20 n [].

Definition print_d (z : Z) : list ascii :=
  if decide (z < 0)%Z then "-"%char :: print_u (- z) else print_u z.

Definition is_digit (c : ascii) : Prop := ∃ d, digit_of c = Some d.

(** ** Paths under the prefix *)

(** [sizeof] of a [char] array initialised from a string literal. *)
Definition sizeof_lit (s : string) : nat := String.length s + 1.

Definition SLASH : ascii := "/"%char.

(** [defaultPrefixPath]: the inner [None] is the NULL returned when HOME is
    not set, the outer one a store outside the block. *)
Definition defaultPrefixPath (home : option cstr) : option (option heap) :=
  match home with
  | None => Some None
  | Some home =>
      let buf := malloc (strlen home + sizeof_lit "/.darling") in
      buf ← strcpy buf home;
      buf ← strcat buf (lit "/.darling");
      Some (Some buf)
  end.

(** [pidPath] as [putInitPid] and [getInitProcess] both build it. *)
Definition pidPath (g : globals) : option heap :=
  let pidPath := malloc (strlen (prefix g) + sizeof_lit "/.init.pid") in
  pidPath ← strcpy pidPath (prefix g);
  strcat pidPath (lit "/.init.pid").

(** [while (workdir[len-1] == '/') len--;] with [len] a [size_t]: at
    [len = 0] the byte read is the one before the block. The result is the
    value of [len] when the loop ends. *)
Fixpoint setupWorkdir_strip (workdir : heap) (len : nat) : option nat :=
  match len with
  | 0 => None
  | S len' =>
      match workdir !! len' with
      | Some (Some c) =>
          if decide (c = SLASH) then setupWorkdir_strip workdir len' else Some len
      | _ => None
      end
  end.

(** The path [setupWorkdir] hands to [createDir]. *)
Definition setupWorkdir_path (g : globals) : option heap :=
  let len := strlen (prefix g) in
  let workdir := malloc (len + sizeof_lit ".workdir") in
  workdir ← strcpy workdir (prefix g);
  len ← setupWorkdir_strip workdir len;
  workdir ← store workdir len NUL;
  strcat workdir (lit ".workdir").

(** A path without its trailing slashes. *)
Fixpoint strip_slashes (p : list ascii) : list ascii :=
  match p with
  | [] => []
  | c :: p' =>
      match strip_slashes p' with
      | [] => if decide (c = SLASH) then [] else [c]
      | r => c :: r
      end
  end.

(** ** The pid record *)

(** [putInitPid]: with [fopen_ok = false] the record cannot be opened for
    writing and is left as it is. *)
Definition putInitPid (fopen_ok : bool) (pidInit : Z) (h : host) : host :=
  if fopen_ok then
    {| init_pid := Some (print_d pidInit); kill0 := kill0 h;
       proc_comm := proc_comm h; proc_status := proc_status h |}
  else h.

(** A line of [/proc/<pid>/status] with four equal ids, as the kernel
    prints it. *)
Definition ids_line (tag : string) (id : Z) : list ascii :=
  lit tag ++ concat ((λ x, TAB :: print_u x) <$> [id; id; id; id]) ++ [NEWLINE].

(** ** Shutdown *)

Definition SIGKILL : Z := 9.

(** The [shutdown] branch of [main]: [children] is the content of
    [/proc/<pidInit>/task/<pidInit>/children] ([None] when [fopen] fails);
    the result is the status [main] returns and the [kill] calls made. *)
Definition main_shutdown (pidInit : Z) (children : option (list ascii))
  : Z * list (Z * Z) :=
  if decide (pidInit = 0)%Z then (1%Z, [])
  else
    match children with
    | None => (1%Z, [])
    | Some content =>
        match scan_d content with
        | None => (1%Z, [])
        | Some (launchd_pid, _) => (0%Z, [(launchd_pid, SIGKILL); (pidInit, SIGKILL)])
        end
    end.

(** The kernel lists the children by pid, each followed by a blank. *)
Definition children_file (pids : list Z) : list ascii :=
  concat ((λ p, print_d p ++ [SPACE]) <$> pids).

(** ** The prefix on disk *)

(** Directories and regular files with their owner. A location is named by
    the list of path components that leads to it from the root. The model has
    no symbolic links and does not interpret the names [.] and [..]; group
    ownership and file modes are left out. *)
Inductive node :=
  | Dir (uid : Z)
  | File (uid : Z) (content : list ascii).

Abbreviation key := (list (list ascii)).

(** The file system, the working directory, the effective user id, and for
    each user the locations that user is refused access to. *)
Record world := {
  fs : key → option node;
  cwd : key;
  euid : Z;
  denied : Z → key → bool
}.

Definition set_fs (k : key) (n : node) (w : world) : world :=
  {| fs := λ k', if decide (k' = k) then Some n else fs w k';
     cwd := cwd w; euid := euid w; denied := denied w |}.

Definition set_euid (uid : Z) (w : world) : world :=
  {| fs := fs w; cwd := cwd w; euid := uid; denied := denied w |}.

(** A run over the file system returns, calls [exit], or has stored outside
    an object. *)
Inductive fresult (A : Type) : Type :=
  | FRet (a : A) (w : world)
  | FExit (status : Z) (w : world)
  | FUndefined (w : world).
Arguments FRet {A} a w.
Arguments FExit {A} status w.
Arguments FUndefined {A} w.

Definition F (A : Type) : Type := world → fresult A.

#[global] Instance F_ret : MRet F := λ A a w, FRet a w.
#[global] Instance F_bind : MBind F := λ A B f m w,
  match m w with
  | FRet a w' => f a w'
  | FExit n w' => FExit n w'
  | FUndefined w' => FUndefined w'
  end.

Definition fexit {A} (status : Z) : F A := λ w, FExit status w.
Definition get_world : F world := λ w, FRet w w.
Definition lift {A} (o : option A) : F A :=
  λ w, match o with Some a => FRet a w | None => FUndefined w end.

(** The components of a path: the names between slashes. *)
Fixpoint components_from (cur p : list ascii) : key :=
  match p with
  | [] => match cur with [] => [] | _ => [cur] end
  | c :: p' =>
      if decide (c = SLASH) then
        match cur with
        | [] => components_from [] p'
        | _ => cur :: components_from [] p'
        end
      else components_from (cur ++ [c]) p'
  end.

Definition components (p : list ascii) : key := components_from [] p.

Definition is_abs (p : list ascii) : bool := bool_decide (head p = Some SLASH).

Definition resolve (w : world) (path : cstr) : key :=
  (if is_abs (c_str path) then [] else cwd w) ++ components (c_str path).

Definition ENOENT : Z := 2.
Definition EACCES : Z := 13.
Definition EEXIST : Z := 17.
Definition ENOTDIR : Z := 20.
Definition EISDIR : Z := 21.

(** [stat]: what is found, or [errno]. *)
Definition stat (w : world) (path : cstr) : node + Z :=
  if decide (c_str path = []) then inr ENOENT
  else
    let k := resolve w path in
    if denied w (euid w) k then inr EACCES
    else match fs w k with Some n => inl n | None => inr ENOENT end.

Definition S_ISDIR (n : node) : bool :=
  match n with Dir _ => true | File _ _ => false end.

Definition st_uid (n : node) : Z :=
  match n with Dir uid | File uid _ => uid end.

(** [mkdir]: 0, or -1 and [errno]. The new directory belongs to the
    effective user. *)
Definition mkdir (path : cstr) : F (Z * Z) := λ w,
  if decide (c_str path = []) then FRet ((-1)%Z, ENOENT) w
  else
    let k := resolve w path in
    if denied w (euid w) k then FRet ((-1)%Z, EACCES) w
    else
      match fs w k with
      | Some _ => FRet ((-1)%Z, EEXIST) w
      | None =>
          match fs w (removelast k) with
          | Some (Dir _) => FRet (0%Z, 0%Z) (set_fs k (Dir (euid w)) w)
          | Some (File _ _) => FRet ((-1)%Z, ENOTDIR) w
          | None => FRet ((-1)%Z, ENOENT) w
          end
      end.

(** [fopen(path, "w")]: the location of the file, created or truncated, or
    [None] for NULL. *)
Definition fopen_w (path : cstr) : F (option key) := λ w,
  if decide (c_str path = []) then FRet None w
  else
    let k := resolve w path in
    if denied w (euid w) k then FRet None w
    else
      match fs w k with
      | Some (Dir _) => FRet None w
      | Some (File uid _) => FRet (Some k) (set_fs k (File uid []) w)
      | None =>
          match fs w (removelast k) with
          | Some (Dir _) => FRet (Some k) (set_fs k (File (euid w) []) w)
          | _ => FRet None w
          end
      end.

(** [fprintf] to a file opened for writing, with the text already
    formatted. *)
Definition fprintf (file : key) (text : list ascii) : F unit := λ w,
  match fs w file with
  | Some (File uid content) => FRet tt (set_fs file (File uid (content ++ text)) w)
  | _ => FRet tt w
  end.

Definition seteuid (uid : Z) : F unit := λ w, FRet tt (set_euid uid w).

Definition createDir (path : cstr) : F unit :=
  w ← get_world;
  match stat w path with
  | inl st => if negb (S_ISDIR st) then fexit 1 else mret tt
  | inr errno =>
      if decide (errno = ENOENT) then
        '(r, _) ← mkdir path;
        if decide (r ≠ 0)%Z then fexit 1 else mret tt
      else fexit 1
  end.

(** [setupWorkdir]: the directory next to the prefix is created. *)
Definition setupWorkdir (g : globals) : F unit :=
  workdir ← lift (setupWorkdir_path g ≫= heap_string);
  createDir workdir.

Definition checkPrefixDir (g : globals) : F Z :=
  w ← get_world;
  match stat w (prefix g) with
  | inl st => if negb (S_ISDIR st) then fexit 1 else mret 1%Z
  | inr errno => if decide (errno = ENOENT) then mret 0%Z else fexit 1
  end.

Definition checkPrefixOwner (g : globals) : F unit :=
  w ← get_world;
  match stat w (prefix g) with
  | inl st =>
      if decide (g_originalUid g ≠ 0 ∧ st_uid st ≠ g_originalUid g)%Z then fexit 1
      else mret tt
  | inr errno => if decide (errno = EACCES) then fexit 1 else mret tt
  end.

Record passwd := {
  pw_name : cstr;
  pw_uid : Z;
  pw_gid : Z
}.

Definition setupPrefix_dirs : list string :=
  [ "/Volumes"; "/Applications"; "/usr"; "/usr/local"; "/usr/local/share";
    "/private"; "/private/var"; "/private/var/log"; "/private/var/db";
    "/private/etc"; "/var"; "/var/run"; "/var/tmp"; "/var/log" ]%string.

Definition sizeof_path : nat := 4096.

(** [path[plen] = '\0'; strcat(path, s);] and the string then in [path]. *)
Definition setupPrefix_path (path : heap) (plen : nat) (s : string) : F (heap * cstr) :=
  path ← lift (store path plen NUL);
  path ← lift (strcat path (lit s));
  str ← lift (heap_string path);
  mret (path, str).

Fixpoint setupPrefix_loop (path : heap) (plen : nat) (dirs : list string) : F heap :=
  match dirs with
  | [] => mret path
  | d :: dirs' =>
      '(path, str) ← setupPrefix_path path plen d;
      createDir str;;
      setupPrefix_loop path plen dirs'
  end.

Definition setupPrefix_file (path : heap) (plen : nat) (name : string)
    (text : list ascii) : F heap :=
  '(path, str) ← setupPrefix_path path plen name;
  file ← fopen_w str;
  match file with
  | None => fexit 1
  | Some file => fprintf file text;; mret path
  end.

(** The three files, with [%d] applied to the [uid_t] and [gid_t] fields. *)
Definition passwd_text (pw : passwd) : list ascii :=
  lit "root:*:0:0:System Administrator:/var/root:/bin/sh" ++ [NEWLINE]
  ++ c_str (pw_name pw) ++ lit ":*:" ++ print_d (to_int (pw_uid pw)) ++ lit ":"
  ++ print_d (to_int (pw_gid pw)) ++ lit ":Darling User:/Users/"
  ++ c_str (pw_name pw) ++ lit ":/bin/bash" ++ [NEWLINE].

Definition master_passwd_text (pw : passwd) : list ascii :=
  lit "root:*:0:0::0:0:System Administrator:/var/root:/bin/sh" ++ [NEWLINE]
  ++ c_str (pw_name pw) ++ lit ":*:" ++ print_d (to_int (pw_uid pw)) ++ lit ":"
  ++ print_d (to_int (pw_gid pw)) ++ lit "::0:0:Darling User:/Users/"
  ++ c_str (pw_name pw) ++ lit ":/bin/bash" ++ [NEWLINE].

Definition group_text (pw : passwd) : list ascii :=
  lit "wheel:*:0:root," ++ c_str (pw_name pw) ++ [NEWLINE]
  ++ c_str (pw_name pw) ++ lit ":*:" ++ print_d (to_int (pw_gid pw)) ++ lit ":"
  ++ c_str (pw_name pw) ++ [NEWLINE].

Definition setupPrefix (g : globals) (getpwuid : Z → option passwd) : F unit :=
  seteuid (g_originalUid g);;
  createDir (prefix g);;
  path ← lift (strcpy (malloc sizeof_path) (prefix g));
  path ← lift (strcat path (lit "/"));
  plen ← lift (length <$> heap_string path);
  path ← setupPrefix_loop path plen setupPrefix_dirs;
  match getpwuid (g_originalUid g) with
  | None => fexit 1
  | Some pw =>
      path ← setupPrefix_file path plen "/private/etc/passwd" (passwd_text pw);
      path ← setupPrefix_file path plen "/private/etc/master.passwd"
                (master_passwd_text pw);
      path ← setupPrefix_file path plen "/private/etc/group" (group_text pw);
      seteuid 0
  end.

(** The part of [main] that finds or creates the prefix; the result is
    [g_fixPermissions]. *)
Definition main_prefix (g : globals) (getpwuid : Z → option passwd) : F bool :=
  found ← checkPrefixDir g;
  fixPermissions ← (if decide (found = 0)%Z
                    then setupPrefix g getpwuid;; mret true
                    else mret false);
  checkPrefixOwner g;;
  mret fixPermissions.

(** The locations under [pk] hold what [c] says, as seen from [w]; the rest
    of the file system is as in [w0]; the effective user is [u] and nobody is
    refused access. *)
Definition below (pk : key) (w0 : world) (u : Z) (c : key → option node) (w : world)
  : Prop :=
  cwd w = cwd w0 ∧ euid w = u
  ∧ (∀ v k, denied w v k = false)
  ∧ (∀ r, fs w (pk ++ r) = c r)
  ∧ (∀ k, (∀ r, k ≠ pk ++ r) → fs w k = fs w0 k).

Definition upd (c : key → option node) (r : key) (n : node) : key → option node :=
  λ r', if decide (r' = r) then Some n else c r'.

(** The directories of [seen], owned by [uid], and nothing else. *)
Definition dirs_region (uid : Z) (seen : list key) : key → option node :=
  λ r, if decide (r ∈ seen) then Some (Dir uid) else None.

(** Every directory of the list is new and its parent has been made before
    it ([seen] holds the directories made so far); its name has no nul byte
    and fewer than 28 bytes. *)
Fixpoint parents_first (seen : list key) (ds : list string) : bool :=
  match ds with
  | [] => true
  | d :: ds' =>
      let r := components (lit d) in
      bool_decide (r ≠ [] ∧ (r ∉ seen) ∧ (removelast r ∈ seen)
                   ∧ (NUL ∉ lit d) ∧ length (lit d) < 28)
      && parents_first (r :: seen) ds'
  end.

(** The example system: [/home/user] exists and belongs to user 1000. *)
Definition example_world : world :=
  {| fs := λ k,
       if decide (k = []) then Some (Dir 0)
       else if decide (k = [lit "home"]) then Some (Dir 0)
       else if decide (k = [lit "home"; lit "user"]) then Some (Dir 1000)
       else None;
     cwd := [];
     euid := 0;
     denied := λ _ _, false |}.

Definition example_getpwuid (uid : Z) : option passwd :=
  if decide (uid = 1000)%Z
  then Some {| pw_name := lit "user"; pw_uid := 1000; pw_gid := 1000 |}
  else None.

(** What [setupPrefix] leaves under a prefix that was not there: the prefix
    directory, the fourteen directories and the three files, all owned by
    the invoking user. *)
Definition setupPrefix_region (uid : Z) (pw : passwd) : key → option node :=
  upd (upd (upd (dirs_region uid
                   (fold_left (λ seen d, components (lit d) :: seen)
                      setupPrefix_dirs [[]]))
              (components (lit "/private/etc/passwd")) (File uid (passwd_text pw)))
         (components (lit "/private/etc/master.passwd"))
         (File uid (master_passwd_text pw)))
    (components (lit "/private/etc/group")) (File uid (group_text pw)).

Definition fworld {A} (r : fresult A) : world :=
  match r with FRet _ w | FExit _ w | FUndefined w => w end.

(** The example environment with terminals on all three standard
    descriptors. *)
Definition example_env_tty (evs : list event) : env :=
  {| getpwuid_name := Some (lit "user"); getlogin := None;
     realpath := λ p, Some p;
     socket_ret := 3; connect_ret := 0;
     write_whole := λ _, true; sendmsg_ret := 0;
     isatty := λ _, true; dup_ret := 4;
     tcgetattr_ret := 0; posix_openpt_ret := 5; unlockpt_ret := 0;
     open_slave_ret := 6; tcsetattr_ret := 0;
     tty_winsize := example_winsize;
     script := evs |}.

(** ** Signals the handler can get *)








(** ** What the process does after exit is called *)




(** ** Invocations that reach the last part of main *)

(** [getopt_long] is called with the option string ["+"], so it stops at
    the first argument that does not begin with [-]: with such an [argv[1]]
    it acts on no option and neither [--help] nor [--version] ends the
    process. If moreover [argv[1]] is not [shutdown], [main] goes on to the
    part embedded as [main_spawn]. *)
Definition spawn_request (argv : list cstr) : Prop :=
  match argv with
  | _ :: arg1 :: _ =>
      head (c_str arg1) ≠ Some "-"%char ∧ streq arg1 (lit "shutdown") = false
  | _ => False
  end.

(** ** The Go message *)

Definition no_sendmsg (c : syscall) : Prop :=
  match c with sys_sendmsg _ _ _ => False | _ => True end.

Definition Go_cmd : shellspawn_cmd :=
  {| cmd := SHELLSPAWN_GO; data_length := 0; data := [] |}.

(** The descriptors [setupFDs] chooses for the target. *)
Definition chosen_fds (e : env) : Z * Z * Z :=
  (if isatty e STDIN_FILENO then open_slave_ret e else dup_ret e,
   if isatty e STDIN_FILENO && isatty e STDOUT_FILENO then open_slave_ret e
   else STDOUT_FILENO,
   if isatty e STDIN_FILENO && isatty e STDERR_FILENO then open_slave_ret e
   else STDERR_FILENO).

(** * Properties *)

(** ** C strings *)

Lemma c_str_id (a : list ascii) : NUL ∉ a → c_str a = a.
Proof.
  induction a as [|c a IH]; simpl; [done|].
  intros Hn. apply not_elem_of_cons in Hn as [Hc Ha].
  destruct (decide (c = NUL)); [congruence|]. by rewrite IH.
Qed.

Lemma c_str_no_NUL (p : cstr) : NUL ∉ c_str p.
Proof.
  induction p as [|c p IH]; simpl; [apply not_elem_of_nil|].
  destruct (decide (c = NUL)); [apply not_elem_of_nil|].
  apply not_elem_of_cons. auto.
Qed.

Lemma c_str_idemp (p : cstr) : c_str (c_str p) = c_str p.
Proof. apply c_str_id, c_str_no_NUL. Qed.

(** ** Stores into a block whose front is initialised *)

Lemma store_front (pre : list ascii) (x : option ascii) (tail : heap) (c : ascii) :
  store ((Some <$> pre) ++ x :: tail) (length pre) c
  = Some ((Some <$> (pre ++ [c])) ++ tail).
Proof.
  unfold store. rewrite length_app, length_fmap. simpl.
  destruct (decide _) as [_|Hn]; [|lia].
  f_equal. rewrite fmap_app. simpl. rewrite <- app_assoc. simpl.
  rewrite insert_app_r_alt by (rewrite length_fmap; lia).
  by rewrite length_fmap, Nat.sub_diag.
Qed.

Lemma memcpy_front (cs pre : list ascii) (tail : heap) :
  length cs ≤ length tail →
  memcpy ((Some <$> pre) ++ tail) (length pre) cs
  = Some ((Some <$> (pre ++ cs)) ++ drop (length cs) tail).
Proof.
  revert pre tail. induction cs as [|c cs IH]; intros pre tail Hlen; simpl.
  - by rewrite app_nil_r, drop_0.
  - destruct tail as [|x tail]; simpl in Hlen; [lia|].
    rewrite store_front. simpl.
    replace (S (length pre)) with (length (pre ++ [c])) by (rewrite length_app; simpl; lia).
    rewrite IH by lia. by rewrite <- app_assoc.
Qed.

(** ** escapeQuotes *)

Lemma escape_spec_length (a : list ascii) :
  length (escape_spec a) = length a + 3 * count_quotes a.
Proof.
  unfold count_quotes. induction a as [|c a IH]; simpl; [done|].
  rewrite filter_cons. destruct (decide (c = QUOTE)); simpl; lia.
Qed.

Lemma escapeQuotes_from_null (src : cstr) (len : nat) (b : heap) :
  escapeQuotes_from None src len b
  = Some (len + length (escape_spec (c_str src)), b).
Proof.
  revert len. induction src as [|c src IH]; intros len; simpl.
  - f_equal. f_equal. lia.
  - destruct (decide (c = NUL)); simpl; [f_equal; f_equal; lia|].
    destruct (decide (c = QUOTE)); simpl; rewrite IH; f_equal; f_equal; lia.
Qed.

Lemma escapeQuotes_from_front (src : cstr) (d len : nat) (pre : list ascii) (tail : heap) :
  d + len = length pre →
  length (escape_spec (c_str src)) + 1 ≤ length tail →
  escapeQuotes_from (Some d) src len ((Some <$> pre) ++ tail)
  = Some (len + length (escape_spec (c_str src)),
          (Some <$> (pre ++ escape_spec (c_str src) ++ [NUL]))
          ++ drop (length (escape_spec (c_str src)) + 1) tail).
Proof.
  revert len pre tail. induction src as [|c src IH]; intros len pre tail Hd Hlen;
    cbn [escapeQuotes_from poke c_str escape_spec] in *.
  - rewrite Hd, memcpy_front by (simpl in *; lia). simpl.
    do 2 f_equal. lia.
  - destruct (decide (c = NUL)).
    + rewrite Hd, memcpy_front by (simpl in *; lia). simpl.
      do 2 f_equal. lia.
    + cbn [escape_spec] in *. destruct (decide (c = QUOTE)).
      * rewrite Hd, memcpy_front by (simpl in *; lia). cbn [mbind option_bind].
        rewrite IH; [|rewrite length_app; simpl; lia|rewrite length_drop; simpl in *; lia].
        rewrite drop_drop, <- app_assoc. simpl.
        f_equal; f_equal; simpl; lia.
      * rewrite Hd, memcpy_front by (simpl in *; lia). cbn [mbind option_bind].
        rewrite IH; [|rewrite length_app; simpl; lia|rewrite length_drop; simpl in *; lia].
        rewrite drop_drop, <- app_assoc. simpl.
f_equal; f_equal; simpl; lia.
Qed.

Ltac some_pair := apply (f_equal Some), pair_equal_spec; split.

Lemma front_NUL (pre cs : list ascii) (rest : heap) :
  (Some <$> (pre ++ cs ++ [NUL])) ++ rest
  = (Some <$> (pre ++ cs)) ++ Some NUL :: rest.
Proof. by rewrite !fmap_app, <- !app_assoc. Qed.

Lemma drop_succ_cons {A} (n : nat) (x : A) (l : list A) :
  drop (n + 1) (x :: l) = drop n l.
Proof. by rewrite Nat.add_1_r. Qed.

Ltac len :=
  repeat (cbn [length] in *; rewrite ?length_app, ?length_drop, ?length_fmap in * );
  lia.

Lemma stpcpy_front (s : cstr) (pre : list ascii) (tail : heap) :
  c_str s = s →
  length s + 1 ≤ length tail →
  stpcpy ((Some <$> pre) ++ tail) (length pre) s
  = Some (length (pre ++ s),
          (Some <$> (pre ++ s)) ++ Some NUL :: drop (length s + 1) tail).
Proof.
  intros Hs Hlen. unfold stpcpy, strlen. rewrite Hs.
  rewrite memcpy_front by len.
  cbn [mbind option_bind]. rewrite length_app at 1. simpl length at 3.
  by rewrite front_NUL, length_app.
Qed.

Lemma escapeQuotes_front (src : cstr) (pre : list ascii) (tail : heap) :
  length (escape_spec (c_str src)) + 1 ≤ length tail →
  escapeQuotes (Some (length pre)) src ((Some <$> pre) ++ tail)
  = Some (length (escape_spec (c_str src)),
          (Some <$> (pre ++ escape_spec (c_str src)))
          ++ Some NUL :: drop (length (escape_spec (c_str src)) + 1) tail).
Proof.
  intros Hlen. unfold escapeQuotes.
  rewrite escapeQuotes_from_front by (done || lia). by rewrite front_NUL.
Qed.

(** ** spawnShell: filling the buffer *)

Lemma spawnShell_measure_sum (argv : list cstr) (count total_len : nat) :
  spawnShell_measure argv count total_len []
  = Some (count + length argv,
          total_len + sum_list ((λ a, length (escape_spec (c_str a))) <$> argv)).
Proof.
  revert count total_len. induction argv as [|a argv IH]; intros count total_len.
  - simpl. some_pair; lia.
  - cbn [spawnShell_measure]. unfold escapeQuotes. rewrite escapeQuotes_from_null.
    cbn [mbind option_bind]. rewrite IH, fmap_cons.
    change (sum_list (?x :: ?l)) with (x + sum_list l).
    some_pair; simpl; lia.
Qed.

Lemma spawnShell_fill_step (a : cstr) (argv : list cstr) (pre : list ascii) (tail : heap) :
  let piece := fill_sep pre ++ quote_spec (c_str a) in
  length piece + 1 ≤ length tail →
  spawnShell_fill (a :: argv) (length pre) ((Some <$> pre) ++ tail)
  = spawnShell_fill argv (length (pre ++ piece))
      ((Some <$> (pre ++ piece)) ++ Some NUL :: drop (length piece + 1) tail).
Proof.
  intros piece Hlen. subst piece. unfold fill_sep, quote_spec in *.
  cbn [spawnShell_fill].
  destruct (decide (length pre ≠ 0)) as [Hne|He].
  - rewrite stpcpy_front by (done || len). cbn [mbind option_bind].
    rewrite stpcpy_front by (done || len). cbn [mbind option_bind].
    rewrite escapeQuotes_front by len. cbn [mbind option_bind].
    rewrite <- length_app.
    rewrite stpcpy_front by (done || len). cbn [mbind option_bind].
    f_equal.
    + by rewrite <- !app_assoc.
    + rewrite <- !app_assoc. simpl. f_equal. f_equal.
      rewrite ?drop_succ_cons, ?drop_drop. f_equal. len.
  - cbn [mbind option_bind].
    rewrite stpcpy_front by (done || len). cbn [mbind option_bind].
    rewrite escapeQuotes_front by len. cbn [mbind option_bind].
    rewrite <- length_app.
    rewrite stpcpy_front by (done || len). cbn [mbind option_bind].
    f_equal.
    + by rewrite <- !app_assoc.
    + rewrite <- !app_assoc. simpl. f_equal. f_equal.
      rewrite ?drop_succ_cons, ?drop_drop. f_equal. len.
Qed.

Lemma cmdline_spec_cons (a b : list ascii) (args : list (list ascii)) :
  cmdline_spec (a :: b :: args) = quote_spec a ++ SPACE :: cmdline_spec (b :: args).
Proof. done. Qed.

Lemma quote_spec_length (a : list ascii) :
  length (quote_spec a) = length (escape_spec a) + 2.
Proof. unfold quote_spec. len. Qed.

Lemma cmdline_spec_length (args : list (list ascii)) :
  args ≠ [] →
  length (cmdline_spec args) + 1
  = sum_list ((λ a, length (escape_spec a)) <$> args) + length args * 3.
Proof.
  induction args as [|a [|b args] IH]; intros Hne; [done| |].
  - simpl. rewrite length_app. simpl. lia.
  - rewrite cmdline_spec_cons, length_app, quote_spec_length.
    cbn [length]. rewrite fmap_cons.
    change (sum_list (?x :: ?l)) with (x + sum_list l).
    specialize (IH ltac:(done)). cbn [length] in IH. lia.
Qed.

Lemma spawnShell_fill_front (argv : list cstr) (pre : list ascii) (tail : heap) :
  argv ≠ [] →
  let str := fill_sep pre ++ cmdline_spec (c_str <$> argv) in
  length str + 1 ≤ length tail →
  spawnShell_fill argv (length pre) ((Some <$> pre) ++ tail)
  = Some (length (pre ++ str),
          (Some <$> (pre ++ str)) ++ Some NUL :: drop (length str + 1) tail).
Proof.
  revert pre tail. induction argv as [|a argv IH]; intros pre tail Hne str Hlen; [done|].
  subst str. destruct argv as [|b argv].
  - change (cmdline_spec (c_str <$> [a])) with (quote_spec (c_str a)) in *.
    by rewrite spawnShell_fill_step.
  - rewrite fmap_cons, fmap_cons, cmdline_spec_cons in *. rewrite <- !fmap_cons in *.
    rewrite spawnShell_fill_step by len.
    set (piece := fill_sep pre ++ quote_spec (c_str a)) in *.
    assert (Hsep : fill_sep (pre ++ piece) = [SPACE]).
    { unfold fill_sep, piece, quote_spec. destruct (decide _) as [|Hn]; [done|].
      exfalso. apply Hn. len. }
    assert (Hstr : fill_sep pre ++ quote_spec (c_str a) ++ SPACE :: cmdline_spec (c_str <$> b :: argv)
                   = piece ++ fill_sep (pre ++ piece) ++ cmdline_spec (c_str <$> b :: argv)).
    { rewrite Hsep. unfold piece. by rewrite <- !app_assoc. }
    rewrite Hstr in *. rewrite IH; [|done|].
    + some_pair; [by rewrite <- !app_assoc|].
      rewrite <- !app_assoc.
      match goal with |- _ ++ _ :: ?l = _ ++ _ :: ?r => assert (l = r) as ->; [|done] end.
      rewrite drop_succ_cons, drop_drop. f_equal. len.
    + len.
Qed.

Lemma sum_list_fmap_ext {A} (f g : A → nat) (l : list A) :
  (∀ x, f x = g x) → sum_list (f <$> l) = sum_list (g <$> l).
Proof. intros Hfg. induction l as [|x l IH]; [done|]. rewrite !fmap_cons. simpl. by rewrite Hfg, IH. Qed.

Lemma sum_list_fmap_fmap {A B} (f : B → nat) (h : A → B) (l : list A) :
  sum_list (f <$> (h <$> l)) = sum_list ((λ a, f (h a)) <$> l).
Proof. by rewrite <- list_fmap_compose. Qed.

Lemma spawnShell_buffer_front (argv : list cstr) :
  argv ≠ [] →
  spawnShell_buffer argv = Some (Some <$> (cmdline_spec (c_str <$> argv) ++ [NUL])).
Proof.
  intros Hne. unfold spawnShell_buffer. rewrite spawnShell_measure_sum.
  cbn [mbind option_bind]. unfold malloc.
  assert (Hlen : length (cmdline_spec (c_str <$> argv)) + 1
                 = 0 + sum_list ((λ a, length (escape_spec (c_str a))) <$> argv)
                   + (0 + length argv) * 3).
  { rewrite cmdline_spec_length by (by destruct argv).
    rewrite sum_list_fmap_fmap, length_fmap. lia. }
  rewrite <- Hlen.
  pose proof (spawnShell_fill_front argv [] (replicate (length (cmdline_spec (c_str <$> argv)) + 1) None) Hne) as Hf.
  cbn [fill_sep length] in Hf. unfold fill_sep in Hf. simpl in Hf.
  rewrite Hf by (rewrite length_replicate; lia).
  simpl. rewrite drop_ge by (rewrite length_replicate; lia).
  by rewrite fmap_app.
Qed.

(** C9: the block of [total_len + count*3] bytes is filled exactly: every
    store of [spawnShell] falls inside it ([spawnShell_buffer] is [Some]),
    [total_len] is the sum of the lengths plus three per single quote, and
    for a non-empty vector the block holds, cell for cell, the quoted
    arguments joined by spaces and the terminating nul. For the empty vector
    the block has no cell and nothing is stored. *)
Theorem spawnShell_buffer_exact (argv : list cstr) :
  let count := length argv in
  let total_len := sum_list ((λ a, strlen a + 3 * count_quotes (c_str a)) <$> argv) in
  Forall (λ a, escapeQuotes None a [] = Some (strlen a + 3 * count_quotes (c_str a), [])) argv
  ∧ spawnShell_measure argv 0 0 [] = Some (count, total_len)
  ∧ ∃ buffer, spawnShell_buffer argv = Some buffer
      ∧ length buffer = total_len + count * 3
      ∧ buffer = match argv with
                 | [] => []
                 | _ => Some <$> (cmdline_spec (c_str <$> argv) ++ [NUL])
                 end.
Proof.
  intros count total_len.
  assert (Hsum : sum_list ((λ a, length (escape_spec (c_str a))) <$> argv) = total_len).
  { apply sum_list_fmap_ext. intros a. apply escape_spec_length. }
  split; [|split].
  - apply Forall_forall. intros a _. unfold escapeQuotes.
    rewrite escapeQuotes_from_null. by rewrite escape_spec_length.
  - rewrite spawnShell_measure_sum, Hsum. done.
  - destruct argv as [|a argv].
    + exists []. done.
    + eexists. split; [by apply spawnShell_buffer_front|]. split; [|done].
      rewrite length_fmap, length_app. simpl length at 2.
      rewrite cmdline_spec_length by done.
      rewrite sum_list_fmap_fmap, length_fmap, Hsum. done.
Qed.

(** ** Splitting the quoted command line *)

Lemma sh_split_escape (a cur rest : list ascii) :
  sh_split_from InSingle (Some cur) (escape_spec a ++ QUOTE :: rest)
  = sh_split_from Plain (Some (cur ++ a)) rest.
Proof.
  revert cur. induction a as [|c a IH]; intros cur.
  - simpl. by rewrite app_nil_r.
  - cbn [escape_spec]. destruct (decide (c = QUOTE)) as [->|Hc].
    + replace (cur ++ QUOTE :: a) with (((cur ++ [QUOTE]) ++ []) ++ a)
        by (by rewrite app_nil_r, <- app_assoc).
      rewrite <- IH. done.
    + replace (cur ++ c :: a) with ((cur ++ [c]) ++ a) by (by rewrite <- app_assoc).
      rewrite <- IH. simpl. by destruct (decide (c = QUOTE)).
Qed.

Lemma sh_split_quote (a rest : list ascii) (cur : option (list ascii)) :
  sh_split_from Plain cur (quote_spec a ++ rest)
  = sh_split_from Plain (Some (default [] cur ++ a)) rest.
Proof.
  unfold quote_spec. rewrite <- app_comm_cons, <- app_assoc. simpl.
  unfold sh_add. rewrite app_nil_r. apply sh_split_escape.
Qed.

Lemma sh_split_cmdline_spec (args : list (list ascii)) :
  sh_split (cmdline_spec args) = Some args.
Proof.
  unfold sh_split. induction args as [|a [|b args] IH]; [done| |].
  - simpl cmdline_spec. rewrite <- (app_nil_r (quote_spec a)), sh_split_quote. done.
  - rewrite cmdline_spec_cons, sh_split_quote. simpl default.
    cbn [sh_split_from]. simpl sh_blank. cbn iota. rewrite IH. done.
Qed.

Lemma escape_spec_no_NUL (a : list ascii) : NUL ∉ a → NUL ∉ escape_spec a.
Proof.
  induction a as [|c a IH]; [done|]. intros [Hc Ha]%not_elem_of_cons.
  simpl. destruct (decide (c = QUOTE)); rewrite ?not_elem_of_cons; auto 10.
Qed.

Lemma cmdline_spec_no_NUL (args : list (list ascii)) :
  Forall (λ a, NUL ∉ a) args → NUL ∉ cmdline_spec args.
Proof.
  assert (Hq : ∀ a, NUL ∉ a → NUL ∉ quote_spec a).
  { intros a Ha. unfold quote_spec. rewrite not_elem_of_cons, not_elem_of_app, not_elem_of_cons.
    pose proof (escape_spec_no_NUL a Ha). pose proof (not_elem_of_nil NUL). auto 10. }
  induction args as [|a [|b args] IH]; intros Hall.
  - apply not_elem_of_nil.
  - apply Forall_cons in Hall as [Ha _]. simpl. by apply Hq.
  - apply Forall_cons in Hall as [Ha Hall]. rewrite cmdline_spec_cons.
    rewrite not_elem_of_app, not_elem_of_cons. auto.
Qed.

Lemma heap_string_front (s : list ascii) (rest : heap) :
  NUL ∉ s → heap_string ((Some <$> (s ++ [NUL])) ++ rest) = Some s.
Proof.
  induction s as [|c s IH]; [done|]. intros [Hc Hs]%not_elem_of_cons.
  rewrite <- app_comm_cons, fmap_cons, <- app_comm_cons. cbn [heap_string].
  destruct (decide (c = NUL)); [congruence|]. by rewrite IH.
Qed.

(** C1: the command line [spawnShell] builds for an argument vector (of C
    strings, so without nul bytes; non-empty, as [main] passes it) is the
    quoted form of the specification, and splitting it by the shell's
    quoting rules gives back the vector. *)
Theorem spawnShell_quoting_roundtrip (argv : list cstr) :
  argv ≠ [] →
  Forall (λ a, NUL ∉ a) argv →
  ∃ str, spawnShell_buffer argv ≫= heap_string = Some str
         ∧ str = cmdline_spec argv
         ∧ sh_split str = Some argv.
Proof.
  intros Hne Hall.
  assert (Hid : c_str <$> argv = argv).
  { clear Hne. induction Hall as [|a argv Ha _ IH]; [done|].
    by rewrite fmap_cons, IH, c_str_id. }
  exists (cmdline_spec argv). split; [|split; [done|apply sh_split_cmdline_spec]].
  rewrite spawnShell_buffer_front, Hid by done. cbn [mbind option_bind].
  rewrite <- (app_nil_r (Some <$> _)). by apply heap_string_front, cmdline_spec_no_NUL.
Qed.

Lemma spawnShell_quoting_roundtrip_witness :
  ∃ str, spawnShell_buffer [lit "it's"; lit ""; lit "a b"] ≫= heap_string = Some str
         ∧ str = cmdline_spec [lit "it's"; lit ""; lit "a b"]
         ∧ sh_split str = Some [lit "it's"; lit ""; lit "a b"].
Proof.
  apply spawnShell_quoting_roundtrip; [done|].
  by apply (bool_decide_unpack _).
Defined.

(** ** The signal handler *)

Ltac run :=
  cbv beta iota delta
    [mbind M_bind mret M_ret emit exit get_state put_state pending undefined].

(** The command [signalHandler] ends with, for the signal number it forwards. *)
Lemma signalHandler_forwards (e : env) (signo : Z) (win : winsize) (s : state) :
  ¬ (signo = SIGWINCH ∧ pty_master s ≠ (-1)%Z) →
  ¬ (pty_master s = (-1)%Z ∧ signo = SIGINT) →
  signalHandler e signo win s
  = pushShellspawnCommandData e (_shSockfd s) SHELLSPAWN_SIGNAL (Some (int_bytes signo)) 4 s.
Proof.
  intros H1 H2. unfold signalHandler. run.
  by repeat case_decide.
Qed.

(** C5 (as the code has it): on SIGWINCH with a pty in use the handler
    reads the window size of the terminal, sets it on the pty master, and
    then forwards SIGWINCH to shellspawn like any other signal: a Signal
    command with the number 28 is written to the protocol channel (and a
    short write of it ends the process with status 1). *)
Theorem signalHandler_SIGWINCH (e : env) (win : winsize) (s : state) :
  pty_master s ≠ (-1)%Z →
  let resized := log (sys_set_winsz (pty_master s) win) (log (sys_get_winsz 0) s) in
  let c := {| cmd := SHELLSPAWN_SIGNAL; data_length := 4; data := int_bytes SIGWINCH |} in
  signalHandler e SIGWINCH win s
  = if write_whole e (length (trace resized))
    then Ret tt (log (sys_write_cmd (_shSockfd s) c) resized)
    else Exit EXIT_FAILURE (log (sys_write_cmd_short (_shSockfd s) c) resized).
Proof.
  intros Hpty resized c. unfold signalHandler. run.
  case_decide as H1; [|by destruct H1]. run.
  case_decide as H2; [by destruct H2|].
  unfold pushShellspawnCommandData. run. fold resized.
  by destruct (write_whole e _).
Qed.

(** C5 as stated fails: with a pty in use (master 5, socket 3) the handler
    does write the Signal command for SIGWINCH to the protocol channel. *)
Lemma signalHandler_SIGWINCH_forwarded :
  sys_write_cmd 3 {| cmd := SHELLSPAWN_SIGNAL; data_length := 4; data := int_bytes SIGWINCH |}
  ∈ trace (final_state
             (signalHandler (example_env []) SIGWINCH example_winsize example_pty_state)).
Proof. vm_compute. apply list_elem_of_In. simpl. auto. Qed.

Lemma signalHandler_SIGWINCH_witness :
  signalHandler (example_env []) SIGWINCH example_winsize example_pty_state
  = Ret tt (log_all [sys_get_winsz 0; sys_set_winsz 5 example_winsize;
                     sys_write_cmd 3 {| cmd := SHELLSPAWN_SIGNAL; data_length := 4;
                                        data := int_bytes SIGWINCH |}]
              example_pty_state).
Proof.
  exact (signalHandler_SIGWINCH (example_env []) example_winsize example_pty_state
           ltac:(done)).
Defined.

(** ** The event loop *)

Lemma log_log_all (c : syscall) (s : state) : log c s = log_all [c] s.
Proof. done. Qed.

Lemma log_all_app (cs ds : list syscall) (s : state) :
  log_all ds (log_all cs s) = log_all (cs ++ ds) s.
Proof. unfold log_all. simpl. by rewrite app_assoc. Qed.

Lemma log_all_nil (s : state) : log_all [] s = s.
Proof. destruct s. unfold log_all. simpl. by rewrite app_nil_r. Qed.

Lemma read_ret_4 (r : option (list ascii)) :
  read_ret 4 r = 4%Z ↔ ∃ bs, r = Some bs ∧ 4 ≤ length bs.
Proof.
  unfold read_ret, read_bytes. destruct r as [bs|]; simpl.
  - rewrite length_take. split.
    + intros H. exists bs. split; [done|]. lia.
    + intros (? & [= <-] & H). lia.
  - split; [done|]. by intros (? & ? & _).
Qed.

(** The master branch leaves the handler variables and [revents] alone. *)
Lemma shellLoop_master_vars (master : Z) (reads : list (option (list ascii))) (s : state) :
  let s' := final_state (shellLoop_master master reads s) in
  pfds_revents s' = pfds_revents s ∧ _shSockfd s' = _shSockfd s
  ∧ pty_master s' = pty_master s.
Proof.
  revert s. induction reads as [|r reads IH]; intros s; [done|].
  cbn [shellLoop_master]. run.
  destruct (decide (0 < read_ret sizeof_buf r)%Z); run;
    (destruct (decide (read_ret sizeof_buf r = sizeof_buf)); [|done]);
    match goal with |- context [shellLoop_master _ _ ?t] => apply (IH t) end.
Qed.

(** Full reads of standard input only move data to the master. *)
Lemma shellLoop_stdin_full (master : Z) (full rest : list (option Z * option (list ascii)))
    (s : state) :
  forallb stdin_full full = true →
  shellLoop_stdin master (full ++ rest) s
  = shellLoop_stdin master rest (log_all (concat (stdin_full_trace master <$> full)) s).
Proof.
  revert s. induction full as [|[fion r] full IH]; intros s Hfull.
  - simpl. by rewrite log_all_nil.
  - simpl in Hfull. apply andb_prop in Hfull as [Hx Hfull].
    unfold stdin_full in Hx. simpl in Hx. destruct fion as [n|]; [|done].
    apply bool_decide_eq_true_1 in Hx.
    rewrite <- app_comm_cons. cbn [shellLoop_stdin]. run. rewrite Hx.
    destruct (decide (0 < sizeof_buf)%Z) as [_|Hn]; [|done]. run.
    destruct (decide (sizeof_buf = sizeof_buf)) as [_|Hn]; [|done].
    rewrite IH by done. f_equal.
    rewrite fmap_cons. cbn [concat]. unfold stdin_full_trace at 2. simpl.
    by rewrite !log_log_all, !log_all_app.
Qed.

Lemma shellLoop_stdin_vars (master : Z) (reads : list (option Z * option (list ascii)))
    (s : state) :
  let s' := final_state (shellLoop_stdin master reads s) in
  pfds_revents s' = pfds_revents s ∧ _shSockfd s' = _shSockfd s
  ∧ pty_master s' = pty_master s.
Proof.
  revert s. induction reads as [|[[n|] r] reads IH]; intros s; [done| |done].
  cbn [shellLoop_stdin]. run.
  destruct (decide (0 < read_ret (stdin_count n) r)%Z); run; [|done].
  destruct (decide (read_ret (stdin_count n) r = sizeof_buf)); [|done].
  match goal with |- context [shellLoop_stdin _ _ ?t] => apply (IH t) end.
Qed.

Lemma shellLoop_pty_vars (master : Z) (k : wakeup) (s : state) :
  let s' := final_state (shellLoop_pty master k s) in
  pfds_revents s' = pfds_revents s ∧ _shSockfd s' = _shSockfd s
  ∧ pty_master s' = pty_master s.
Proof.
  unfold shellLoop_pty. run. destruct (pfds_revents s) as [[rev0 rev1] rev2] eqn:Hrev.
  rewrite <- Hrev.
  destruct (decide (Z.land rev2 POLLIN ≠ 0)%Z).
  - pose proof (shellLoop_master_vars master (wk_master k) s) as Hm.
    destruct (shellLoop_master master (wk_master k) s) as [[] s1| | |]; try done.
    simpl in Hm. destruct Hm as (H1 & H2 & H3). rewrite <- H1, <- H2, <- H3.
    destruct (decide (Z.land rev1 POLLIN ≠ 0)%Z); [apply shellLoop_stdin_vars|done].
  - destruct (decide (Z.land rev1 POLLIN ≠ 0)%Z); [apply shellLoop_stdin_vars|done].
Qed.

Lemma shellLoop_body_sock (sockfd master : Z) (fdcount : nat) (k : wakeup)
    (s s1 : state) :
  wk_poll k ≠ PollError →
  Z.land (pfds_revents (shellLoop_poll fdcount k s)).1.1 (Z.lor POLLHUP POLLIN) ≠ 0%Z →
  shellLoop_pty master k (shellLoop_poll fdcount k s) = Ret tt s1 →
  shellLoop_body sockfd master fdcount k s
  = Exit (match wk_sock k with
          | Some bs => if decide (4 ≤ length bs) then int_of_bytes (take 4 bs) else 1%Z
          | None => 1%Z
          end)
         (log (sys_read sockfd) s1).
Proof.
  intros Hpoll Hrev Hpty. unfold shellLoop_body. run.
  destruct (decide (wk_poll k = PollError)) as [|_]; [done|].
  pose proof (shellLoop_pty_vars master k (shellLoop_poll fdcount k s)) as Hvars.
  rewrite Hpty in *. simpl in Hvars. destruct Hvars as (Hv & _).
  rewrite Hv. destruct (decide _) as [_|]; [|done].
  unfold shellLoop_sock. run.
  destruct (decide (read_ret 4 (wk_sock k) = 4%Z)) as [H4|H4].
  - apply read_ret_4 in H4 as (bs & -> & Hlen).
    by destruct (decide (4 ≤ length bs)).
  - destruct (wk_sock k) as [bs|]; [|done].
    destruct (decide (4 ≤ length bs)); [|done].
    exfalso. apply H4, read_ret_4. eauto.
Qed.

(** C7: in an iteration that reaches the check of the protocol channel (the
    two pty branches have returned) with POLLIN or POLLHUP reported for it,
    the proxy reads the exit status and ends the process: with the status
    read when [read] gave four bytes, with 1 on a short read, on end of
    file and on an error. *)
Theorem shellLoop_exit_status (sockfd master : Z) (fdcount : nat) (k : wakeup)
    (s s1 : state) :
  wk_poll k ≠ PollError →
  Z.land (pfds_revents (shellLoop_poll fdcount k s)).1.1 (Z.lor POLLHUP POLLIN) ≠ 0%Z →
  shellLoop_pty master k (shellLoop_poll fdcount k s) = Ret tt s1 →
  shellLoop_body sockfd master fdcount k s
  = Exit (match wk_sock k with
          | Some bs => if decide (4 ≤ length bs) then int_of_bytes (take 4 bs) else 1%Z
          | None => 1%Z
          end)
         (log (sys_read sockfd) s1).
Proof. apply shellLoop_body_sock. Qed.

Lemma shellLoop_exit_status_witness :
  shellLoop_body 3 (-1) 1 (example_wakeup 7) initial_state
  = Exit 7 (log (sys_read 3) (set_revents (POLLIN, 0, 0)%Z initial_state)).
Proof.
  exact (shellLoop_exit_status 3 (-1) 1 (example_wakeup 7) initial_state
           (set_revents (POLLIN, 0, 0)%Z initial_state)
           ltac:(done) ltac:(done) eq_refl).
Defined.

(** C10: when POLLIN is reported for standard input and, after any number
    of reads that filled the buffer, a read returns zero or fails, the
    process ends at once with status 1: the last call made is that read of
    standard input, and the protocol channel is not read. *)
Theorem shellLoop_stdin_eof (sockfd master : Z) (fdcount : nat) (k : wakeup)
    (s s1 : state) (full rest : list (option Z * option (list ascii)))
    (n : Z) (r : option (list ascii)) :
  wk_poll k ≠ PollError →
  let s0 := shellLoop_poll fdcount k s in
  Z.land (pfds_revents s0).1.2 POLLIN ≠ 0%Z →
  (if decide (Z.land (pfds_revents s0).2 POLLIN ≠ 0)%Z
   then shellLoop_master master (wk_master k) else mret tt) s0 = Ret tt s1 →
  wk_stdin k = full ++ (Some n, r) :: rest →
  forallb stdin_full full = true →
  (read_ret (stdin_count n) r ≤ 0)%Z →
  sockfd ≠ STDIN_FILENO →
  let reads := concat (stdin_full_trace master <$> full) ++ [sys_read STDIN_FILENO] in
  shellLoop_body sockfd master fdcount k s = Exit 1 (log_all reads s1)
  ∧ sys_read sockfd ∉ reads.
Proof.
  intros Hpoll s0 Hrev1 Hmaster Hstdin Hfull Hrd Hfd reads. split.
  - unfold shellLoop_body. run.
    destruct (decide (wk_poll k = PollError)) as [|_]; [done|].
    unfold shellLoop_pty. run. fold s0.
    pose proof (shellLoop_master_vars master (wk_master k) s0) as Hvars.
    destruct (pfds_revents s0) as [[rev0 rev1] rev2] eqn:Hs0. simpl in Hrev1, Hmaster.
    unfold mret, M_ret in Hmaster. rewrite Hmaster. destruct (decide (Z.land rev1 POLLIN ≠ 0)%Z) as [_|]; [|done].
    rewrite Hstdin, shellLoop_stdin_full by done.
    cbn [shellLoop_stdin]. run.
    destruct (decide (0 < read_ret (stdin_count n) r)%Z) as [|_]; [lia|].
    subst reads. by rewrite log_log_all, log_all_app.
  - subst reads. rewrite not_elem_of_app. split.
    + clear -Hfd. induction full as [|[fion x] full IH]; [apply not_elem_of_nil|].
      rewrite fmap_cons. cbn [concat]. rewrite not_elem_of_app. split; [|done].
      unfold stdin_full_trace. simpl. destruct fion; [|apply not_elem_of_nil].
      intros Hin. apply elem_of_cons in Hin as [[= ?]|Hin]; [done|].
      apply elem_of_cons in Hin as [?|Hin]; [done|by apply elem_of_nil in Hin].
    + intros [[= ?]|Hin]%elem_of_cons; [done|by apply elem_of_nil in Hin].
Qed.

Lemma shellLoop_stdin_eof_witness :
  shellLoop_body 3 5 3
    {| wk_poll := PollReady; wk_revents := Some (0, POLLIN, 0)%Z;
       wk_master := []; wk_stdin := [(Some 0%Z, Some [])]; wk_sock := None |}
    example_pty_state
  = Exit 1 (log_all [sys_read STDIN_FILENO]
              (set_revents (0, POLLIN, 0)%Z example_pty_state))
  ∧ sys_read 3 ∉ [sys_read STDIN_FILENO].
Proof.
  exact (shellLoop_stdin_eof 3 5 3
           {| wk_poll := PollReady; wk_revents := Some (0, POLLIN, 0)%Z;
              wk_master := []; wk_stdin := [(Some 0%Z, Some [])]; wk_sock := None |}
           example_pty_state (set_revents (0, POLLIN, 0)%Z example_pty_state)
           [] [] 0%Z (Some [])
           ltac:(done) ltac:(done) eq_refl eq_refl eq_refl ltac:(done) ltac:(done)).
Defined.

(** ** The socket address *)

Lemma store_malloc_0 (n : nat) (c : ascii) :
  store (malloc (S n)) 0 c = Some (Some c :: replicate n None).
Proof. done. Qed.

Lemma memcpy_0 (cs : list ascii) (tail : heap) :
  length cs ≤ length tail →
  memcpy tail 0 cs = Some ((Some <$> cs) ++ drop (length cs) tail).
Proof. intros Hlen. exact (memcpy_front cs [] tail Hlen). Qed.

Lemma strcpy_strcat (a b : cstr) (blk : heap) :
  length (c_str a) + length (c_str b) + 1 ≤ length blk →
  strcpy blk a ≫= (λ p, strcat p b)
  = Some ((Some <$> ((c_str a ++ c_str b) ++ [NUL]))
          ++ drop (length (c_str a ++ c_str b) + 1) blk).
Proof.
  intros Hlen. unfold strcpy, strcat.
  rewrite memcpy_0 by len. cbn [mbind option_bind].
  rewrite heap_string_front by apply c_str_no_NUL.
  cbn [fmap option_fmap option_map mbind option_bind].
  rewrite fmap_app, <- app_assoc.
  change ((Some <$> [NUL]) ++ ?x) with (Some NUL :: x).
  rewrite memcpy_front by len.
  f_equal. rewrite <- (app_assoc _ _ [NUL]). f_equal.
  rewrite !length_app. simpl (length [NUL]).
  rewrite drop_succ_cons, drop_drop. f_equal. lia.
Qed.

Lemma connectToShellspawn_sun_path_eq (g : globals) :
  let path := c_str (prefix g) ++ c_str (SHELLSPAWN_SOCKPATH g) in
  length path < sizeof_sun_path →
  connectToShellspawn_sun_path g
  = Some ((Some <$> (path ++ [NUL])) ++ replicate (sizeof_sun_path - (length path + 1)) None).
Proof.
  intros path Hlen. subst path.
  unfold connectToShellspawn_sun_path, sizeof_sun_path in *.
  rewrite store_malloc_0. cbn [mbind option_bind].
  remember (replicate 107 None) as tl eqn:Htl.
  assert (Hl : length tl = 107) by (by rewrite Htl, length_replicate).
  rewrite length_app in Hlen.
  rewrite strcpy_strcat by (simpl; lia).
  rewrite drop_succ_cons, Htl, drop_replicate. do 3 f_equal. lia.
Qed.

(** C4 (as the code has it): [sun_path] holds the prefix, the socket path
    and one terminating nul, from its first byte on: the nul stored into
    [sun_path[0]] is overwritten by [strcpy], so the address names a socket
    file and its first byte is the first byte of the path. That block is
    what [connect] is called with. *)
Theorem connectToShellspawn_address (g : globals) (e : env) (s : state) :
  let path := c_str (prefix g) ++ c_str (SHELLSPAWN_SOCKPATH g) in
  length path < sizeof_sun_path →
  socket_ret e ≠ (-1)%Z →
  ∃ sun_path,
    connectToShellspawn_sun_path g = Some sun_path
    ∧ heap_string sun_path = Some path
    ∧ sun_path !! 0 = Some (Some (default NUL (head path)))
    ∧ trace (final_state (connectToShellspawn g e s))
      = trace s ++ [sys_connect (socket_ret e) sun_path].
Proof.
  intros path Hlen Hsock. eexists. split; [by apply connectToShellspawn_sun_path_eq|].
  fold path. split; [|split].
  - apply heap_string_front. subst path. rewrite not_elem_of_app.
    split; apply c_str_no_NUL.
  - by destruct path.
  - unfold connectToShellspawn. rewrite connectToShellspawn_sun_path_eq by done.
    fold path. run. destruct (decide (socket_ret e = (-1)%Z)); [done|].
    by destruct (decide (connect_ret e = (-1)%Z)).
Qed.

Lemma connectToShellspawn_address_witness :
  ∃ sun_path,
    connectToShellspawn_sun_path example_globals = Some sun_path
    ∧ heap_string sun_path = Some (lit "/home/user/.darling/var/run/shellspawn.sock")
    ∧ sun_path !! 0 = Some (Some "/"%char)
    ∧ trace (final_state (connectToShellspawn example_globals (example_env []) initial_state))
      = [] ++ [sys_connect 3 sun_path].
Proof.
  exact (connectToShellspawn_address example_globals (example_env []) initial_state
           ltac:(vm_compute; lia) ltac:(done)).
Defined.

(** C4 as stated fails: for the prefix [/home/user/.darling] the first byte
    of [sun_path] is the slash of the prefix, not a nul byte. *)
Lemma connectToShellspawn_sun_path_not_abstract :
  ∃ sun_path,
    connectToShellspawn_sun_path example_globals = Some sun_path
    ∧ sun_path !! 0 = Some (Some "/"%char)
    ∧ sun_path !! 0 ≠ Some (Some NUL).
Proof. eexists. split; [vm_compute; reflexivity|]. split; [reflexivity|discriminate]. Qed.

(** ** What a run appends to the trace *)

Lemma emits_ret {A} (P : syscall → Prop) (a : A) : emits P (mret a).
Proof. intros s. exists []. by rewrite app_nil_r. Qed.

Lemma emits_exit {A} (P : syscall → Prop) (n : Z) : emits P (exit (A:=A) n).
Proof. intros s. exists []. by rewrite app_nil_r. Qed.

Lemma emits_pending {A} (P : syscall → Prop) : emits P (pending (A:=A)).
Proof. intros s. exists []. by rewrite app_nil_r. Qed.

Lemma emits_undefined {A} (P : syscall → Prop) : emits P (undefined (A:=A)).
Proof. intros s. exists []. by rewrite app_nil_r. Qed.

Lemma emits_get_state (P : syscall → Prop) : emits P get_state.
Proof. intros s. exists []. by rewrite app_nil_r. Qed.

Lemma emits_put_state (P : syscall → Prop) (f : state → state) :
  (∀ s, trace (f s) = trace s) → emits P (put_state f).
Proof. intros Hf s. exists []. simpl. by rewrite Hf, app_nil_r. Qed.

Lemma emits_emit (P : syscall → Prop) (c : syscall) : P c → emits P (emit c).
Proof. intros Hc s. exists [c]. split; [done|]. by constructor. Qed.

Lemma emits_bind {A B} (P : syscall → Prop) (m : M A) (f : A → M B) :
  emits P m → (∀ a, emits P (f a)) → emits P (m ≫= f).
Proof.
  intros Hm Hf s. destruct (Hm s) as (r1 & Ht1 & Hr1).
  unfold mbind, M_bind. destruct (m s) as [a s1|n s1|s1|s1]; simpl in *; eauto.
  destruct (Hf a s1) as (r2 & Ht2 & Hr2).
  exists (r1 ++ r2). rewrite Ht2, Ht1, app_assoc. split; [done|]. by apply Forall_app.
Qed.

Lemma emits_mono {A} (P Q : syscall → Prop) (m : M A) :
  (∀ c, P c → Q c) → emits P m → emits Q m.
Proof.
  intros HPQ Hm s. destruct (Hm s) as (r & Ht & Hr). exists r. split; [done|].
  eapply Forall_impl; eauto.
Qed.

Create HintDb emits discriminated.

Ltac emits_step :=
  first
    [ solve [auto with emits]
    | apply emits_ret | apply emits_exit | apply emits_pending
    | apply emits_undefined | apply emits_get_state
    | apply emits_emit; done
    | apply emits_put_state; done
    | apply emits_bind; [|intros] ].

Ltac emits_auto :=
  repeat first
    [ emits_step
    | match goal with
      | |- emits _ (if ?b then _ else _) => destruct b
      | |- emits _ (match ?x with _ => _ end) => destruct x
      | |- emits _ (let '(_, _) := ?x in _) => destruct x
      end ].

Lemma emits_first {A B} (P : syscall → Prop) (c : syscall) (m1 : M A) (m2 : M B) :
  emits P m1 → emits P m2 →
  ∀ s, ∃ r, trace (final_state (((emit c;; m1);; m2) s)) = trace s ++ c :: r.
Proof.
  intros H1 H2 s.
  destruct (emits_bind P m1 (λ _, m2) H1 (λ _, H2) (log c s)) as (r & Ht & _).
  exists r. change (((emit c;; m1);; m2) s) with ((m1;; m2) (log c s)).
  rewrite Ht. simpl. by rewrite <- app_assoc.
Qed.

Section GoWellformed.
Variable g : globals.
Variable e : env.

Lemma pushShellspawnCommandData_Go (sockfd : Z) (type : shellspawn_cmd_type_t)
    (data : option (list ascii)) (n : nat) :
  type ≠ SHELLSPAWN_GO →
  emits Go_wellformed (pushShellspawnCommandData e sockfd type data n).
Proof. intros Htype. unfold pushShellspawnCommandData. emits_auto. Qed.
#[local] Hint Resolve pushShellspawnCommandData_Go : emits.

Lemma pushShellspawnCommand_Go (sockfd : Z) (type : shellspawn_cmd_type_t)
    (value : option cstr) :
  type ≠ SHELLSPAWN_GO →
  emits Go_wellformed (pushShellspawnCommand e sockfd type value).
Proof.
  intros Htype. unfold pushShellspawnCommand.
  destruct value; by apply pushShellspawnCommandData_Go.
Qed.
#[local] Hint Resolve pushShellspawnCommand_Go : emits.

Lemma pushShellspawnCommandFDs_Go (sockfd : Z) (fds : Z * Z * Z) :
  emits Go_wellformed (pushShellspawnCommandFDs e sockfd SHELLSPAWN_GO fds).
Proof. unfold pushShellspawnCommandFDs. destruct fds as [[fd0 fd1] fd2]. emits_auto. Qed.
#[local] Hint Resolve pushShellspawnCommandFDs_Go : emits.

Lemma signalHandler_Go (signo : Z) (win : winsize) :
  emits Go_wellformed (signalHandler e signo win).
Proof. unfold signalHandler. emits_auto. Qed.
#[local] Hint Resolve signalHandler_Go : emits.

Lemma shellLoop_master_Go (master : Z) (reads : list (option (list ascii))) :
  emits Go_wellformed (shellLoop_master master reads).
Proof. induction reads as [|r reads IH]; cbn [shellLoop_master]; emits_auto. Qed.
#[local] Hint Resolve shellLoop_master_Go : emits.

Lemma shellLoop_stdin_Go (master : Z) (reads : list (option Z * option (list ascii))) :
  emits Go_wellformed (shellLoop_stdin master reads).
Proof.
  induction reads as [|[fion r] reads IH]; cbn [shellLoop_stdin]; emits_auto.
Qed.
#[local] Hint Resolve shellLoop_stdin_Go : emits.

Lemma shellLoop_body_Go (sockfd master : Z) (fdcount : nat) (k : wakeup) :
  emits Go_wellformed (shellLoop_body sockfd master fdcount k).
Proof.
  unfold shellLoop_body, shellLoop_pty, shellLoop_sock, shellLoop_poll.
  emits_auto. apply emits_put_state. intros s. by destruct (wk_revents k).
Qed.
#[local] Hint Resolve shellLoop_body_Go : emits.

Lemma shellLoop_run_Go (sockfd master : Z) (fdcount : nat) (evs : list event) :
  emits Go_wellformed (shellLoop_run e sockfd master fdcount evs).
Proof.
  induction evs as [|[signo win|k] evs IH]; cbn [shellLoop_run]; emits_auto.
Qed.
#[local] Hint Resolve shellLoop_run_Go : emits.

Lemma shellLoop_Go (sockfd master : Z) :
  emits Go_wellformed (shellLoop e sockfd master).
Proof. unfold shellLoop. emits_auto. Qed.
#[local] Hint Resolve shellLoop_Go : emits.

Lemma spawnGo_Go (sockfd : Z) (fds : Z * Z * Z) (master : Z) :
  emits Go_wellformed (spawnGo e sockfd fds master).
Proof. unfold spawnGo. emits_auto. Qed.
#[local] Hint Resolve spawnGo_Go : emits.

Lemma connectToShellspawn_Go : emits Go_wellformed (connectToShellspawn g e).
Proof. unfold connectToShellspawn. emits_auto. Qed.
#[local] Hint Resolve connectToShellspawn_Go : emits.

Lemma setupShellspawnEnv_Go (sockfd : Z) :
  emits Go_wellformed (setupShellspawnEnv e sockfd).
Proof. unfold setupShellspawnEnv. emits_auto. Qed.
#[local] Hint Resolve setupShellspawnEnv_Go : emits.

Lemma setupWorkingDir_Go (sockfd : Z) : emits Go_wellformed (setupWorkingDir g e sockfd).
Proof. by apply pushShellspawnCommand_Go. Qed.
#[local] Hint Resolve setupWorkingDir_Go : emits.

Lemma setupIDs_Go (sockfd : Z) : emits Go_wellformed (setupIDs g e sockfd).
Proof. by apply pushShellspawnCommandData_Go. Qed.
#[local] Hint Resolve setupIDs_Go : emits.

Lemma setupFDs_Go : emits Go_wellformed (setupFDs e).
Proof. unfold setupFDs, setupPtys, openpty_darling. emits_auto. Qed.
#[local] Hint Resolve setupFDs_Go : emits.

Lemma spawnBinary_args_Go (sockfd : Z) (argv : list cstr) :
  emits Go_wellformed (spawnBinary_args e sockfd argv).
Proof.
  induction argv as [|a argv IH]; cbn [spawnBinary_args]; emits_auto.
Qed.
#[local] Hint Resolve spawnBinary_args_Go : emits.

Lemma spawnShell_Go (argv : option (list cstr)) :
  emits Go_wellformed (spawnShell g e argv).
Proof. unfold spawnShell. emits_auto. Qed.

Lemma spawnBinary_Go (binary : cstr) (argv : list cstr) :
  emits Go_wellformed (spawnBinary g e binary argv).
Proof. unfold spawnBinary. emits_auto. Qed.

End GoWellformed.

(** ** A whole spawn request *)

Section Request.
Variable g : globals.
Variable e : env.
Hypothesis write_ok : ∀ n, write_whole e n = true.

Lemma pushShellspawnCommandData_ok (sockfd : Z) (type : shellspawn_cmd_type_t)
    (payload : list ascii) (s : state) :
  pushShellspawnCommandData e sockfd type (Some payload) (length payload) s
  = Ret tt (log (sys_write_cmd sockfd
                   {| cmd := type; data_length := length payload; data := payload |}) s).
Proof.
  unfold pushShellspawnCommandData. run. rewrite write_ok. simpl.
  by rewrite firstn_all.
Qed.

Lemma pushShellspawnCommand_ok (sockfd : Z) (type : shellspawn_cmd_type_t)
    (v : list ascii) (s : state) :
  NUL ∉ v →
  pushShellspawnCommand e sockfd type (Some v) s
  = Ret tt (log (sys_write_cmd sockfd (string_cmd type v)) s).
Proof.
  intros Hv. unfold pushShellspawnCommand, strlen. rewrite c_str_id by done.
  replace (length v + 1) with (length (v ++ [NUL])) by len.
  rewrite pushShellspawnCommandData_ok. unfold string_cmd. do 4 f_equal. len.
Qed.

Lemma take_no_NUL (n : nat) (v : list ascii) : NUL ∉ v → NUL ∉ take n v.
Proof.
  intros Hv Hin. apply Hv. rewrite <- (take_drop n v). apply elem_of_app. by left.
Qed.

Lemma lit_app_no_NUL (s : string) (p : cstr) :
  NUL ∉ lit s → NUL ∉ lit s ++ c_str p.
Proof. intros Hs. rewrite not_elem_of_app. split; [done|apply c_str_no_NUL]. Qed.

Lemma setupFDs_returns (s : state) :
  setupFDs_succeeds e →
  ∃ fd0 fd1 fd2 master r,
    setupFDs e s = Ret (fd0, fd1, fd2, master) (log_all r s) ∧ wire r = [].
Proof.
  intros Hok. unfold setupFDs, setupFDs_succeeds in *.
  destruct (isatty e STDIN_FILENO).
  - destruct Hok as (H1 & H2 & H3 & H4); [done|].
    unfold setupPtys, openpty_darling. run.
    destruct (decide (posix_openpt_ret e = (-1)%Z)); [done|].
    destruct (decide (unlockpt_ret e < 0)%Z); [done|].
    destruct (decide (open_slave_ret e = (-1)%Z)); [done|]. run.
    destruct (bool_decide (tcgetattr_ret e < 0)%Z) eqn:Htty; simpl.
    + do 4 eexists. exists [sys_set_termios (posix_openpt_ret e)].
      split; reflexivity.
    + apply bool_decide_eq_false_1 in Htty. specialize (H4 Htty).
      destruct (decide (tcsetattr_ret e < 0)%Z); [done|].
      do 4 eexists.
      exists [sys_set_termios (posix_openpt_ret e); sys_get_winsz 0;
              sys_set_termios STDIN_FILENO;
              sys_set_winsz (posix_openpt_ret e) (tty_winsize e);
              sys_atexit_restoreTermios].
      rewrite !log_log_all, !log_all_app. split; reflexivity.
  - run. do 4 eexists. exists []. rewrite log_all_nil. split; reflexivity.
Qed.

Lemma wire_log (c : syscall) (s : state) :
  wire (trace (log c s)) = wire (trace s) ++ wire [c].
Proof. unfold wire. simpl. by rewrite omap_app. Qed.

Lemma wire_log_all (r : list syscall) (s : state) :
  wire (trace (log_all r s)) = wire (trace s) ++ wire r.
Proof. unfold wire. simpl. by rewrite omap_app. Qed.

Lemma connectToShellspawn_ok (s : state) :
  length (c_str (prefix g) ++ c_str (SHELLSPAWN_SOCKPATH g)) < sizeof_sun_path →
  socket_ret e ≠ (-1)%Z → connect_ret e ≠ (-1)%Z →
  ∃ sun_path,
    connectToShellspawn g e s = Ret (socket_ret e) (log (sys_connect (socket_ret e) sun_path) s).
Proof.
  intros Hlen Hs Hc. eexists. unfold connectToShellspawn.
  rewrite connectToShellspawn_sun_path_eq by done. run.
  destruct (decide (socket_ret e = (-1)%Z)); [done|].
  destruct (decide (connect_ret e = (-1)%Z)); [done|]. reflexivity.
Qed.

(** The loop when the first wake-up reports the protocol channel and
    nothing else. *)
Lemma shellLoop_first_wakeup (sockfd master : Z) (s : state) (k : wakeup)
    (evs : list event) (rev0 rev1 rev2 : Z) :
  script e = ev_wakeup k :: evs →
  wk_poll k ≠ PollError →
  wk_revents k = Some (rev0, rev1, rev2) →
  Z.land rev0 (Z.lor POLLHUP POLLIN) ≠ 0%Z →
  Z.land rev1 POLLIN = 0%Z → Z.land rev2 POLLIN = 0%Z →
  ∃ s', shellLoop e sockfd master s
        = Exit (match wk_sock k with
                | Some bs => if decide (4 ≤ length bs) then int_of_bytes (take 4 bs) else 1%Z
                | None => 1%Z
                end) s'
        ∧ wire (trace s') = wire (trace s).
Proof.
  intros Hscript Hpoll Hrev H0 H1 H2. unfold shellLoop. run. rewrite Hscript.
  cbn [shellLoop_run]. run.
  set (fdcount := if decide (master ≠ (-1)%Z) then 3 else 1).
  set (s0 := set_revents (0, 0, 0)%Z (set_handler_vars sockfd master s)).
  assert (Hs0 : ∃ r1 r2, pfds_revents (shellLoop_poll fdcount k s0) = (rev0, r1, r2)
                         ∧ Z.land r1 POLLIN = 0%Z ∧ Z.land r2 POLLIN = 0%Z).
  { unfold shellLoop_poll. rewrite Hrev. subst fdcount. simpl.
    destruct (decide (master ≠ (-1)%Z)); simpl; eauto. }
  destruct Hs0 as (r1 & r2 & Hs0 & Hr1 & Hr2).
  rewrite (shellLoop_body_sock sockfd master fdcount k s0 (shellLoop_poll fdcount k s0)).
  - eexists. split; [reflexivity|]. rewrite wire_log, app_nil_r.
    unfold shellLoop_poll. by rewrite Hrev.
  - done.
  - by rewrite Hs0.
  - unfold shellLoop_pty. run. rewrite Hs0, Hr1, Hr2. done.
Qed.

(** C3 (as the code has it): for [<argv0> exec /bin/true], with a broker
    that is reachable and reports status 0 at the first wake-up, the client
    sends SetEnv three times, SetExec with the sandbox-rooted path, AddArg
    with the same path (the target's [argv[0]]), Chdir, SetIdentity and Go
    with three descriptors, nothing else, and the process exits with 0. *)
Theorem exec_bin_true_commands (argv0 path login : cstr) (k : wakeup)
    (evs : list event) (rev0 rev1 rev2 : Z) :
  length (c_str (prefix g) ++ c_str (SHELLSPAWN_SOCKPATH g)) < sizeof_sun_path →
  realpath e (lit "/bin/true") = Some path →
  login_name e = Some login →
  socket_ret e ≠ (-1)%Z → connect_ret e ≠ (-1)%Z → ¬ (sendmsg_ret e < 0)%Z →
  setupFDs_succeeds e →
  script e = ev_wakeup k :: evs →
  wk_poll k ≠ PollError →
  wk_revents k = Some (rev0, rev1, rev2) →
  Z.land rev0 (Z.lor POLLHUP POLLIN) ≠ 0%Z →
  Z.land rev1 POLLIN = 0%Z → Z.land rev2 POLLIN = 0%Z →
  wk_sock k = Some (int_bytes 0) →
  let full := c_str (SYSTEM_ROOT g) ++ c_str path in
  ∃ s' fds,
    main_spawn g e [argv0; lit "exec"; lit "/bin/true"] initial_state = Exit 0 s'
    ∧ length fds = 3
    ∧ wire (trace s')
      = [ (string_cmd SHELLSPAWN_SETENV
             (lit "PATH=/usr/bin:/bin:/usr/sbin:/sbin:/usr/local/bin"), []);
          (string_cmd SHELLSPAWN_SETENV (lit "TMPDIR=/private/tmp"), []);
          (string_cmd SHELLSPAWN_SETENV
             (snprintf_4096 (lit "HOME=/Users/" ++ c_str login)), []);
          (string_cmd SHELLSPAWN_SETEXEC full, []);
          (string_cmd SHELLSPAWN_ADDARG full, []);
          (string_cmd SHELLSPAWN_CHDIR
             (snprintf_4096 (c_str (SYSTEM_ROOT g) ++ c_str (g_workingDirectory g))), []);
          ({| cmd := SHELLSPAWN_SETUIDGID; data_length := 8;
              data := int_bytes (g_originalUid g) ++ int_bytes (g_originalGid g) |}, []);
          ({| cmd := SHELLSPAWN_GO; data_length := 0; data := [] |}, fds) ].
Proof.
  intros Hlen Hreal Hlogin Hsock Hconn Hsend Hfds Hscript Hpoll Hrev H0 H1 H2 Hstatus full.
  assert (Hfull : NUL ∉ full).
  { subst full. rewrite not_elem_of_app. split; apply c_str_no_NUL. }
  unfold main_spawn.
  change (streq (lit "exec") (lit "shell")) with false.
  change (streq (lit "exec") (lit "exec")) with true.
  cbn [andb length]. rewrite bool_decide_eq_false_2 by lia.
  cbn [lookup list_lookup default from_option id]. rewrite Hreal. fold full.
  cbn [insert list_insert drop].
  unfold spawnBinary. run.
  destruct (connectToShellspawn_ok initial_state Hlen Hsock Hconn) as (sun_path & ->).
  unfold setupShellspawnEnv. run.
  rewrite pushShellspawnCommand_ok by (by apply (bool_decide_unpack _)).
  rewrite pushShellspawnCommand_ok by (by apply (bool_decide_unpack _)).
  rewrite Hlogin.
  rewrite pushShellspawnCommand_ok
    by (apply take_no_NUL, lit_app_no_NUL; by apply (bool_decide_unpack _)).
  rewrite pushShellspawnCommand_ok by done.
  cbn [spawnBinary_args]. run.
  rewrite pushShellspawnCommand_ok by done.
  unfold setupWorkingDir.
  rewrite pushShellspawnCommand_ok
    by (apply take_no_NUL; rewrite not_elem_of_app; split; apply c_str_no_NUL).
  unfold setupIDs.
  change 8 with (length (int_bytes (g_originalUid g) ++ int_bytes (g_originalGid g))).
  rewrite pushShellspawnCommandData_ok.
  match goal with |- context [setupFDs e ?t] =>
    destruct (setupFDs_returns t Hfds) as (fd0 & fd1 & fd2 & master & r & -> & Hr)
  end.
  unfold spawnGo, pushShellspawnCommandFDs. run.
  destruct (decide (sendmsg_ret e < 0)%Z); [done|].
  match goal with |- context [shellLoop e ?fd ?m ?t] =>
    destruct (shellLoop_first_wakeup fd m t k evs rev0 rev1 rev2
                Hscript Hpoll Hrev H0 H1 H2) as (s' & -> & Hwire)
  end.
  rewrite Hstatus. exists s', [fd0; fd1; fd2].
  split; [done|]. split; [done|].
  rewrite Hwire, !wire_log, wire_log_all, !wire_log, Hr. reflexivity.
Qed.

End Request.

Lemma exec_bin_true_commands_witness :
  ∃ s' fds,
    main_spawn example_globals (example_env [ev_wakeup (example_wakeup 0)])
      [lit "darling"; lit "exec"; lit "/bin/true"] initial_state = Exit 0 s'
    ∧ length fds = 3
    ∧ wire (trace s')
      = [ (string_cmd SHELLSPAWN_SETENV
             (lit "PATH=/usr/bin:/bin:/usr/sbin:/sbin:/usr/local/bin"), []);
          (string_cmd SHELLSPAWN_SETENV (lit "TMPDIR=/private/tmp"), []);
          (string_cmd SHELLSPAWN_SETENV (lit "HOME=/Users/user"), []);
          (string_cmd SHELLSPAWN_SETEXEC (lit "/Volumes/SystemRoot/bin/true"), []);
          (string_cmd SHELLSPAWN_ADDARG (lit "/Volumes/SystemRoot/bin/true"), []);
          (string_cmd SHELLSPAWN_CHDIR (lit "/Volumes/SystemRoot/home/user"), []);
          ({| cmd := SHELLSPAWN_SETUIDGID; data_length := 8;
              data := int_bytes 1000 ++ int_bytes 1000 |}, []);
          ({| cmd := SHELLSPAWN_GO; data_length := 0; data := [] |}, fds) ].
Proof.
  exact (exec_bin_true_commands example_globals
           (example_env [ev_wakeup (example_wakeup 0)]) (λ _, eq_refl)
           (lit "darling") (lit "/bin/true") (lit "user") (example_wakeup 0) []
           POLLIN 0%Z 0%Z
           ltac:(vm_compute; lia) eq_refl eq_refl ltac:(done) ltac:(done) ltac:(done)
           ltac:(intros [=]) eq_refl ltac:(done) eq_refl ltac:(done) eq_refl eq_refl
           eq_refl).
Defined.

(** C3 as stated fails: between SetExec and Chdir the client also sends
    AddArg, so the sequence is not SetEnv, SetEnv, SetEnv, SetExec, Chdir,
    SetIdentity, Go. *)
Lemma exec_bin_true_sends_AddArg :
  let sent :=
    wire_kinds (trace (final_state
      (main_spawn example_globals (example_env [ev_wakeup (example_wakeup 0)])
         [lit "darling"; lit "exec"; lit "/bin/true"] initial_state))) in
  sent = [SHELLSPAWN_SETENV; SHELLSPAWN_SETENV; SHELLSPAWN_SETENV; SHELLSPAWN_SETEXEC;
          SHELLSPAWN_ADDARG; SHELLSPAWN_CHDIR; SHELLSPAWN_SETUIDGID; SHELLSPAWN_GO]
  ∧ sent ≠ [SHELLSPAWN_SETENV; SHELLSPAWN_SETENV; SHELLSPAWN_SETENV; SHELLSPAWN_SETEXEC;
            SHELLSPAWN_CHDIR; SHELLSPAWN_SETUIDGID; SHELLSPAWN_GO].
Proof. vm_compute. split; [reflexivity|discriminate]. Qed.

(** ** getInitProcess *)

Lemma getInitProcess_cases (g : globals) (h : host) :
  getInitProcess g h = (0%Z, unlink_pidPath h)
  ∨ ∃ pid, getInitProcess g h = (pid, h).
Proof.
  unfold getInitProcess.
  repeat (case_match; try (left; reflexivity); try (right; eexists; reflexivity)).
Qed.

Lemma getInitProcess_no_record (g : globals) (h : host) :
  init_pid h = None → getInitProcess g h = (0%Z, h).
Proof. intros Hnone. unfold getInitProcess. by rewrite Hnone. Qed.

(** C8: a second call of [getInitProcess] right after the first, with the
    processes unchanged, returns what the first returned and leaves the
    record as the first left it. *)
Theorem getInitProcess_idempotent (g : globals) (h : host) :
  getInitProcess g (getInitProcess g h).2 = getInitProcess g h.
Proof.
  destruct (getInitProcess_cases g h) as [Hstale | [pid Hlive]].
  - rewrite Hstale. simpl. by apply getInitProcess_no_record.
  - by rewrite Hlive.
Qed.

(** The stale states that [getInitProcess] does detect. *)
Lemma getInitProcess_dead_pid (g : globals) (h : host) (content rest : list ascii) (pid : Z) :
  init_pid h = Some content →
  scan_d content = Some (pid, rest) →
  kill0 h pid = (-1)%Z →
  getInitProcess g h = (0%Z, unlink_pidPath h).
Proof.
  intros Hfile Hscan Hkill. unfold getInitProcess. rewrite Hfile, Hscan, Hkill.
  by destruct (decide _).
Qed.

Lemma getInitProcess_other_word (g : globals) (h : host)
    (content rest comm exeBuf rest' : list ascii) (pid : Z) :
  init_pid h = Some content →
  scan_d content = Some (pid, rest) →
  proc_comm h pid = Some comm →
  scan_ms comm = Some (exeBuf, rest') →
  c_str exeBuf ≠ lit "darlingserver" →
  getInitProcess g h = (0%Z, unlink_pidPath h).
Proof.
  intros Hfile Hscan Hcomm Hword Hne. unfold getInitProcess.
  rewrite Hfile, Hscan, Hcomm, Hword. destruct (decide _); [done|].
  unfold streq. rewrite bool_decide_eq_false_2; done.
Qed.

Lemma getInitProcess_foreign_owner (g : globals) (h : host)
    (content rest status : list ascii) (pid : Z) :
  init_pid h = Some content →
  scan_d content = Some (pid, rest) →
  g_originalUid g ≠ 0%Z →
  proc_status h pid = Some status →
  fold_left (getInitProcess_line g) (getlines status) (false, false) ≠ (true, true) →
  getInitProcess g h = (0%Z, unlink_pidPath h).
Proof.
  intros Hfile Hscan Huid Hstatus Hids. unfold getInitProcess.
  rewrite Hfile, Hscan. repeat (case_match; try done).
  exfalso. simplify_eq. destruct b, b0; done.
Qed.

Example getInitProcess_foreign_owner_example :
  getInitProcess example_globals
    (example_host "darlingserver" ["1000"; "1000"; "0"; "1000"]%string)
  = (0%Z, unlink_pidPath (example_host "darlingserver" ["1000"; "1000"; "0"; "1000"]%string)).
Proof. reflexivity. Qed.

Example getInitProcess_running_example :
  getInitProcess example_globals
    (example_host "darlingserver" ["1000"; "1000"; "1000"; "1000"]%string)
  = (4242%Z, example_host "darlingserver" ["1000"; "1000"; "1000"; "1000"]%string).
Proof. reflexivity. Qed.

(** C2, state (b), where the code departs from it: process 4242 is alive
    and its command name is [darlingserver x], which is not the name of the
    broker; [%ms] stops at the blank, the word read is [darlingserver], and
    [getInitProcess] returns 4242 and keeps the record. *)
Theorem getInitProcess_accepts_longer_name :
  let h := example_host "darlingserver x" ["1000"; "1000"; "1000"; "1000"]%string in
  proc_comm h 4242 = Some (lit "darlingserver x" ++ [NEWLINE])
  ∧ getInitProcess example_globals h = (4242%Z, h)
  ∧ init_pid (getInitProcess example_globals h).2 = Some (lit "4242").
Proof. repeat split; reflexivity. Qed.

(** * Further properties *)

(** ** The exit status on the wire *)

Lemma Z_of_byte_byte_of (z : Z) : Z_of_byte (byte_of z) = (z `mod` 256)%Z.
Proof.
  unfold Z_of_byte, byte_of.
  assert (H : (0 ≤ z `mod` 256 < 256)%Z) by (apply Z.mod_pos_bound; lia).
  rewrite N_ascii_embedding by lia. lia.
Qed.

Lemma int_bytes_value (z : Z) :
  fold_right (λ c acc, Z_of_byte c + 256 * acc)%Z 0%Z (int_bytes z) = (z `mod` 2 ^ 32)%Z.
Proof.
  unfold int_bytes. cbn [fold_right]. rewrite !Z_of_byte_byte_of, !Z.shiftr_div_pow2 by lia.
  change (2 ^ 32)%Z with (2 ^ 8 * (2 ^ 8 * (2 ^ 8 * 2 ^ 8)))%Z.
  rewrite (Z.rem_mul_r z (2 ^ 8)) by lia.
  rewrite (Z.rem_mul_r (z / 2 ^ 8) (2 ^ 8)) by lia.
  rewrite (Z.rem_mul_r (z / 2 ^ 8 / 2 ^ 8) (2 ^ 8)) by lia.
  rewrite !Z.div_div by lia.
  change (2 ^ 8 * 2 ^ 8)%Z with (2 ^ 16)%Z. change (2 ^ 16 * 2 ^ 8)%Z with (2 ^ 24)%Z.
  change (2 ^ 8)%Z with 256%Z. lia.
Qed.

Lemma int_of_bytes_int_bytes (z : Z) :
  (- 2 ^ 31 ≤ z < 2 ^ 31)%Z → int_of_bytes (int_bytes z) = z.
Proof.
  intros Hz. unfold int_of_bytes. rewrite int_bytes_value.
  destruct (decide (0 ≤ z)%Z).
  - rewrite Z.mod_small by lia. case_decide; lia.
  - replace (z `mod` 2 ^ 32)%Z with (z + 2 ^ 32)%Z.
    + case_decide; lia.
    + apply Z.mod_unique with (-1)%Z; lia.
Qed.

(** X1: the four bytes the broker sends are decoded as the [int] it
    stored: the process exits with exactly that status, negative values
    included, whatever follows the four bytes on the channel. *)
Theorem shellLoop_sock_status (sockfd z : Z) (more : list ascii) (s : state) :
  (- 2 ^ 31 ≤ z < 2 ^ 31)%Z →
  shellLoop_sock sockfd (Some (int_bytes z ++ more)) s
  = Exit z (log (sys_read sockfd) s).
Proof.
  intros Hz. unfold shellLoop_sock.
  change (read_ret 4 (Some (int_bytes z ++ more))) with 4%Z.
  change (read_bytes 4 (Some (int_bytes z ++ more))) with (int_bytes z).
  run. by rewrite int_of_bytes_int_bytes.
Qed.

Lemma shellLoop_sock_status_witness :
  shellLoop_sock 3 (Some (int_bytes (-2) ++ [])) initial_state
  = Exit (-2) (log (sys_read 3) initial_state).
Proof. exact (shellLoop_sock_status 3 (-2) [] initial_state ltac:(lia)). Defined.

(** ** Signals on the wire *)

Section Signals.
Variable e : env.
Hypothesis write_ok : ∀ n, write_whole e n = true.





End Signals.


(** ** The data the proxy moves *)

Lemma written_to_app (fd : Z) (t r : list syscall) :
  written_to fd (t ++ r) = written_to fd t ++ written_to fd r.
Proof. unfold written_to. by rewrite omap_app, concat_app. Qed.

Lemma written_to_write (fd : Z) (bytes : list ascii) :
  written_to fd [sys_write fd bytes] = bytes.
Proof. unfold written_to. simpl. rewrite decide_True by done. simpl. by rewrite app_nil_r. Qed.

(** X3: what the proxy reads from the pty master reaches standard output
    unchanged, once and in order: after any number of reads that filled the
    buffer and one that did not, the bytes written to standard output are
    the bytes read, and the branch returns to [poll]. *)
Theorem shellLoop_master_copies (master : Z) (fulls rest : list (option (list ascii)))
    (last : option (list ascii)) (s : state) :
  forallb master_full fulls = true →
  read_ret sizeof_buf last ≠ sizeof_buf →
  ∃ s', shellLoop_master master (fulls ++ last :: rest) s = Ret tt s'
        ∧ written_to STDOUT_FILENO (trace s')
          = written_to STDOUT_FILENO (trace s)
            ++ concat (read_bytes sizeof_buf <$> fulls) ++ read_bytes sizeof_buf last.
Proof.
  revert s. induction fulls as [|r fulls IH]; intros s Hfull Hlast.
  - cbn [app shellLoop_master]. run.
    destruct (decide (0 < read_ret sizeof_buf last)%Z) as [Hpos|Hpos]; run;
      (destruct (decide (read_ret sizeof_buf last = sizeof_buf)); [done|]);
      eexists; (split; [reflexivity|]); simpl concat; simpl trace.
    + rewrite !written_to_app, written_to_write. simpl. by rewrite app_nil_r.
    + rewrite written_to_app. simpl.
      assert (read_bytes sizeof_buf last = []) as ->; [|by rewrite !app_nil_r].
      unfold read_ret in Hpos. destruct last as [d|]; [|done].
      destruct (read_bytes sizeof_buf (Some d)); [done|simpl in Hpos; lia].
  - cbn [forallb] in Hfull. apply andb_prop in Hfull as [Hr Hfull].
    apply bool_decide_eq_true_1 in Hr.
    rewrite <- app_comm_cons. cbn [shellLoop_master]. run. rewrite Hr.
    destruct (decide (0 < sizeof_buf)%Z) as [_|]; [|done]. run.
    destruct (decide (sizeof_buf = sizeof_buf)) as [_|]; [|done].
    match goal with |- context [shellLoop_master _ _ ?t] =>
      destruct (IH t Hfull Hlast) as (s' & -> & Hw)
    end.
    exists s'. split; [done|]. rewrite Hw. simpl trace.
    rewrite !written_to_app, written_to_write, fmap_cons. simpl concat.
    unfold written_to at 2. simpl. by rewrite <- !app_assoc.
Qed.

Lemma shellLoop_master_copies_witness :
  ∃ s', shellLoop_master 5 ([] ++ Some (lit "hello") :: []) example_pty_state = Ret tt s'
        ∧ written_to STDOUT_FILENO (trace s')
          = written_to STDOUT_FILENO (trace example_pty_state)
            ++ concat (read_bytes sizeof_buf <$> []) ++ read_bytes sizeof_buf (Some (lit "hello")).
Proof.
  exact (shellLoop_master_copies 5 [] [] (Some (lit "hello")) example_pty_state
           eq_refl ltac:(done)).
Defined.

Lemma written_to_stdin_full_trace (master : Z)
    (fulls : list (option Z * option (list ascii))) :
  forallb stdin_full fulls = true →
  written_to master (concat (stdin_full_trace master <$> fulls))
  = concat ((λ x, read_bytes (stdin_count (default 0%Z x.1)) x.2) <$> fulls).
Proof.
  induction fulls as [|[fion r] fulls IH]; intros Hfull; [done|].
  cbn [forallb] in Hfull. apply andb_prop in Hfull as [Hx Hfull].
  unfold stdin_full in Hx. simpl in Hx. destruct fion as [n|]; [|done].
  rewrite !fmap_cons. cbn [concat]. rewrite written_to_app, IH by done.
  unfold stdin_full_trace. cbn [fst snd default from_option id].
  change [sys_read STDIN_FILENO; sys_write master (read_bytes (stdin_count n) r)]
    with ([sys_read STDIN_FILENO] ++ [sys_write master (read_bytes (stdin_count n) r)]).
  by rewrite written_to_app, written_to_write.
Qed.

(** X4: what the proxy reads from standard input reaches the pty master
    unchanged, once and in order: after any number of reads that filled the
    buffer and one shorter, non-empty read, the bytes written to the master
    are the bytes read, each read asking for the queued count capped at the
    buffer size. *)
Theorem shellLoop_stdin_copies (master : Z)
    (fulls rest : list (option Z * option (list ascii)))
    (n : Z) (r : option (list ascii)) (s : state) :
  forallb stdin_full fulls = true →
  (0 < read_ret (stdin_count n) r < sizeof_buf)%Z →
  ∃ s', shellLoop_stdin master (fulls ++ (Some n, r) :: rest) s = Ret tt s'
        ∧ written_to master (trace s')
          = written_to master (trace s)
            ++ concat ((λ x, read_bytes (stdin_count (default 0%Z x.1)) x.2) <$> fulls)
            ++ read_bytes (stdin_count n) r.
Proof.
  intros Hfull Hrd. rewrite shellLoop_stdin_full by done.
  cbn [shellLoop_stdin]. run.
  destruct (decide (0 < read_ret (stdin_count n) r)%Z) as [_|]; [|lia]. run.
  destruct (decide (read_ret (stdin_count n) r = sizeof_buf)); [lia|].
  eexists. split; [reflexivity|]. simpl trace.
  rewrite !written_to_app, written_to_write, written_to_stdin_full_trace by done.
  unfold written_to at 2. simpl. by rewrite <- !app_assoc.
Qed.

Lemma shellLoop_stdin_copies_witness :
  ∃ s', shellLoop_stdin 5 ([] ++ (Some 2%Z, Some (lit "ls")) :: []) example_pty_state
        = Ret tt s'
        ∧ written_to 5 (trace s')
          = written_to 5 (trace example_pty_state)
            ++ concat ((λ x, read_bytes (stdin_count (default 0%Z x.1)) x.2) <$> [])
            ++ read_bytes (stdin_count 2) (Some (lit "ls")).
Proof.
  exact (shellLoop_stdin_copies 5 [] [] 2%Z (Some (lit "ls")) example_pty_state
           eq_refl ltac:(vm_compute; split; reflexivity)).
Defined.

(** X5: a burst on standard input that fills the 4096-byte buffer exactly
    is forwarded to the master, and the next round of the [do ... while],
    finding nothing queued, reads zero bytes and ends the process with
    status 1. *)
Theorem shellLoop_stdin_exact_buffer (master : Z)
    (fulls rest : list (option Z * option (list ascii)))
    (r : option (list ascii)) (s : state) :
  forallb stdin_full fulls = true →
  ∃ s', shellLoop_stdin master (fulls ++ (Some 0%Z, r) :: rest) s = Exit 1 s'
        ∧ written_to master (trace s')
          = written_to master (trace s)
            ++ concat ((λ x, read_bytes (stdin_count (default 0%Z x.1)) x.2) <$> fulls).
Proof.
  intros Hfull. rewrite shellLoop_stdin_full by done.
  cbn [shellLoop_stdin]. run.
  assert (Hrd : (read_ret (stdin_count 0) r ≤ 0)%Z) by (by destruct r).
  destruct (decide (0 < read_ret (stdin_count 0) r)%Z); [lia|].
  eexists. split; [reflexivity|]. simpl trace.
  rewrite !written_to_app, written_to_stdin_full_trace by done.
  unfold written_to at 3. simpl. by rewrite app_nil_r.
Qed.

Lemma shellLoop_stdin_exact_buffer_witness :
  ∃ s', shellLoop_stdin 5
          ([(Some 4096%Z, Some (replicate 4096 "a"%char))] ++ (Some 0%Z, Some []) :: [])
          example_pty_state = Exit 1 s'
        ∧ written_to 5 (trace s')
          = written_to 5 (trace example_pty_state)
            ++ concat ((λ x, read_bytes (stdin_count (default 0%Z x.1)) x.2)
                         <$> [(Some 4096%Z, Some (replicate 4096 "a"%char))]).
Proof.
  exact (shellLoop_stdin_exact_buffer 5 [(Some 4096%Z, Some (replicate 4096 "a"%char))]
           [] (Some []) example_pty_state ltac:(vm_compute; reflexivity)).
Defined.

(** ** The loop without a pty *)

Lemma channel_only_run (e : env) (sockfd : Z) (evs : list event) (s : state) :
  pty_master s = (-1)%Z → _shSockfd s = sockfd →
  (pfds_revents s).1.2 = 0%Z → (pfds_revents s).2 = 0%Z →
  ∃ r, trace (final_state (shellLoop_run e sockfd (-1) 1 evs s)) = trace s ++ r
       ∧ Forall (channel_only sockfd) r.
Proof.
  revert s. induction evs as [|[signo win|k] evs IH]; intros s Hpty Hsock H1 H2.
  - exists []. by rewrite app_nil_r.
  - cbn [shellLoop_run]. unfold signalHandler, pushShellspawnCommandData. run.
    rewrite Hpty, Hsock.
    destruct (decide (signo = SIGWINCH ∧ (-1)%Z ≠ (-1)%Z)) as [[_ ?]|_]; [done|]. run.
    set (c := {| cmd := SHELLSPAWN_SIGNAL; data_length := 4;
                 data := from_option (take 4) [] (Some (int_bytes _)) |}).
    assert (Hc : ∃ n, c = signal_cmd n) by (by eexists).
    destruct Hc as (n & Hc). rewrite Hc.
    destruct (write_whole e (length (trace s))); run.
    + destruct (IH (log (sys_write_cmd sockfd (signal_cmd n)) s)) as (r & -> & Hr);
        [done..|].
      eexists (_ :: r). simpl trace. rewrite <- app_assoc. split; [done|].
      constructor; [right; eauto|done].
    + eexists [_]. split; [done|]. constructor; [right; eauto|done].
  - cbn [shellLoop_run]. unfold shellLoop_body, shellLoop_pty, shellLoop_sock. run.
    set (s0 := shellLoop_poll 1 k s).
    assert (Hs0 : trace s0 = trace s ∧ pty_master s0 = (-1)%Z ∧ _shSockfd s0 = sockfd
                  ∧ (pfds_revents s0).1.2 = 0%Z ∧ (pfds_revents s0).2 = 0%Z).
    { subst s0. unfold shellLoop_poll. destruct (wk_revents k) as [[[n0 n1] n2]|]; [|done].
      unfold set_revents, poll_store. cbn [trace pty_master _shSockfd pfds_revents].
      destruct (pfds_revents s) as [[o0 o1] o2]. simpl in *. done. }
    destruct Hs0 as (Ht & Hp & Hs & Hr1 & Hr2).
    destruct (decide (wk_poll k = PollError));
      [run; exists []; cbn [final_state]; by rewrite Ht, app_nil_r|].
    destruct (pfds_revents s0) as [[rev0 rev1] rev2] eqn:Hrev. simpl in Hr1, Hr2. subst.
    change (Z.land 0 POLLIN) with 0%Z.
    destruct (decide (0 ≠ 0)%Z); [done|]. run. rewrite Hrev. cbn [fst snd].
    destruct (decide (Z.land rev0 (Z.lor POLLHUP POLLIN) ≠ 0)%Z); run.
    + destruct (decide (read_ret 4 (wk_sock k) = 4%Z)); run;
        exists [sys_read (_shSockfd s)]; cbn [final_state log trace]; rewrite Ht;
        (split; [done|]); (constructor; [by left|done]).
    + destruct (IH s0) as (r & -> & Hr); [done|done|by rewrite Hrev..|].
      exists r. by rewrite Ht.
Qed.

(** X6: without a pty the loop proxies nothing: all it ever does is read the
    protocol channel and write Signal commands to it; standard input is
    never read and nothing is written to standard output. *)
Theorem shellLoop_without_pty (e : env) (sockfd : Z) (s : state) :
  ∃ r, trace (final_state (shellLoop e sockfd (-1) s)) = trace s ++ r
       ∧ Forall (channel_only sockfd) r.
Proof.
  unfold shellLoop. run. cbn [decide_rel].
  destruct (decide ((-1)%Z ≠ (-1)%Z)); [done|].
  apply (channel_only_run e sockfd (script e)
           (set_revents (0, 0, 0)%Z (set_handler_vars sockfd (-1) s))); done.
Qed.

(** ** Failure of poll *)

(** X7: when [poll] fails with an error other than EINTR the loop is left
    without reading an exit status: [spawnGo] closes the pty master (if
    there is one) and the socket and returns to its caller instead of
    exiting. *)
Theorem spawnGo_poll_error (e : env) (sockfd fd0 fd1 fd2 master : Z) (s : state)
    (k : wakeup) (evs : list event) :
  script e = ev_wakeup k :: evs →
  wk_poll k = PollError →
  ¬ (sendmsg_ret e < 0)%Z →
  ∃ s', spawnGo e sockfd (fd0, fd1, fd2) master s = Ret tt s'
        ∧ trace s'
          = trace s
            ++ [sys_sendmsg sockfd {| cmd := SHELLSPAWN_GO; data_length := 0; data := [] |}
                  [fd0; fd1; fd2];
                sys_close fd0]
            ++ (if decide (master ≠ (-1)%Z) then [sys_close master] else [])
            ++ [sys_close sockfd].
Proof.
  intros Hscript Hpoll Hsend. unfold spawnGo, pushShellspawnCommandFDs, shellLoop. run.
  destruct (decide (sendmsg_ret e < 0)%Z); [done|]. run.
  rewrite Hscript. cbn [shellLoop_run]. unfold shellLoop_body. run.
  destruct (decide (wk_poll k = PollError)) as [_|]; [|done]. run.
  assert (Ht : ∀ fdcount t, trace (shellLoop_poll fdcount k t) = trace t).
  { intros fdcount t. unfold shellLoop_poll. by destruct (wk_revents k). }
  destruct (decide (master ≠ (-1)%Z)); run; eexists; (split; [reflexivity|]);
    cbn [trace log]; rewrite Ht; cbn [trace set_revents set_handler_vars log];
    by rewrite <- !app_assoc.
Qed.

Lemma spawnGo_poll_error_witness :
  ∃ s', spawnGo (example_env [ev_wakeup {| wk_poll := PollError; wk_revents := None;
                                           wk_master := []; wk_stdin := [];
                                           wk_sock := None |}])
          3 (4, 1, 2)%Z (-1) initial_state = Ret tt s'
        ∧ trace s'
          = trace initial_state
            ++ [sys_sendmsg 3 {| cmd := SHELLSPAWN_GO; data_length := 0; data := [] |}
                  [4; 1; 2]%Z;
                sys_close 4]
            ++ (if decide ((-1)%Z ≠ (-1)%Z) then [sys_close (-1)] else [])
            ++ [sys_close 3].
Proof.
  exact (spawnGo_poll_error
           (example_env [ev_wakeup {| wk_poll := PollError; wk_revents := None;
                                      wk_master := []; wk_stdin := [];
                                      wk_sock := None |}])
           3 4 1 2 (-1) initial_state _ [] eq_refl eq_refl ltac:(done)).
Defined.

(** ** The descriptors handed to the target *)

(** X8: when [setupFDs] returns, a pty master exists exactly when standard
    input is a terminal. Without one the target gets a duplicate of standard
    input and the process's own standard output and error. With one it gets
    the pty slave as input, and as output (error) only if standard output
    (error) is a terminal too. *)
Theorem setupFDs_selection (e : env) (s s' : state) (fd0 fd1 fd2 master : Z) :
  setupFDs e s = Ret (fd0, fd1, fd2, master) s' →
  (master ≠ (-1)%Z ↔ isatty e STDIN_FILENO = true)
  ∧ fd0 = (if isatty e STDIN_FILENO then open_slave_ret e else dup_ret e)
  ∧ fd1 = (if isatty e STDIN_FILENO && isatty e STDOUT_FILENO
           then open_slave_ret e else STDOUT_FILENO)
  ∧ fd2 = (if isatty e STDIN_FILENO && isatty e STDERR_FILENO
           then open_slave_ret e else STDERR_FILENO).
Proof.
  assert (Hsel : ∀ (b : bool) (m slave out : Z), m ≠ (-1)%Z →
            (if decide (m = (-1)%Z ∨ ¬ b) then out else slave)
            = (if true && b then slave else out)).
  { intros b m slave out Hm. destruct b; simpl; case_decide as Hd; try done.
    - destruct Hd as [?|Hd]; [done|]. by destruct Hd.
    - exfalso. apply Hd. right. by intros ?. }
  unfold setupFDs, setupPtys, openpty_darling. run.
  destruct (isatty e STDIN_FILENO) eqn:Hin.
  - destruct (decide (posix_openpt_ret e = (-1)%Z)); [done|].
    destruct (decide (unlockpt_ret e < 0)%Z); [done|].
    destruct (decide (open_slave_ret e = (-1)%Z)); [done|]. run.
    destruct (bool_decide (tcgetattr_ret e < 0)%Z); cbn [negb]; run.
    + intros [= <- <- <- <- <-]. split; [done|]. split; [done|].
      split; by apply Hsel.
    + destruct (decide (tcsetattr_ret e < 0)%Z); [done|]. run.
      intros [= <- <- <- <- <-]. split; [done|]. split; [done|].
      split; by apply Hsel.
  - intros [= <- <- <- <- <-]. split; [done|]. split; [done|].
    done.
Qed.

Lemma setupFDs_selection_witness :
  ((-1)%Z ≠ (-1)%Z ↔ isatty (example_env []) STDIN_FILENO = true)
  ∧ 4%Z = (if isatty (example_env []) STDIN_FILENO
           then open_slave_ret (example_env []) else dup_ret (example_env []))
  ∧ 1%Z = (if isatty (example_env []) STDIN_FILENO && isatty (example_env []) STDOUT_FILENO
           then open_slave_ret (example_env []) else STDOUT_FILENO)
  ∧ 2%Z = (if isatty (example_env []) STDIN_FILENO && isatty (example_env []) STDERR_FILENO
           then open_slave_ret (example_env []) else STDERR_FILENO).
Proof.
  exact (setupFDs_selection (example_env []) initial_state initial_state 4 1 2 (-1) eq_refl).
Defined.

(** ** Spawn requests in shell mode and in exec mode *)

Lemma bind_Ret {A B} (m : M A) (f : A → M B) (s s1 : state) (a : A) :
  m s = Ret a s1 → (m ≫= f) s = f a s1.
Proof. intros H. unfold mbind, M_bind. by rewrite H. Qed.

Lemma bind_Exit {A B} (m : M A) (f : A → M B) (s s1 : state) (n : Z) :
  m s = Exit n s1 → (m ≫= f) s = Exit n s1.
Proof. intros H. unfold mbind, M_bind. by rewrite H. Qed.

Section Sequences.
Variable g : globals.
Variable e : env.
Variable status : Z.
Hypothesis broker : broker_reports g e status.

Lemma broker_write_ok : ∀ n, write_whole e n = true.
Proof. apply broker. Qed.

Lemma setupShellspawnEnv_ok (login : cstr) (sockfd : Z) (s : state) :
  login_name e = Some login →
  ∃ s1, setupShellspawnEnv e sockfd s = Ret tt s1
        ∧ wire (trace s1) = wire (trace s) ++ env_cmds login.
Proof.
  intros Hlogin. pose proof broker_write_ok as Hw.
  unfold setupShellspawnEnv. run.
  rewrite !(pushShellspawnCommand_ok e Hw) by (by apply (bool_decide_unpack _)).
  rewrite Hlogin.
  rewrite (pushShellspawnCommand_ok e Hw)
    by (apply take_no_NUL, lit_app_no_NUL; by apply (bool_decide_unpack _)).
  eexists. split; [reflexivity|]. rewrite !wire_log. unfold env_cmds.
  cbn [wire omap]. by rewrite <- !app_assoc.
Qed.

Lemma connectToShellspawn_ok' (s : state) :
  ∃ s1, connectToShellspawn g e s = Ret (socket_ret e) s1
        ∧ wire (trace s1) = wire (trace s).
Proof.
  destruct broker as (Hlen & Hsock & Hconn & _).
  destruct (connectToShellspawn_ok g e s Hlen Hsock Hconn) as (sun_path & ->).
  eexists. split; [done|]. rewrite wire_log. cbn [wire omap]. by rewrite app_nil_r.
Qed.

Lemma request_tail (sockfd : Z) (s : state) :
  ∃ s' fds,
    (setupWorkingDir g e sockfd;; setupIDs g e sockfd;;
     '(fd0, fd1, fd2, master) ← setupFDs e;
     spawnGo e sockfd (fd0, fd1, fd2) master) s = Exit status s'
    ∧ length fds = 3
    ∧ wire (trace s') = wire (trace s) ++ go_cmds g fds.
Proof.
  destruct broker as (_ & _ & _ & Hw & Hsend & Hfds & Hst & k & evs & rev0 & rev1 & rev2
                      & Hscript & Hpoll & Hrev & H0 & H1 & H2 & Hsockr).
  assert (Hnul : NUL ∉ snprintf_4096 (c_str (SYSTEM_ROOT g) ++ c_str (g_workingDirectory g))).
  { apply take_no_NUL. rewrite not_elem_of_app. split; apply c_str_no_NUL. }
  unfold setupWorkingDir, setupIDs. cbv zeta.
  rewrite (bind_Ret _ _ _ _ _ (pushShellspawnCommand_ok e Hw _ _ _ _ Hnul)).
  change 8 with (length (int_bytes (g_originalUid g) ++ int_bytes (g_originalGid g))).
  rewrite (bind_Ret _ _ _ _ _ (pushShellspawnCommandData_ok e Hw _ _ _ _)).
  match goal with |- context [(setupFDs e ≫= _) ?t] =>
    destruct (setupFDs_returns e t Hfds) as (fd0 & fd1 & fd2 & master & r & Hf & Hr)
  end.
  rewrite (bind_Ret _ _ _ _ _ Hf). cbv beta iota.
  unfold spawnGo, pushShellspawnCommandFDs. run.
  destruct (decide (sendmsg_ret e < 0)%Z); [done|]. run.
  match goal with |- context [shellLoop e ?fd ?m ?t] =>
    destruct (shellLoop_first_wakeup e fd m t k evs rev0 rev1 rev2
                Hscript Hpoll Hrev H0 H1 H2) as (s' & -> & Hwire)
  end.
  rewrite Hsockr. exists s', [fd0; fd1; fd2].
  split; [|split; [done|]].
  - simpl length. rewrite decide_True by lia.
    change (take 4 (int_bytes status)) with (int_bytes status).
    by rewrite int_of_bytes_int_bytes.
  - rewrite Hwire, !wire_log, wire_log_all, !wire_log, Hr. unfold go_cmds.
    cbn [wire omap]. by rewrite <- !app_assoc.
Qed.

Ltac step H := rewrite (bind_Ret _ _ _ _ _ H); cbv beta iota.

Lemma cmdline_spec_c_str_no_NUL (argv : list cstr) :
  NUL ∉ cmdline_spec (c_str <$> argv).
Proof.
  apply cmdline_spec_no_NUL, Forall_fmap, Forall_forall. intros a _. apply c_str_no_NUL.
Qed.

Lemma pushShellspawnCommand_c_str (sockfd : Z) (type : shellspawn_cmd_type_t)
    (v : cstr) (s : state) :
  pushShellspawnCommand e sockfd type (Some v) s
  = Ret tt (log (sys_write_cmd sockfd (string_cmd type (c_str v))) s).
Proof.
  pose proof broker_write_ok as Hw.
  rewrite <- (pushShellspawnCommand_ok e Hw) by apply c_str_no_NUL.
  unfold pushShellspawnCommand, strlen. by rewrite (c_str_id (c_str v)) by apply c_str_no_NUL.
Qed.

Lemma spawnShell_args (login : cstr) (argv : list cstr) (s : state) :
  login_name e = Some login →
  argv ≠ [] →
  ∃ s' fds,
    spawnShell g e (Some argv) s = Exit status s'
    ∧ length fds = 3
    ∧ wire (trace s')
      = wire (trace s) ++ env_cmds login
        ++ [(string_cmd SHELLSPAWN_ADDARG (lit "-c"), []);
            (string_cmd SHELLSPAWN_ADDARG (cmdline_spec (c_str <$> argv)), [])]
        ++ go_cmds g fds.
Proof.
  intros Hlogin Hne. pose proof broker_write_ok as Hw.
  unfold spawnShell. rewrite spawnShell_buffer_front by done.
  rewrite (bind_Ret _ _ s s _ eq_refl). cbv beta iota.
  destruct (connectToShellspawn_ok' s) as (s1 & Hc & Hw1). step Hc.
  destruct (setupShellspawnEnv_ok login (socket_ret e) s1 Hlogin) as (s2 & He & Hw2).
  step He.
  rewrite <- (app_nil_r (Some <$> _)), heap_string_front by apply cmdline_spec_c_str_no_NUL.
  assert (Hdash : NUL ∉ lit "-c") by (by apply (bool_decide_unpack _)).
  rewrite (bind_Ret _ _ s2 _ tt
             (eq_trans
                (bind_Ret _ _ s2 _ tt (pushShellspawnCommand_ok e Hw _ _ _ _ Hdash))
                (pushShellspawnCommand_ok e Hw _ _ _ _ (cmdline_spec_c_str_no_NUL argv)))).
  match goal with |- context [log ?c (log ?c0 s2)] =>
    destruct (request_tail (socket_ret e) (log c (log c0 s2))) as (s' & fds & Ht & Hl & Hwt)
  end.
  exists s', fds. split; [exact Ht|]. split; [done|].
  rewrite Hwt, !wire_log, Hw2, Hw1. cbn [wire omap]. by rewrite <- !app_assoc.
Qed.

Lemma spawnShell_no_args (login : cstr) (s : state) :
  login_name e = Some login →
  ∃ s' fds,
    spawnShell g e None s = Exit status s'
    ∧ length fds = 3
    ∧ wire (trace s') = wire (trace s) ++ env_cmds login ++ go_cmds g fds.
Proof.
  intros Hlogin. unfold spawnShell.
  rewrite (bind_Ret _ _ s s _ eq_refl). cbv beta iota.
  destruct (connectToShellspawn_ok' s) as (s1 & Hc & Hw1). step Hc.
  destruct (setupShellspawnEnv_ok login (socket_ret e) s1 Hlogin) as (s2 & He & Hw2).
  step He.
  rewrite (bind_Ret _ _ s2 s2 tt eq_refl). cbv beta iota.
  destruct (request_tail (socket_ret e) s2) as (s' & fds & Ht & Hl & Hwt).
  exists s', fds. split; [exact Ht|]. split; [done|].
  by rewrite Hwt, Hw2, Hw1, <- !app_assoc.
Qed.

Lemma spawnBinary_args_ok (sockfd : Z) (argv : list cstr) (s : state) :
  ∃ s1, spawnBinary_args e sockfd argv s = Ret tt s1
        ∧ wire (trace s1)
          = wire (trace s) ++ ((λ a, (string_cmd SHELLSPAWN_ADDARG (c_str a), [])) <$> argv).
Proof.
  revert s. induction argv as [|a argv IH]; intros s.
  - exists s. split; [done|]. by rewrite app_nil_r.
  - cbn [spawnBinary_args].
    rewrite (bind_Ret _ _ _ _ _ (pushShellspawnCommand_c_str _ _ _ _)).
    match goal with |- context [spawnBinary_args e sockfd argv ?t] =>
      destruct (IH t) as (s1 & -> & Hw1)
    end.
    exists s1. split; [done|]. rewrite Hw1, wire_log, fmap_cons.
    cbn [wire omap]. by rewrite <- app_assoc.
Qed.

Lemma spawnBinary_ok (login binary : cstr) (argv : list cstr) (s : state) :
  login_name e = Some login →
  ∃ s' fds,
    spawnBinary g e binary argv s = Exit status s'
    ∧ length fds = 3
    ∧ wire (trace s')
      = wire (trace s) ++ env_cmds login
        ++ (string_cmd SHELLSPAWN_SETEXEC (c_str binary), [])
           :: ((λ a, (string_cmd SHELLSPAWN_ADDARG (c_str a), [])) <$> argv)
        ++ go_cmds g fds.
Proof.
  intros Hlogin. unfold spawnBinary.
  destruct (connectToShellspawn_ok' s) as (s1 & Hc & Hw1). step Hc.
  destruct (setupShellspawnEnv_ok login (socket_ret e) s1 Hlogin) as (s2 & He & Hw2).
  step He.
  rewrite (bind_Ret _ _ _ _ _ (pushShellspawnCommand_c_str _ _ _ _)).
  match goal with |- context [log ?c s2] =>
    destruct (spawnBinary_args_ok (socket_ret e) argv (log c s2)) as (s3 & Ha & Hw3)
  end.
  step Ha.
  destruct (request_tail (socket_ret e) s3) as (s' & fds & Ht & Hl & Hwt).
  exists s', fds. split; [exact Ht|]. split; [done|].
  rewrite Hwt, Hw3, wire_log, Hw2, Hw1. cbn [wire omap]. by rewrite <- !app_assoc.
Qed.

End Sequences.

(** ** What [main] sends for each way of invoking it *)

Ltac example_broker :=
  split; [vm_compute; lia|];
  split; [done|]; split; [done|]; split; [done|]; split; [done|];
  split; [intros [=]|]; split; [lia|];
  eexists _, _, _, _, _; split; [reflexivity|];
  split; [done|]; split; [reflexivity|]; split; [done|];
  split; [reflexivity|]; split; reflexivity.

Lemma streq_exec_not_shell (a : cstr) :
  streq a (lit "exec") = true → streq a (lit "shell") = false.
Proof.
  unfold streq. intros H%bool_decide_eq_true. apply bool_decide_eq_false.
  rewrite H. by apply (bool_decide_unpack _).
Qed.

(** X9: [darling shell] with no further argument sends the three SetEnv
    commands, then Chdir, SetIdentity and Go, and no AddArg; with further
    arguments it sends, between SetEnv and Chdir, AddArg [-c] and one AddArg
    holding all the arguments quoted and joined by blanks.  The process exits
    with the status the broker reports. *)
Theorem main_spawn_shell (g : globals) (e : env) (status : Z)
    (login argv0 arg1 : cstr) (rest : list cstr) (s : state) :
  broker_reports g e status →
  login_name e = Some login →
  streq arg1 (lit "shell") = true →
  ∃ s' fds,
    main_spawn g e (argv0 :: arg1 :: rest) s = Exit status s'
    ∧ length fds = 3
    ∧ wire (trace s')
      = wire (trace s) ++ env_cmds login
        ++ match rest with
           | [] => []
           | _ => [(string_cmd SHELLSPAWN_ADDARG (lit "-c"), []);
                   (string_cmd SHELLSPAWN_ADDARG (cmdline_spec (c_str <$> rest)), [])]
           end
        ++ go_cmds g fds.
Proof.
  intros Hb Hlogin Hshell. unfold main_spawn. rewrite Hshell.
  destruct rest as [|a rest].
  - rewrite decide_False by (cbn [length]; lia).
    destruct (spawnShell_no_args g e status Hb login s Hlogin) as (s' & fds & H & Hl & Hw).
    exists s', fds. by rewrite (bind_Exit _ _ _ _ _ H).
  - rewrite decide_True by (cbn [length]; lia).
    destruct (spawnShell_args g e status Hb login (a :: rest) s Hlogin ltac:(done))
      as (s' & fds & H & Hl & Hw).
    exists s', fds. by rewrite (bind_Exit _ _ _ _ _ H).
Qed.

Lemma main_spawn_shell_witness :
  ∃ s' fds,
    main_spawn example_globals (example_env [ev_wakeup (example_wakeup 7)])
      [lit "darling"; lit "shell"; lit "echo"; lit "a b"] initial_state = Exit 7 s'
    ∧ length fds = 3
    ∧ wire (trace s')
      = wire (trace initial_state) ++ env_cmds (lit "user")
        ++ [(string_cmd SHELLSPAWN_ADDARG (lit "-c"), []);
            (string_cmd SHELLSPAWN_ADDARG
               (cmdline_spec (c_str <$> [lit "echo"; lit "a b"])), [])]
        ++ go_cmds example_globals fds.
Proof.
  apply (main_spawn_shell example_globals (example_env [ev_wakeup (example_wakeup 7)]) 7
           (lit "user") (lit "darling") (lit "shell") [lit "echo"; lit "a b"] initial_state).
  - example_broker.
  - reflexivity.
  - reflexivity.
Defined.

(** X10: an invocation that names a program (its first argument is not an
    option and is none of [shutdown], [shell] and [exec]) runs that program
    through the shell: the client resolves the path, roots it in the sandbox,
    and sends AddArg [-c] and one AddArg with the rooted path and the
    remaining arguments quoted and joined by blanks; no SetExec is sent. *)
Theorem main_spawn_default (g : globals) (e : env) (status : Z)
    (login argv0 arg1 path : cstr) (rest : list cstr) (s : state) :
  spawn_request (argv0 :: arg1 :: rest) →
  broker_reports g e status →
  login_name e = Some login →
  streq arg1 (lit "shell") = false →
  streq arg1 (lit "exec") = false →
  realpath e arg1 = Some path →
  let full := c_str (SYSTEM_ROOT g) ++ c_str path in
  ∃ s' fds,
    main_spawn g e (argv0 :: arg1 :: rest) s = Exit status s'
    ∧ length fds = 3
    ∧ wire (trace s')
      = wire (trace s) ++ env_cmds login
        ++ [(string_cmd SHELLSPAWN_ADDARG (lit "-c"), []);
            (string_cmd SHELLSPAWN_ADDARG (cmdline_spec (full :: (c_str <$> rest))), [])]
        ++ go_cmds g fds.
Proof.
  intros _ Hb Hlogin Hshell Hexec Hpath full. unfold main_spawn.
  rewrite Hshell, Hexec. cbv zeta. cbn [andb lookup list_lookup default id].
  rewrite Hpath. cbn [insert list_insert drop].
  destruct (spawnShell_args g e status Hb login (full :: rest) s Hlogin ltac:(done))
    as (s' & fds & H & Hl & Hw).
  exists s', fds. rewrite (bind_Exit _ _ _ _ _ H). split; [done|]. split; [done|].
  rewrite Hw, fmap_cons. subst full.
  by rewrite (c_str_id (_ ++ _))
    by (rewrite not_elem_of_app; split; apply c_str_no_NUL).
Qed.

Lemma main_spawn_default_witness :
  ∃ s' fds,
    main_spawn example_globals (example_env [ev_wakeup (example_wakeup 0)])
      [lit "darling"; lit "/bin/ls"; lit "-l"] initial_state = Exit 0 s'
    ∧ length fds = 3
    ∧ wire (trace s')
      = wire (trace initial_state) ++ env_cmds (lit "user")
        ++ [(string_cmd SHELLSPAWN_ADDARG (lit "-c"), []);
            (string_cmd SHELLSPAWN_ADDARG
               (cmdline_spec ((c_str (SYSTEM_ROOT example_globals) ++ c_str (lit "/bin/ls"))
                              :: (c_str <$> [lit "-l"]))), [])]
        ++ go_cmds example_globals fds.
Proof.
  apply (main_spawn_default example_globals (example_env [ev_wakeup (example_wakeup 0)]) 0
           (lit "user") (lit "darling") (lit "/bin/ls") (lit "/bin/ls") [lit "-l"]
           initial_state).
  - split; [done|reflexivity].
  - example_broker.
  - reflexivity.
  - reflexivity.
  - reflexivity.
  - reflexivity.
Defined.

(** X11: [darling exec <program> <args>] sends SetExec with the
    sandbox-rooted path of the program and then one AddArg per entry of the
    target's argument vector, in order: first the rooted path itself, then
    each further argument up to its terminator, unquoted. *)
Theorem main_spawn_exec (g : globals) (e : env) (status : Z)
    (login argv0 arg1 prog path : cstr) (rest : list cstr) (s : state) :
  broker_reports g e status →
  login_name e = Some login →
  streq arg1 (lit "exec") = true →
  realpath e prog = Some path →
  let full := c_str (SYSTEM_ROOT g) ++ c_str path in
  ∃ s' fds,
    main_spawn g e (argv0 :: arg1 :: prog :: rest) s = Exit status s'
    ∧ length fds = 3
    ∧ wire (trace s')
      = wire (trace s) ++ env_cmds login
        ++ (string_cmd SHELLSPAWN_SETEXEC full, [])
           :: (string_cmd SHELLSPAWN_ADDARG full, [])
           :: ((λ a, (string_cmd SHELLSPAWN_ADDARG (c_str a), [])) <$> rest)
        ++ go_cmds g fds.
Proof.
  intros Hb Hlogin Hexec Hpath full. unfold main_spawn.
  rewrite (streq_exec_not_shell _ Hexec), Hexec. cbv zeta.
  rewrite bool_decide_eq_false_2 by (cbn [length]; lia).
  cbn [andb lookup list_lookup default id]. rewrite Hpath. cbn [insert list_insert drop].
  destruct (spawnBinary_ok g e status Hb login full (full :: rest) s Hlogin)
    as (s' & fds & H & Hl & Hw).
  exists s', fds. rewrite (bind_Exit _ _ _ _ _ H). split; [done|]. split; [done|].
  rewrite Hw, fmap_cons. subst full.
  by rewrite (c_str_id (_ ++ _))
    by (rewrite not_elem_of_app; split; apply c_str_no_NUL).
Qed.

Lemma main_spawn_exec_witness :
  ∃ s' fds,
    main_spawn example_globals (example_env [ev_wakeup (example_wakeup 3)])
      [lit "darling"; lit "exec"; lit "/bin/echo"; lit "a b"; lit "c"] initial_state
    = Exit 3 s'
    ∧ length fds = 3
    ∧ wire (trace s')
      = wire (trace initial_state) ++ env_cmds (lit "user")
        ++ (string_cmd SHELLSPAWN_SETEXEC
              (c_str (SYSTEM_ROOT example_globals) ++ c_str (lit "/bin/echo")), [])
           :: (string_cmd SHELLSPAWN_ADDARG
                 (c_str (SYSTEM_ROOT example_globals) ++ c_str (lit "/bin/echo")), [])
           :: ((λ a, (string_cmd SHELLSPAWN_ADDARG (c_str a), []))
                 <$> [lit "a b"; lit "c"])
        ++ go_cmds example_globals fds.
Proof.
  apply (main_spawn_exec example_globals (example_env [ev_wakeup (example_wakeup 3)]) 3
           (lit "user") (lit "darling") (lit "exec") (lit "/bin/echo") (lit "/bin/echo")
           [lit "a b"; lit "c"] initial_state).
  - example_broker.
  - reflexivity.
  - reflexivity.
  - reflexivity.
Defined.

(** X12: for an invocation that gets to the last part of [main] (its first
    argument is not an option and not [shutdown]) and is not [shell]: when
    the program cannot be named ([exec] with nothing after it) or its path
    does not resolve, [main] returns 1 and has made no system call of the
    protocol: no socket is opened and nothing is sent. *)
Theorem main_spawn_unresolved (g : globals) (e : env)
    (argv0 arg1 : cstr) (rest : list cstr) (s : state) :
  spawn_request (argv0 :: arg1 :: rest) →
  streq arg1 (lit "shell") = false →
  (∀ p, (argv0 :: arg1 :: rest) !! (if streq arg1 (lit "exec") then 2 else 1) = Some p →
        realpath e p = None) →
  main_spawn g e (argv0 :: arg1 :: rest) s = Ret 1%Z s.
Proof.
  intros _ Hshell Hpath. unfold main_spawn. rewrite Hshell. cbv zeta.
  destruct (streq arg1 (lit "exec")); cbn [andb].
  - destruct rest as [|p rest].
    + by rewrite bool_decide_eq_true_2 by (cbn [length]; lia).
    + rewrite bool_decide_eq_false_2 by (cbn [length]; lia).
      cbn [lookup list_lookup default id]. by rewrite (Hpath p eq_refl).
  - cbn [lookup list_lookup default id]. by rewrite (Hpath arg1 eq_refl).
Qed.

Lemma main_spawn_unresolved_witness :
  main_spawn example_globals (example_env []) [lit "darling"; lit "exec"] initial_state
  = Ret 1%Z initial_state.
Proof.
  apply (main_spawn_unresolved example_globals (example_env [])
           (lit "darling") (lit "exec") [] initial_state).
  - split; [done|reflexivity].
  - reflexivity.
  - intros p [=].
Defined.

(** ** A short write is fatal *)

Lemma short_fatal_quiet {A} (m : M A) :
  (∀ s, trace (final_state (m s)) = trace s) → short_fatal m.
Proof. intros H s. exists []. rewrite H, app_nil_r. split; [done|]. by left. Qed.

Lemma short_fatal_ret {A} (a : A) : short_fatal (mret a).
Proof. by apply short_fatal_quiet. Qed.

Lemma short_fatal_exit {A} (n : Z) : short_fatal (exit (A:=A) n).
Proof. by apply short_fatal_quiet. Qed.

Lemma short_fatal_pending {A} : short_fatal (pending (A:=A)).
Proof. by apply short_fatal_quiet. Qed.

Lemma short_fatal_undefined {A} : short_fatal (undefined (A:=A)).
Proof. by apply short_fatal_quiet. Qed.

Lemma short_fatal_get_state : short_fatal get_state.
Proof. by apply short_fatal_quiet. Qed.

Lemma short_fatal_put_state (f : state → state) :
  (∀ s, trace (f s) = trace s) → short_fatal (put_state f).
Proof. intros H. by apply short_fatal_quiet. Qed.

Lemma short_fatal_emit (c : syscall) : is_short_write c = false → short_fatal (emit c).
Proof. intros Hc s. exists [c]. split; [done|]. left. by constructor. Qed.

Lemma short_fatal_bind {A B} (m : M A) (f : A → M B) :
  short_fatal m → (∀ a, short_fatal (f a)) → short_fatal (m ≫= f).
Proof.
  intros Hm Hf s. destruct (Hm s) as (r1 & Ht1 & Hr1).
  unfold mbind, M_bind.
  destruct (m s) as [a s1|n s1|s1|s1] eqn:Hms; simpl in *.
  - destruct Hr1 as [Hr1|(r0 & fd & c & s' & _ & _ & [=])].
    destruct (Hf a s1) as (r2 & Ht2 & Hr2).
    exists (r1 ++ r2). rewrite Ht2, Ht1, app_assoc. split; [done|].
    destruct Hr2 as [Hr2|(r0 & fd & c & s' & -> & Hr0 & Hfa)].
    + left. by apply Forall_app.
    + right. exists (r1 ++ r0), fd, c, s'. rewrite app_assoc. split; [done|].
      split; [by apply Forall_app|done].
  - exists r1. split; [done|].
    destruct Hr1 as [Hr1|(r0 & fd & c & s' & -> & Hr0 & [= -> ->])]; [by left|].
    right. by exists r0, fd, c, s'.
  - exists r1. split; [done|].
    destruct Hr1 as [Hr1|(r0 & fd & c & s' & _ & _ & [=])]. by left.
  - exists r1. split; [done|].
    destruct Hr1 as [Hr1|(r0 & fd & c & s' & _ & _ & [=])]. by left.
Qed.

Create HintDb fatal discriminated.

Ltac fatal_step :=
  first
    [ solve [auto with fatal]
    | apply short_fatal_ret | apply short_fatal_exit | apply short_fatal_pending
    | apply short_fatal_undefined | apply short_fatal_get_state
    | apply short_fatal_emit; done
    | apply short_fatal_put_state; done
    | apply short_fatal_bind; [|intros] ].

Ltac fatal_auto :=
  repeat first
    [ fatal_step
    | match goal with
      | |- short_fatal (if ?b then _ else _) => destruct b
      | |- short_fatal (match ?x with _ => _ end) => destruct x
      | |- short_fatal (let '(_, _) := ?x in _) => destruct x
      end ].

Section ShortWrites.
Variable g : globals.
Variable e : env.

Lemma pushShellspawnCommandData_fatal (sockfd : Z) (type : shellspawn_cmd_type_t)
    (data : option (list ascii)) (n : nat) :
  short_fatal (pushShellspawnCommandData e sockfd type data n).
Proof.
  intros s. unfold pushShellspawnCommandData. run.
  destruct (write_whole e (length (trace s))).
  - eexists [_]. split; [done|]. left. by constructor.
  - eexists [_]. split; [done|]. right. by eexists [], _, _, _.
Qed.
#[local] Hint Resolve pushShellspawnCommandData_fatal : fatal.

Lemma pushShellspawnCommand_fatal (sockfd : Z) (type : shellspawn_cmd_type_t)
    (value : option cstr) :
  short_fatal (pushShellspawnCommand e sockfd type value).
Proof. unfold pushShellspawnCommand. destruct value; auto with fatal. Qed.
#[local] Hint Resolve pushShellspawnCommand_fatal : fatal.

Lemma pushShellspawnCommandFDs_fatal (sockfd : Z) (type : shellspawn_cmd_type_t)
    (fds : Z * Z * Z) :
  short_fatal (pushShellspawnCommandFDs e sockfd type fds).
Proof. unfold pushShellspawnCommandFDs. destruct fds as [[fd0 fd1] fd2]. fatal_auto. Qed.
#[local] Hint Resolve pushShellspawnCommandFDs_fatal : fatal.

Lemma signalHandler_fatal (signo : Z) (win : winsize) :
  short_fatal (signalHandler e signo win).
Proof. unfold signalHandler. fatal_auto. Qed.
#[local] Hint Resolve signalHandler_fatal : fatal.

Lemma shellLoop_master_fatal (master : Z) (reads : list (option (list ascii))) :
  short_fatal (shellLoop_master master reads).
Proof. induction reads as [|r reads IH]; cbn [shellLoop_master]; fatal_auto. Qed.
#[local] Hint Resolve shellLoop_master_fatal : fatal.

Lemma shellLoop_stdin_fatal (master : Z) (reads : list (option Z * option (list ascii))) :
  short_fatal (shellLoop_stdin master reads).
Proof.
  induction reads as [|[fion r] reads IH]; cbn [shellLoop_stdin]; fatal_auto.
Qed.
#[local] Hint Resolve shellLoop_stdin_fatal : fatal.

Lemma shellLoop_body_fatal (sockfd master : Z) (fdcount : nat) (k : wakeup) :
  short_fatal (shellLoop_body sockfd master fdcount k).
Proof.
  unfold shellLoop_body, shellLoop_pty, shellLoop_sock, shellLoop_poll.
  fatal_auto. apply short_fatal_put_state. intros s. by destruct (wk_revents k).
Qed.
#[local] Hint Resolve shellLoop_body_fatal : fatal.

Lemma shellLoop_run_fatal (sockfd master : Z) (fdcount : nat) (evs : list event) :
  short_fatal (shellLoop_run e sockfd master fdcount evs).
Proof.
  induction evs as [|[signo win|k] evs IH]; cbn [shellLoop_run]; fatal_auto.
Qed.
#[local] Hint Resolve shellLoop_run_fatal : fatal.

Lemma shellLoop_fatal (sockfd master : Z) : short_fatal (shellLoop e sockfd master).
Proof. unfold shellLoop. fatal_auto. Qed.
#[local] Hint Resolve shellLoop_fatal : fatal.

Lemma spawnGo_fatal (sockfd : Z) (fds : Z * Z * Z) (master : Z) :
  short_fatal (spawnGo e sockfd fds master).
Proof. unfold spawnGo. fatal_auto. Qed.
#[local] Hint Resolve spawnGo_fatal : fatal.

Lemma connectToShellspawn_fatal : short_fatal (connectToShellspawn g e).
Proof. unfold connectToShellspawn. fatal_auto. Qed.
#[local] Hint Resolve connectToShellspawn_fatal : fatal.

Lemma setupShellspawnEnv_fatal (sockfd : Z) : short_fatal (setupShellspawnEnv e sockfd).
Proof. unfold setupShellspawnEnv. fatal_auto. Qed.
#[local] Hint Resolve setupShellspawnEnv_fatal : fatal.

Lemma setupWorkingDir_fatal (sockfd : Z) : short_fatal (setupWorkingDir g e sockfd).
Proof. apply pushShellspawnCommand_fatal. Qed.
#[local] Hint Resolve setupWorkingDir_fatal : fatal.

Lemma setupIDs_fatal (sockfd : Z) : short_fatal (setupIDs g e sockfd).
Proof. apply pushShellspawnCommandData_fatal. Qed.
#[local] Hint Resolve setupIDs_fatal : fatal.

Lemma setupFDs_fatal : short_fatal (setupFDs e).
Proof. unfold setupFDs, setupPtys, openpty_darling. fatal_auto. Qed.
#[local] Hint Resolve setupFDs_fatal : fatal.

Lemma spawnBinary_args_fatal (sockfd : Z) (argv : list cstr) :
  short_fatal (spawnBinary_args e sockfd argv).
Proof. induction argv as [|a argv IH]; cbn [spawnBinary_args]; fatal_auto. Qed.
#[local] Hint Resolve spawnBinary_args_fatal : fatal.

Lemma spawnShell_fatal (argv : option (list cstr)) : short_fatal (spawnShell g e argv).
Proof. unfold spawnShell. fatal_auto. Qed.
#[local] Hint Resolve spawnShell_fatal : fatal.

Lemma spawnBinary_fatal (binary : cstr) (argv : list cstr) :
  short_fatal (spawnBinary g e binary argv).
Proof. unfold spawnBinary. fatal_auto. Qed.
#[local] Hint Resolve spawnBinary_fatal : fatal.


End ShortWrites.






(** ** When the broker cannot be reached *)

Lemma memcpy_length (cs : list ascii) (b b' : heap) (i : nat) :
  memcpy b i cs = Some b' → length b' = length b.
Proof.
  revert b i. induction cs as [|c cs IH]; intros b i; cbn [memcpy]; [by intros [= ->]|].
  unfold store. case_decide; [|done]. cbn [mbind option_bind].
  intros Hm%IH. by rewrite Hm, length_insert.
Qed.

Lemma memcpy_None (cs : list ascii) (b : heap) (i : nat) :
  memcpy b i cs = None ↔ cs ≠ [] ∧ length b < i + length cs.
Proof.
  revert b i. induction cs as [|c cs IH]; intros b i; cbn [memcpy].
  - split; [done|]. by intros [? _].
  - unfold store. case_decide as Hi; cbn [mbind option_bind length].
    + rewrite IH, length_insert. split.
      * intros [_ ?]. split; [done|lia].
      * intros [_ ?]. split; [|lia]. destruct cs; [simpl in *; lia|done].
    + split; [|done]. intros _. split; [done|lia].
Qed.

Lemma connectToShellspawn_sun_path_None (g : globals) :
  connectToShellspawn_sun_path g = None
  ↔ sizeof_sun_path ≤ strlen (prefix g) + strlen (SHELLSPAWN_SOCKPATH g).
Proof.
  unfold strlen. split.
  - intros Hnone.
    destruct (decide (length (c_str (prefix g) ++ c_str (SHELLSPAWN_SOCKPATH g))
                      < sizeof_sun_path)) as [Hfit|Hfit].
    + by rewrite (connectToShellspawn_sun_path_eq g Hfit) in Hnone.
    + rewrite length_app in Hfit. lia.
  - intros Hbig. unfold connectToShellspawn_sun_path, sizeof_sun_path in *.
    rewrite store_malloc_0. cbn [mbind option_bind]. unfold strcpy, strcat.
    remember (replicate 107 None : heap) as tl eqn:Htl.
    assert (Hl : length tl = 107) by (by rewrite Htl, length_replicate).
    destruct (memcpy _ 0 (c_str (prefix g) ++ [NUL])) as [p|] eqn:Hcpy; [|done].
    cbn [mbind option_bind].
    assert (Hfit : length (c_str (prefix g)) < 108).
    { destruct (decide (length (c_str (prefix g)) < 108)) as [|Hn]; [done|].
      assert (Hc : memcpy (Some NUL :: tl) 0 (c_str (prefix g) ++ [NUL]) = None).
      { apply memcpy_None. split; [by destruct (c_str (prefix g))|].
        rewrite length_app. cbn [length]. lia. }
      congruence. }
    rewrite memcpy_0 in Hcpy by (rewrite length_app; cbn [length]; lia).
    injection Hcpy as <-. rewrite heap_string_front by apply c_str_no_NUL.
    cbn [fmap option_fmap option_map mbind option_bind].
    apply memcpy_None. split; [by destruct (c_str (SHELLSPAWN_SOCKPATH g))|].
    rewrite length_app, length_fmap, !length_app, length_drop. cbn [length]. lia.
Qed.

(** X14: the copy of the prefix and of the socket path into [sun_path]
    (108 bytes) stores outside the array exactly when the two lengths add up
    to 108 or more. *)
Theorem connectToShellspawn_overflow (g : globals) (e : env) (s : state) :
  connectToShellspawn g e s = Undefined s
  ↔ sizeof_sun_path ≤ strlen (prefix g) + strlen (SHELLSPAWN_SOCKPATH g).
Proof.
  rewrite <- connectToShellspawn_sun_path_None. unfold connectToShellspawn.
  destruct (connectToShellspawn_sun_path g) as [p|]; [|done].
  split; [|done]. run. repeat case_decide; done.
Qed.

Lemma main_spawn_cases (g : globals) (e : env) (argv : list cstr) (s : state) :
  main_spawn g e argv s = Ret 1%Z s
  ∨ ∃ m, spawn_call g e m ∧ main_spawn g e argv s = (m;; mret 0%Z) s.
Proof.
  unfold main_spawn. destruct argv as [|argv0 [|arg1 rest]]; [by left..|].
  destruct (streq arg1 (lit "shell")).
  - right. case_decide.
    + eexists. split; [|done]. constructor. destruct rest; [simpl in *; lia|done].
    + eexists. split; [|done]. constructor.
  - cbv zeta. destruct (_ && _); [by left|].
    destruct (realpath e _) as [path|]; [|by left]. right.
    destruct (streq arg1 (lit "exec")).
    + eexists. split; [|done]. constructor.
    + eexists. split; [|done]. by constructor.
Qed.

Lemma spawn_call_head (g : globals) (e : env) (m : M unit) :
  spawn_call g e m →
  ∃ rest : Z → M unit,
    ∀ s, m s = (sockfd ← connectToShellspawn g e;
                setupShellspawnEnv e sockfd;; rest sockfd) s.
Proof.
  intros [|argv Hne|binary argv].
  - eexists (λ sockfd, _). intros s. unfold spawnShell.
    rewrite (bind_Ret _ _ s s _ eq_refl). cbv beta iota. reflexivity.
  - eexists (λ sockfd, _). intros s. unfold spawnShell.
    rewrite spawnShell_buffer_front by done.
    rewrite (bind_Ret _ _ s s _ eq_refl). cbv beta iota. reflexivity.
  - eexists (λ sockfd, _). intros s. unfold spawnBinary. reflexivity.
Qed.

Section Failures.
Variable g : globals.
Variable e : env.
Hypothesis fits :
  length (c_str (prefix g) ++ c_str (SHELLSPAWN_SOCKPATH g)) < sizeof_sun_path.

Lemma connectToShellspawn_fails (s : state) :
  socket_ret e = (-1)%Z ∨ connect_ret e = (-1)%Z →
  ∃ s', connectToShellspawn g e s = Exit 1 s'
        ∧ (trace s' = trace s ∨ ∃ p, trace s' = trace s ++ [sys_connect (socket_ret e) p]).
Proof.
  intros Hfail. unfold connectToShellspawn.
  rewrite (connectToShellspawn_sun_path_eq g fits). run.
  case_decide; [exists s; by split; [|left]|]. case_decide; [|by destruct Hfail].
  eexists. split; [done|]. right. by eexists.
Qed.

Lemma setupShellspawnEnv_no_login (sockfd : Z) (s : state) :
  (∀ n, write_whole e n = true) →
  login_name e = None →
  ∃ s', setupShellspawnEnv e sockfd s = Exit 1 s'
        ∧ wire (trace s')
          = wire (trace s)
            ++ [(string_cmd SHELLSPAWN_SETENV
                   (lit "PATH=/usr/bin:/bin:/usr/sbin:/sbin:/usr/local/bin"), []);
                (string_cmd SHELLSPAWN_SETENV (lit "TMPDIR=/private/tmp"), [])].
Proof.
  intros Hw Hlogin. unfold setupShellspawnEnv. run.
  rewrite !(pushShellspawnCommand_ok e Hw) by (by apply (bool_decide_unpack _)).
  rewrite Hlogin. eexists. split; [done|]. rewrite !wire_log. cbn [wire omap].
  by rewrite <- app_assoc.
Qed.

End Failures.

(** X15: when the socket cannot be created or the connection is refused,
    every invocation that gets to the last part of [main] (its first argument
    is not an option and not [shutdown]) ends with status 1, having made at
    most the [connect] call: no command is written and no descriptor is
    sent. *)
Theorem main_spawn_unreachable (g : globals) (e : env) (argv : list cstr) (s : state) :
  spawn_request argv →
  length (c_str (prefix g) ++ c_str (SHELLSPAWN_SOCKPATH g)) < sizeof_sun_path →
  socket_ret e = (-1)%Z ∨ connect_ret e = (-1)%Z →
  ∃ s', (main_spawn g e argv s = Exit 1 s' ∨ main_spawn g e argv s = Ret 1%Z s')
        ∧ (trace s' = trace s
           ∨ ∃ p, trace s' = trace s ++ [sys_connect (socket_ret e) p]).
Proof.
  intros _ Hfit Hfail.
  destruct (main_spawn_cases g e argv s) as [H|(m & Hm & H)].
  - exists s. split; [by right|by left].
  - destruct (spawn_call_head g e m Hm) as (rest & Hrest).
    destruct (connectToShellspawn_fails g e Hfit s Hfail) as (s' & Hc & Ht).
    exists s'. split; [|done]. left. rewrite H.
    apply bind_Exit. rewrite Hrest. by apply bind_Exit.
Qed.

Lemma main_spawn_unreachable_witness :
  ∃ s', (main_spawn example_globals (example_env_refused [])
           [lit "darling"; lit "shell"] initial_state = Exit 1 s'
         ∨ main_spawn example_globals (example_env_refused [])
             [lit "darling"; lit "shell"] initial_state = Ret 1%Z s')
        ∧ (trace s' = trace initial_state
           ∨ ∃ p, trace s' = trace initial_state
                             ++ [sys_connect (socket_ret (example_env_refused [])) p]).
Proof.
  apply (main_spawn_unreachable example_globals (example_env_refused [])
           [lit "darling"; lit "shell"] initial_state).
  - split; [done|reflexivity].
  - vm_compute. lia.
  - by right.
Defined.

(** X16: when the broker is reachable but neither the password database
    nor [getlogin] gives a user name, a request that gets as far as the
    broker stops with [exit(1)] after the PATH and TMPDIR SetEnv commands: no
    HOME is sent, no program is named and no Go follows. *)
Theorem main_spawn_no_login (g : globals) (e : env) (argv : list cstr) (s : state) :
  length (c_str (prefix g) ++ c_str (SHELLSPAWN_SOCKPATH g)) < sizeof_sun_path →
  socket_ret e ≠ (-1)%Z → connect_ret e ≠ (-1)%Z →
  (∀ n, write_whole e n = true) →
  login_name e = None →
  main_spawn g e argv s = Ret 1%Z s
  ∨ ∃ s', main_spawn g e argv s = Exit 1 s'
          ∧ wire (trace s')
            = wire (trace s)
              ++ [(string_cmd SHELLSPAWN_SETENV
                     (lit "PATH=/usr/bin:/bin:/usr/sbin:/sbin:/usr/local/bin"), []);
                  (string_cmd SHELLSPAWN_SETENV (lit "TMPDIR=/private/tmp"), [])].
Proof.
  intros Hfit Hsock Hconn Hw Hlogin.
  destruct (main_spawn_cases g e argv s) as [H|(m & Hm & H)]; [by left|right].
  destruct (spawn_call_head g e m Hm) as (rest & Hrest).
  destruct (connectToShellspawn_ok g e s Hfit Hsock Hconn) as (sun_path & Hc).
  destruct (setupShellspawnEnv_no_login e (socket_ret e)
              (log (sys_connect (socket_ret e) sun_path) s) Hw Hlogin) as (s' & He & Hwire).
  exists s'. split.
  - rewrite H. apply bind_Exit. rewrite Hrest.
    rewrite (bind_Ret _ _ _ _ _ Hc). by apply bind_Exit.
  - rewrite Hwire, wire_log. cbn [wire omap]. by rewrite app_nil_r.
Qed.

Lemma main_spawn_no_login_witness :
  main_spawn example_globals (example_env_nobody [])
    [lit "darling"; lit "exec"; lit "/bin/ls"] initial_state = Ret 1%Z initial_state
  ∨ ∃ s', main_spawn example_globals (example_env_nobody [])
            [lit "darling"; lit "exec"; lit "/bin/ls"] initial_state = Exit 1 s'
          ∧ wire (trace s')
            = wire (trace initial_state)
              ++ [(string_cmd SHELLSPAWN_SETENV
                     (lit "PATH=/usr/bin:/bin:/usr/sbin:/sbin:/usr/local/bin"), []);
                  (string_cmd SHELLSPAWN_SETENV (lit "TMPDIR=/private/tmp"), [])].
Proof.
  apply (main_spawn_no_login example_globals (example_env_nobody [])
           [lit "darling"; lit "exec"; lit "/bin/ls"] initial_state).
  - vm_compute. lia.
  - done.
  - done.
  - done.
  - reflexivity.
Defined.

(** ** Numbers printed and read back *)

Lemma digit_of_digit_char (d : Z) : (0 ≤ d ≤ 9)%Z → digit_of (digit_char d) = Some d.
Proof.
  intros Hd. unfold digit_of, digit_char. rewrite Z_of_byte_byte_of.
  rewrite Z.mod_small by lia. rewrite decide_True by lia. f_equal. lia.
Qed.

Lemma is_digit_digit_char (n : Z) : is_digit (digit_char (n `mod` 10)).
Proof.
  exists (n `mod` 10)%Z. apply digit_of_digit_char.
  pose proof (Z.mod_pos_bound n 10). lia.
Qed.

Lemma print_digits_digits (fuel : nat) (n : Z) (acc : list ascii) :
  Forall is_digit acc → Forall is_digit (print_digits fuel n acc).
Proof.
  revert n acc. induction fuel as [|fuel IH]; intros n acc Hacc; cbn [print_digits]; [done|].
  case_decide.
  - constructor; [apply is_digit_digit_char|done].
  - apply IH. constructor; [apply is_digit_digit_char|done].
Qed.

Lemma print_digits_cons (fuel : nat) (n : Z) (acc : list ascii) :
  ∃ c l, print_digits (S fuel) n acc = c :: l ∧ is_digit c.
Proof.
  pose proof (print_digits_digits (S fuel) n [] ltac:(constructor)) as Hall.
  revert n acc Hall. induction fuel as [|fuel IH]; intros n acc Hall.
  - cbn [print_digits]. case_decide; eexists _, _; (split; [done|apply is_digit_digit_char]).
  - remember (S fuel) as f. cbn [print_digits]. case_decide.
    + eexists _, _. split; [done|apply is_digit_digit_char].
    + subst f. apply IH. apply print_digits_digits. constructor.
Qed.

Lemma scan_digits_print (fuel : nat) (n : Z) (acc rest : list ascii) :
  (0 ≤ n < 10 ^ Z.of_nat fuel)%Z →
  scan_digits (print_digits fuel n acc ++ rest) 0 = scan_digits (acc ++ rest) n.
Proof.
  revert n acc. induction fuel as [|fuel IH]; intros n acc Hn; cbn [print_digits].
  - change (10 ^ Z.of_nat 0)%Z with 1%Z in Hn. by replace n with 0%Z by lia.
  - rewrite Nat2Z.inj_succ, Z.pow_succ_r in Hn by lia.
    pose proof (Z.mod_pos_bound n 10 ltac:(lia)) as Hmod.
    pose proof (Z.div_mod n 10 ltac:(lia)) as Hdiv.
    case_decide as Hsmall.
    + rewrite <- app_comm_cons. cbn [scan_digits].
      rewrite digit_of_digit_char by lia. f_equal. rewrite Z.mod_small; lia.
    + rewrite IH by (split; [apply Z.div_pos; lia|apply Z.div_lt_upper_bound; lia]).
      rewrite <- app_comm_cons. cbn [scan_digits].
      rewrite digit_of_digit_char by lia. f_equal. lia.
Qed.

Lemma scan_digits_stop (rest : list ascii) (n : Z) :
  head rest ≫= digit_of = None → scan_digits rest n = (n, rest).
Proof.
  destruct rest as [|c rest]; [done|]. cbn [head mbind option_bind scan_digits].
  by intros ->.
Qed.

Lemma is_digit_not_space (c : ascii) : is_digit c → isspace c = false.
Proof.
  intros [d Hd]. unfold digit_of in Hd. case_decide as Hc; [|done].
  unfold isspace. apply bool_decide_eq_false. intros Hin.
  repeat (apply elem_of_cons in Hin as [->|Hin];
          [exfalso; revert Hc; apply (bool_decide_unpack _); vm_compute; exact I|]).
  by apply elem_of_nil in Hin.
Qed.

Lemma is_digit_not_sign (c : ascii) : is_digit c → c ≠ "-"%char ∧ c ≠ "+"%char.
Proof.
  intros [d Hd]. unfold digit_of in Hd. case_decide as Hc; [|done].
  split; intros ->; revert Hc; apply (bool_decide_unpack _); vm_compute; exact I.
Qed.

Lemma scan_d_digits (fuel : nat) (n : Z) (rest : list ascii) :
  (0 ≤ n < 10 ^ Z.of_nat (S fuel))%Z →
  head rest ≫= digit_of = None →
  scan_d (print_digits (S fuel) n [] ++ rest) = Some (to_int (to_long n), rest).
Proof.
  intros Hn Hrest. unfold scan_d.
  pose proof (scan_digits_print (S fuel) n [] rest Hn) as Hscan.
  destruct (print_digits_cons fuel n []) as (c & l & Heq & Hc). rewrite Heq in *.
  rewrite <- app_comm_cons in *. cbn [skip_space]. rewrite (is_digit_not_space c Hc).
  destruct (is_digit_not_sign c Hc) as [Hm Hp]. unfold scan_sign.
  rewrite decide_False, decide_False by done.
  destruct Hc as [d Hd]. rewrite Hd, Hscan. cbn [app].
  by rewrite scan_digits_stop.
Qed.

Lemma scan_d_print_u (u : Z) (rest : list ascii) :
  (0 ≤ u < 2 ^ 32)%Z →
  head rest ≫= digit_of = None →
  scan_d (print_u u ++ rest) = Some (to_int u, rest).
Proof.
  intros Hu Hrest. unfold print_u. rewrite scan_d_digits by (done || lia).
  do 3 f_equal. unfold to_long. lia.
Qed.

Lemma to_int_id (z : Z) : (- 2 ^ 31 ≤ z < 2 ^ 31)%Z → to_int z = z.
Proof. intros Hz. unfold to_int. rewrite Z.mod_small; lia. Qed.

Lemma scan_d_print_d (z : Z) (rest : list ascii) :
  (- 2 ^ 31 ≤ z < 2 ^ 31)%Z →
  head rest ≫= digit_of = None →
  scan_d (print_d z ++ rest) = Some (z, rest).
Proof.
  intros Hz Hrest. unfold print_d. case_decide as Hneg.
  - unfold scan_d, print_u.
    pose proof (scan_digits_print 20 (- z) [] rest ltac:(lia)) as Hscan.
    destruct (print_digits_cons 19 (- z) []) as (c & l & Heq & Hc). rewrite Heq in *.
    rewrite <- !app_comm_cons in *.
    assert (Hsp : isspace "-" = false) by (by vm_compute).
    cbn [skip_space]. rewrite Hsp.
    unfold scan_sign. rewrite decide_True by done.
    destruct Hc as [d Hd]. rewrite Hd, Hscan. cbn [app].
    rewrite scan_digits_stop by done. rewrite Z.opp_involutive.
    unfold to_long. rewrite Z.max_r, Z.min_r by lia. by rewrite to_int_id.
  - rewrite scan_d_print_u by (done || lia). by rewrite to_int_id by lia.
Qed.

(** ** The pid record, written and read back *)

Lemma skip_space_idemp (s : list ascii) : skip_space (skip_space s) = skip_space s.
Proof.
  induction s as [|c s IH]; [done|]. cbn [skip_space].
  destruct (isspace c) eqn:Hc; [done|]. cbn [skip_space]. by rewrite Hc.
Qed.

Lemma scan_d_skip_space (s : list ascii) : scan_d (skip_space s) = scan_d s.
Proof. unfold scan_d. by rewrite skip_space_idemp. Qed.

Lemma match_literal_app (l s : list ascii) : match_literal l (l ++ s) = Some s.
Proof.
  induction l as [|c l IH]; [by destruct s|]. cbn [match_literal app].
  by rewrite decide_True.
Qed.

Lemma is_digit_not_NUL (l : list ascii) : Forall is_digit l → NUL ∉ l.
Proof.
  intros Hl Hin. rewrite Forall_forall in Hl. destruct (Hl _ Hin) as [d Hd]. done.
Qed.

Lemma print_u_no_NUL (u : Z) : NUL ∉ print_u u.
Proof. apply is_digit_not_NUL, print_digits_digits. constructor. Qed.

Lemma to_unsigned_to_int (id : Z) : (0 ≤ id < 2 ^ 32)%Z → to_unsigned (to_int id) = id.
Proof.
  intros Hid. unfold to_unsigned, to_int.
  destruct (decide (id < 2 ^ 31)%Z).
  - rewrite (Z.mod_small (id + 2 ^ 31)) by lia. rewrite Z.mod_small; lia.
  - replace ((id + 2 ^ 31) `mod` 2 ^ 32)%Z with (id - 2 ^ 31)%Z
      by (apply Z.mod_unique with 1%Z; lia).
    symmetry. apply Z.mod_unique with (-1)%Z; lia.
Qed.

Lemma sscanf_ids_line (tag : string) (id : Z) :
  NUL ∉ lit tag →
  (0 ≤ id < 2 ^ 32)%Z →
  sscanf_ids tag (ids_line tag id) = Some (to_int id, to_int id, to_int id, to_int id).
Proof.
  intros Htag Hid. unfold sscanf_ids, ids_line.
  rewrite c_str_id.
  - rewrite match_literal_app. cbn [mbind option_bind fmap list_fmap concat].
    repeat (rewrite <- app_assoc || rewrite <- app_comm_cons). rewrite app_nil_l.
    assert (Htab : ∀ l, scan_d (skip_space (TAB :: l)) = scan_d l).
    { intros l. cbn [skip_space]. change (isspace TAB) with true. cbv iota.
      apply scan_d_skip_space. }
    rewrite Htab, scan_d_print_u by done. cbn [mbind option_bind].
    rewrite Htab, scan_d_print_u by done. cbn [mbind option_bind].
    rewrite Htab, scan_d_print_u by done. cbn [mbind option_bind].
    rewrite Htab, scan_d_print_u by done. done.
  - cbn [fmap list_fmap concat]. rewrite !not_elem_of_app, !not_elem_of_cons.
    pose proof (print_u_no_NUL id). repeat split; try done. all: try apply not_elem_of_nil.
Qed.

Lemma sscanf_ids_other_tag (tag : string) (c d : ascii) (rest : list ascii) :
  c ≠ d → d ≠ NUL →
  sscanf_ids (String c tag) (d :: rest) = None.
Proof.
  intros Hcd Hd. unfold sscanf_ids. cbn [c_str]. rewrite decide_False by done.
  change (lit (String c tag)) with (c :: lit tag). cbn [match_literal].
  by rewrite decide_False.
Qed.

Lemma getInitProcess_line_inert (g : globals) (ls : list (list ascii)) (m : bool * bool) :
  Forall (λ l, sscanf_ids "Uid:" l = None ∧ sscanf_ids "Gid:" l = None) ls →
  fold_left (getInitProcess_line g) ls m = m.
Proof.
  intros Hls. revert m. induction Hls as [|l ls [Hu Hg] _ IH]; intros [u v]; [done|].
  cbn [fold_left]. unfold getInitProcess_line at 2. by rewrite Hu, Hg, IH.
Qed.

(** X17: the record that [putInitPid] writes for the daemon it has just
    started is accepted by [getInitProcess] on the next launch: when that
    process is alive, is named [darlingserver] and its status file shows the
    invoking user's ids, [getInitProcess] returns its pid and keeps the
    record. *)
Theorem getInitProcess_after_putInitPid (g : globals) (h : host) (pid : Z)
    (status : list ascii) (pre post : list (list ascii)) :
  (- 2 ^ 31 ≤ pid < 2 ^ 31)%Z →
  kill0 h pid ≠ (-1)%Z →
  proc_comm h pid = Some (lit "darlingserver" ++ [NEWLINE]) →
  (0 ≤ g_originalUid g < 2 ^ 32)%Z →
  (0 ≤ g_originalGid g < 2 ^ 32)%Z →
  proc_status h pid = Some status →
  getlines status
  = pre ++ [ids_line "Uid:" (g_originalUid g); ids_line "Gid:" (g_originalGid g)] ++ post →
  Forall (λ l, sscanf_ids "Uid:" l = None ∧ sscanf_ids "Gid:" l = None) pre →
  Forall (λ l, sscanf_ids "Uid:" l = None ∧ sscanf_ids "Gid:" l = None) post →
  getInitProcess g (putInitPid true pid h) = (pid, putInitPid true pid h).
Proof.
  intros Hpid Hkill Hcomm Huid Hgid Hstatus Hlines Hpre Hpost.
  unfold getInitProcess, putInitPid.
  cbn [init_pid kill0 proc_comm proc_status].
  rewrite <- (app_nil_r (print_d pid)), scan_d_print_d by done.
  rewrite decide_False by done. rewrite Hcomm.
  change (scan_ms (lit "darlingserver" ++ [NEWLINE]))
    with (Some (lit "darlingserver", [NEWLINE])).
  change (streq (lit "darlingserver") (lit "darlingserver")) with true.
  cbn [negb]. case_decide; [|done]. rewrite Hstatus, Hlines.
  rewrite !fold_left_app, getInitProcess_line_inert by done.
  cbn [fold_left]. rewrite getInitProcess_line_inert by done.
  unfold getInitProcess_line.
  rewrite !sscanf_ids_line by (done || by apply (bool_decide_unpack _)).
  unfold ids_line. change (lit "Uid:") with ("U"%char :: lit "id:").
  change (lit "Gid:") with ("G"%char :: lit "id:"). rewrite <- !app_comm_cons.
  rewrite !sscanf_ids_other_tag by done.
  unfold ids_match, id_eq. rewrite !to_unsigned_to_int by done.
  by rewrite !bool_decide_eq_true_2.
Qed.

Lemma getInitProcess_after_putInitPid_witness :
  getInitProcess example_globals
    (putInitPid true 4242 (example_host "darlingserver" ["1000"; "1000"; "1000"; "1000"]%string))
  = (4242%Z,
     putInitPid true 4242
       (example_host "darlingserver" ["1000"; "1000"; "1000"; "1000"]%string)).
Proof.
  apply (getInitProcess_after_putInitPid example_globals
           (example_host "darlingserver" ["1000"; "1000"; "1000"; "1000"]%string) 4242
           (status_line "Name:" ["darlingserver"%string]
            ++ status_line "Uid:" ["1000"; "1000"; "1000"; "1000"]%string
            ++ status_line "Gid:" ["1000"; "1000"; "1000"; "1000"]%string)
           [status_line "Name:" ["darlingserver"%string]] []).
  - lia.
  - done.
  - reflexivity.
  - change (0 ≤ 1000 < 2 ^ 32)%Z. lia.
  - change (0 ≤ 1000 < 2 ^ 32)%Z. lia.
  - reflexivity.
  - reflexivity.
  - repeat constructor.
  - constructor.
Defined.

(** ** Shutdown *)

(** X18: [darling shutdown] kills the first process listed as a child of
    the init process and then the init process itself, and returns 0; when
    the init process has no child, nothing is killed and the status is 1. *)
Theorem main_shutdown_children (pidInit : Z) (pids : list Z) :
  pidInit ≠ 0%Z →
  Forall (λ p, - 2 ^ 31 ≤ p < 2 ^ 31)%Z pids →
  main_shutdown pidInit (Some (children_file pids))
  = match pids with
    | [] => (1%Z, [])
    | p :: _ => (0%Z, [(p, SIGKILL); (pidInit, SIGKILL)])
    end.
Proof.
  intros Hinit Hpids. unfold main_shutdown. rewrite decide_False by done.
  destruct Hpids as [|p pids Hp _]; [done|].
  unfold children_file. cbn [fmap list_fmap concat]. rewrite <- app_assoc.
  by rewrite scan_d_print_d.
Qed.

Lemma main_shutdown_children_witness :
  main_shutdown 4242 (Some (children_file [4243; 4250]%Z))
  = (0%Z, [(4243%Z, SIGKILL); (4242%Z, SIGKILL)]).
Proof.
  apply (main_shutdown_children 4242 [4243; 4250]%Z).
  - done.
  - repeat constructor; lia.
Defined.

(** ** Paths under the prefix *)

Lemma strcpy_strcat_exact (a b : cstr) :
  strcpy (malloc (strlen a + (strlen b + 1))) a ≫= (λ p, strcat p b)
  = Some (Some <$> ((c_str a ++ c_str b) ++ [NUL])).
Proof.
  unfold strlen, malloc. rewrite strcpy_strcat by (rewrite length_replicate; lia).
  rewrite drop_ge by (rewrite length_replicate, length_app; lia).
  by rewrite app_nil_r.
Qed.

(** X19: the block that [defaultPrefixPath] allocates is exactly as long as
    what it stores: the home directory, [/.darling] and the terminator fill
    it, no store falls outside and no byte is left unset. *)
Theorem defaultPrefixPath_exact (home : cstr) :
  defaultPrefixPath (Some home)
  = Some (Some (Some <$> ((c_str home ++ lit "/.darling") ++ [NUL]))).
Proof.
  unfold defaultPrefixPath.
  pose proof (strcpy_strcat_exact home (lit "/.darling")) as H.
  change (strlen (lit "/.darling") + 1) with (sizeof_lit "/.darling") in H.
  cbv zeta. destruct (strcpy _ home) as [buf|]; [|done].
  cbn [mbind option_bind] in *. by rewrite H.
Qed.

(** X20: [putInitPid] and [getInitProcess] build the same path, the prefix
    followed by [/.init.pid], in a block that it fills exactly. *)
Theorem pidPath_exact (g : globals) :
  pidPath g = Some (Some <$> ((c_str (prefix g) ++ lit "/.init.pid") ++ [NUL])).
Proof. unfold pidPath. apply (strcpy_strcat_exact (prefix g) (lit "/.init.pid")). Qed.

Lemma strip_slashes_snoc (p : list ascii) (c : ascii) :
  strip_slashes (p ++ [c]) = if decide (c = SLASH) then strip_slashes p else p ++ [c].
Proof.
  induction p as [|a p IH]; cbn [app strip_slashes].
  - by case_decide.
  - rewrite IH. case_decide; [done|]. by destruct p.
Qed.

Lemma strip_slashes_split (p : list ascii) :
  ∃ t, p = strip_slashes p ++ t ∧ Forall (λ c, c = SLASH) t.
Proof.
  induction p as [|c p (t & Hp & Ht)] using rev_ind; [by exists []|].
  rewrite strip_slashes_snoc. case_decide as Hc.
  - exists (t ++ [c]). rewrite app_assoc, <- Hp. split; [done|].
    apply Forall_app. split; [done|]. by constructor.
  - exists []. by rewrite app_nil_r.
Qed.

Lemma strip_slashes_nil (p : list ascii) :
  strip_slashes p = [] ↔ Forall (λ c, c = SLASH) p.
Proof.
  induction p as [|c p IH] using rev_ind; [done|].
  rewrite strip_slashes_snoc, Forall_app, Forall_singleton. case_decide.
  - rewrite IH. tauto.
  - split; [by destruct p|tauto].
Qed.

Lemma strip_slashes_no_NUL (p : list ascii) : NUL ∉ p → NUL ∉ strip_slashes p.
Proof.
  intros Hp Hin. destruct (strip_slashes_split p) as (t & Heq & _).
  apply Hp. rewrite Heq. apply elem_of_app. by left.
Qed.

Lemma setupWorkdir_strip_spec (p : list ascii) (tail : heap) :
  setupWorkdir_strip ((Some <$> p) ++ tail) (length p)
  = if decide (strip_slashes p = []) then None else Some (length (strip_slashes p)).
Proof.
  revert tail. induction p as [|c p IH] using rev_ind; intros tail; [done|].
  rewrite length_app, Nat.add_1_r. cbn [setupWorkdir_strip].
  rewrite fmap_app, <- app_assoc. cbn [fmap list_fmap app].
  rewrite lookup_app_r by (by rewrite length_fmap).
  rewrite length_fmap, Nat.sub_diag. cbn [lookup list_lookup].
  rewrite strip_slashes_snoc. destruct (decide (c = SLASH)) as [Hc|Hc].
  - apply IH.
  - rewrite decide_False by (by destruct p). by rewrite length_app, Nat.add_1_r.
Qed.

Lemma setupWorkdir_path_cases (g : globals) :
  let q := strip_slashes (c_str (prefix g)) in
  if decide (q = []) then setupWorkdir_path g = None
  else ∃ rest, setupWorkdir_path g
               = Some ((Some <$> ((q ++ lit ".workdir") ++ [NUL])) ++ rest).
Proof.
  unfold setupWorkdir_path, strlen, strcpy, malloc.
  change (sizeof_lit ".workdir") with 9.
  set (p := c_str (prefix g)). cbv zeta.
  rewrite memcpy_0 by (rewrite length_replicate, length_app; cbn [length]; lia).
  cbn [mbind option_bind]. rewrite fmap_app, <- app_assoc.
  rewrite setupWorkdir_strip_spec. case_decide as Hnil; [done|].
  cbn [mbind option_bind].
  destruct (strip_slashes_split p) as (t & Hp & Ht).
  set (q := strip_slashes p) in *.
  assert (Hq : NUL ∉ q) by (apply strip_slashes_no_NUL, c_str_no_NUL).
  clearbody q p. subst p. clear Hnil Ht.
  rewrite drop_replicate, !length_app. cbn [length].
  replace (length q + length t + 9 - (length q + length t + 1)) with 8 by lia.
  rewrite fmap_app, <- app_assoc.
  assert (Hblock : ∃ x rest,
             (Some <$> t) ++ (Some <$> [NUL]) ++ replicate 8 None = x :: rest
             ∧ 8 ≤ length rest).
  { destruct t as [|c t].
    - exists (Some NUL), (replicate 8 None). split; [done|]. by rewrite length_replicate.
    - exists (Some c), ((Some <$> t) ++ (Some <$> [NUL]) ++ replicate 8 None).
      split; [done|]. rewrite !length_app, length_replicate. lia. }
  destruct Hblock as (x & rest & -> & Hrest).
  rewrite store_front. cbn [mbind option_bind]. unfold strcat.
  rewrite heap_string_front by done.
  cbn [fmap option_fmap option_map mbind option_bind].
  rewrite fmap_app, <- app_assoc. cbn [fmap list_fmap app].
  change (c_str (lit ".workdir")) with (lit ".workdir").
  rewrite memcpy_front
    by (change (length (lit ".workdir" ++ [NUL])) with 9; cbn [length]; lia).
  eexists. by rewrite <- app_assoc.
Qed.

(** X21: [setupWorkdir] names the directory next to the prefix: the prefix
    without its trailing slashes, followed by [.workdir]. *)
Theorem setupWorkdir_path_spec (g : globals) :
  ¬ Forall (λ c, c = SLASH) (c_str (prefix g)) →
  ∃ workdir,
    setupWorkdir_path g = Some workdir
    ∧ heap_string workdir
      = Some (strip_slashes (c_str (prefix g)) ++ lit ".workdir").
Proof.
  intros Hne. pose proof (setupWorkdir_path_cases g) as H. cbv zeta in H.
  rewrite decide_False in H by (by rewrite strip_slashes_nil).
  destruct H as (rest & ->). eexists. split; [done|].
  apply heap_string_front. rewrite not_elem_of_app. split.
  - apply strip_slashes_no_NUL, c_str_no_NUL.
  - by apply (bool_decide_unpack _).
Qed.

Lemma setupWorkdir_path_spec_witness :
  ∃ workdir,
    setupWorkdir_path example_globals = Some workdir
    ∧ heap_string workdir
      = Some (strip_slashes (c_str (prefix example_globals)) ++ lit ".workdir").
Proof.
  apply (setupWorkdir_path_spec example_globals).
  intros H. by apply Forall_cons in H as [_ [[=] _]%Forall_cons].
Defined.

(** X22: for a prefix made of slashes only (the root directory [/]), and for
    the empty prefix, the loop that strips trailing slashes runs off the
    front of the block: it reads the byte before [workdir]. For every other
    prefix all reads and stores of [setupWorkdir] stay inside the block. *)
Theorem setupWorkdir_out_of_bounds (g : globals) :
  setupWorkdir_path g = None ↔ Forall (λ c, c = SLASH) (c_str (prefix g)).
Proof.
  pose proof (setupWorkdir_path_cases g) as H. cbv zeta in H.
  rewrite <- strip_slashes_nil. case_decide as Hq.
  - by rewrite H.
  - destruct H as (rest & ->). done.
Qed.

(** ** The prefix on disk *)

Lemma fbind_FRet {A B} (m : F A) (f : A → F B) (w w1 : world) (a : A) :
  m w = FRet a w1 → (m ≫= f) w = f a w1.
Proof. intros H. unfold mbind, F_bind. by rewrite H. Qed.

Ltac fstep H := rewrite (fbind_FRet _ _ _ _ _ H); cbv beta iota.

Lemma lift_Some {A B} (a : A) (f : A → F B) (w : world) : (lift (Some a) ≫= f) w = f a w.
Proof. done. Qed.

Lemma components_from_app_slash (cur p d : list ascii) :
  components_from cur (p ++ SLASH :: d) = components_from cur p ++ components_from [] d.
Proof.
  revert cur. induction p as [|c p IH]; intros cur; cbn [app components_from].
  - rewrite decide_True by done. by destruct cur.
  - case_decide; [destruct cur|]; by rewrite IH.
Qed.

Lemma is_abs_app (p q : list ascii) : p ≠ [] → is_abs (p ++ q) = is_abs p.
Proof. by destruct p. Qed.

Lemma resolve_under (w : world) (p d : list ascii) :
  NUL ∉ p → NUL ∉ d → p ≠ [] →
  resolve w ((p ++ [SLASH]) ++ d) = resolve w p ++ components d.
Proof.
  intros Hp Hd Hne. unfold resolve.
  rewrite (c_str_id p) by done.
  rewrite c_str_id.
  - rewrite <- (app_assoc p), is_abs_app by done. cbn [app].
    unfold components. by rewrite components_from_app_slash, app_assoc.
  - rewrite !not_elem_of_app, not_elem_of_cons. repeat split; try done.
    apply not_elem_of_nil.
Qed.

Lemma setupPrefix_path_ok (pre : list ascii) (rest : heap) (s : string) (w : world) :
  NUL ∉ pre → NUL ∉ lit s → length (lit s) < length rest →
  ∃ rest',
    setupPrefix_path ((Some <$> pre) ++ rest) (length pre) s w
    = FRet ((Some <$> pre) ++ rest', pre ++ lit s) w
    ∧ length rest' = length rest.
Proof.
  intros Hpre Hs Hlen. destruct rest as [|x tail]; [simpl in Hlen; lia|].
  cbn [length] in Hlen. unfold setupPrefix_path.
  rewrite store_front, lift_Some.
  unfold strcat. rewrite heap_string_front by done.
  cbn [fmap option_fmap option_map mbind option_bind].
  rewrite fmap_app, <- app_assoc. cbn [fmap list_fmap app].
  rewrite (c_str_id (lit s)) by done.
  rewrite memcpy_front by (rewrite length_app; cbn [length]; lia).
  rewrite lift_Some.
  rewrite app_assoc, heap_string_front
    by (rewrite not_elem_of_app; by split).
  rewrite lift_Some.
  exists ((Some <$> (lit s ++ [NUL]))
          ++ drop (length (lit s ++ [NUL])) (Some NUL :: tail)). split.
  - unfold mret, F_ret. do 2 f_equal. by rewrite <- !app_assoc, !fmap_app, <- !app_assoc.
  - rewrite length_app, length_fmap, length_drop, !length_app. cbn [length]. lia.
Qed.

Lemma below_ext (pk : key) (w0 : world) (u : Z) (c c' : key → option node) (w : world) :
  (∀ r, c r = c' r) → below pk w0 u c w → below pk w0 u c' w.
Proof.
  intros Hc (Hcwd & Heuid & Hden & Hin & Hout). repeat split; try done.
  intros r. by rewrite Hin.
Qed.

Lemma below_set_fs (pk : key) (w0 : world) (u : Z) (c : key → option node) (w : world)
    (r : key) (n : node) :
  below pk w0 u c w → below pk w0 u (upd c r n) (set_fs (pk ++ r) n w).
Proof.
  intros (Hcwd & Heuid & Hden & Hin & Hout). repeat split; try done.
  - intros r'. cbn [fs set_fs]. unfold upd. rewrite Hin.
    destruct (decide (r' = r)) as [->|Hne]; [by rewrite decide_True|].
    rewrite decide_False; [done|]. by intros ?%app_inv_head.
  - intros k Hk. cbn [fs set_fs]. rewrite decide_False by apply Hk. by apply Hout.
Qed.

Lemma below_resolve (pk : key) (w0 : world) (u : Z) (c : key → option node) (w : world)
    (path : cstr) :
  below pk w0 u c w → resolve w path = resolve w0 path.
Proof. intros (Hcwd & _). unfold resolve. by rewrite Hcwd. Qed.

Lemma createDir_new (pk : key) (w0 : world) (u v : Z) (c : key → option node)
    (w : world) (path : cstr) (r : key) :
  below pk w0 u c w →
  c_str path ≠ [] →
  resolve w path = pk ++ r →
  c r = None →
  fs w (removelast (pk ++ r)) = Some (Dir v) →
  ∃ w', createDir path w = FRet tt w' ∧ below pk w0 u (upd c r (Dir u)) w'.
Proof.
  intros Hb Hne Hres Hnone Hparent.
  pose proof Hb as (Hcwd & Heuid & Hden & Hin & Hout).
  exists (set_fs (pk ++ r) (Dir u) w). split; [|by apply below_set_fs].
  unfold createDir. rewrite (fbind_FRet get_world _ w w w eq_refl).
  unfold stat. rewrite decide_False by done. cbv zeta.
  rewrite Hres, Hden, Hin, Hnone. rewrite decide_True by done.
  assert (Hmk : mkdir path w = FRet (0%Z, 0%Z) (set_fs (pk ++ r) (Dir u) w)).
  { unfold mkdir. rewrite decide_False by done. cbv zeta.
    by rewrite Hres, Hden, Hin, Hnone, Hparent, Heuid. }
  fstep Hmk. by rewrite decide_False by (by intros ?).
Qed.

Section Prefix.
Variable g : globals.
Variable w0 : world.
Let p := c_str (prefix g).
Let pk := resolve w0 (prefix g).
Let uid := g_originalUid g.
Let pre := p ++ [SLASH].
Hypothesis p_not_empty : p ≠ [].

Lemma pre_no_NUL : NUL ∉ pre.
Proof.
  unfold pre. rewrite not_elem_of_app, not_elem_of_cons. split; [apply c_str_no_NUL|].
  split; [done|apply not_elem_of_nil].
Qed.

Lemma resolve_name (w : world) (u : Z) (c : key → option node) (name : string) :
  below pk w0 u c w → NUL ∉ lit name →
  resolve w (pre ++ lit name) = pk ++ components (lit name).
Proof.
  intros Hb Hname. rewrite (below_resolve _ _ _ _ _ _ Hb). unfold pre.
  rewrite resolve_under by (done || apply c_str_no_NUL).
  unfold pk, resolve, p. by rewrite c_str_idemp.
Qed.

Lemma pre_name_not_empty (name : string) : c_str (pre ++ lit name) ≠ [].
Proof.
  unfold pre. destruct p as [|c q] eqn:Hp; [done|].
  pose proof (c_str_no_NUL (prefix g)) as Hn. fold p in Hn. rewrite Hp in Hn.
  apply not_elem_of_cons in Hn as [Hc _]. cbn [app c_str]. by rewrite decide_False.
Qed.

Lemma parent_below (w : world) (u : Z) (c : key → option node) (r : key) :
  below pk w0 u c w → r ≠ [] → fs w (removelast (pk ++ r)) = c (removelast r).
Proof.
  intros (_ & _ & _ & Hin & _) Hr. rewrite removelast_app by done. apply Hin.
Qed.

Lemma setupPrefix_loop_ok (ds : list string) (seen : list key) (rest : heap) (w : world) :
  below pk w0 uid (dirs_region uid seen) w →
  parents_first seen ds = true →
  28 ≤ length rest →
  ∃ rest' w',
    setupPrefix_loop ((Some <$> pre) ++ rest) (length pre) ds w
    = FRet ((Some <$> pre) ++ rest') w'
    ∧ length rest' = length rest
    ∧ below pk w0 uid
        (dirs_region uid (fold_left (λ seen d, components (lit d) :: seen) ds seen)) w'.
Proof.
  revert seen rest w. induction ds as [|d ds IH]; intros seen rest w Hb Hds Hrest.
  - exists rest, w. split; [done|]. split; [done|]. exact Hb.
  - cbn [parents_first] in Hds. apply andb_true_iff in Hds as [Hd Hds].
    apply bool_decide_eq_true in Hd as (Hr & Hnew & Hpar & Hnul & Hlen).
    destruct (setupPrefix_path_ok pre rest d w pre_no_NUL Hnul ltac:(lia))
      as (rest1 & Hpath & Hrest1).
    cbn [setupPrefix_loop fold_left]. fstep Hpath.
    destruct (createDir_new pk w0 uid uid (dirs_region uid seen) w (pre ++ lit d)
                (components (lit d)) Hb (pre_name_not_empty d)
                (resolve_name w uid _ d Hb Hnul))
      as (w1 & Hmk & Hb1).
    { unfold dirs_region. by rewrite decide_False. }
    { rewrite (parent_below w uid _ _ Hb Hr). unfold dirs_region.
      by rewrite decide_True. }
    fstep Hmk.
    destruct (IH (components (lit d) :: seen) rest1 w1) as (rest' & w' & Hloop & Hl & Hb');
      [|done|lia|].
    { revert Hb1. apply below_ext. intros r. unfold upd, dirs_region.
      destruct (decide (r = components (lit d))) as [->|Hne].
      - rewrite decide_True; [done|]. apply elem_of_cons. by left.
      - destruct (decide (r ∈ seen)) as [Hin|Hnin].
        + rewrite decide_True; [done|]. apply elem_of_cons. by right.
        + rewrite decide_False; [done|]. rewrite elem_of_cons. tauto. }
    exists rest', w'. split; [done|]. split; [lia|done].
Qed.

Lemma setupPrefix_file_ok (name : string) (text : list ascii) (c : key → option node)
    (rest : heap) (w : world) (v : Z) :
  below pk w0 uid c w →
  28 ≤ length rest →
  NUL ∉ lit name → length (lit name) < 28 →
  components (lit name) ≠ [] →
  c (components (lit name)) = None →
  c (removelast (components (lit name))) = Some (Dir v) →
  ∃ rest' w',
    setupPrefix_file ((Some <$> pre) ++ rest) (length pre) name text w
    = FRet ((Some <$> pre) ++ rest') w'
    ∧ length rest' = length rest
    ∧ below pk w0 uid (upd c (components (lit name)) (File uid text)) w'.
Proof.
  intros Hb Hrest Hnul Hlen Hr Hnone Hpar.
  destruct (setupPrefix_path_ok pre rest name w pre_no_NUL Hnul ltac:(lia))
    as (rest1 & Hpath & Hrest1).
  unfold setupPrefix_file. fstep Hpath.
  pose proof Hb as (Hcwd & Heuid & Hden & Hin & Hout).
  set (r := components (lit name)) in *.
  assert (Hopen : fopen_w (pre ++ lit name) w
                  = FRet (Some (pk ++ r)) (set_fs (pk ++ r) (File uid []) w)).
  { unfold fopen_w. rewrite decide_False by apply pre_name_not_empty. cbv zeta.
    rewrite (resolve_name w uid c name Hb Hnul). fold r.
    rewrite Hden, Hin, Hnone, (parent_below w uid c r Hb Hr), Hpar. by rewrite Heuid. }
  fstep Hopen.
  exists rest1, (set_fs (pk ++ r) (File uid text) (set_fs (pk ++ r) (File uid []) w)).
  split; [|split; [done|]].
  - unfold mbind, F_bind, fprintf. cbn [fs set_fs]. by rewrite decide_True.
  - eapply below_ext; [|apply below_set_fs, below_set_fs, Hb].
    intros r'. unfold upd. by destruct (decide (r' = r)).
Qed.

End Prefix.

Lemma below_set_euid (pk : key) (w0 : world) (u v : Z) (c : key → option node)
    (w : world) :
  below pk w0 u c w → below pk w0 v c (set_euid v w).
Proof. intros (Hcwd & Heuid & Hden & Hin & Hout). by repeat split. Qed.

Section FreshPrefix.
Variable g : globals.
Variable getpwuid : Z → option passwd.
Variable w : world.
Variable u0 : Z.
Variable pw : passwd.
Let pk := resolve w (prefix g).
Let uid := g_originalUid g.
Hypothesis prefix_not_empty : c_str (prefix g) ≠ [].
Hypothesis prefix_short : strlen (prefix g) ≤ 255.
Hypothesis nobody_denied : ∀ v k, denied w v k = false.
Hypothesis fresh : ∀ r, fs w (pk ++ r) = None.
Hypothesis parent_dir : fs w (removelast pk) = Some (Dir u0).
Hypothesis user_known : getpwuid uid = Some pw.

Lemma setupPrefix_fresh :
  ∃ w', setupPrefix g getpwuid w = FRet tt w'
        ∧ below pk w 0 (setupPrefix_region uid pw) w'.
Proof.
  unfold setupPrefix.
  rewrite (fbind_FRet (seteuid _) _ w (set_euid uid w) tt eq_refl).
  assert (Hb0 : below pk w uid (λ _, None) (set_euid uid w)) by (by repeat split).
  destruct (createDir_new pk w uid u0 (λ _, None) (set_euid uid w) (prefix g) []
              Hb0 prefix_not_empty)
    as (w1 & Hmk & Hb1); [by rewrite app_nil_r|done|by rewrite app_nil_r|].
  fstep Hmk.
  assert (Hb1' : below pk w uid (dirs_region uid [[]]) w1).
  { revert Hb1. apply below_ext. intros r. unfold upd, dirs_region.
    destruct (decide (r = [])) as [->|Hne].
    - rewrite decide_True; [done|]. apply elem_of_cons. by left.
    - rewrite decide_False; [done|]. rewrite elem_of_cons, elem_of_nil. tauto. }
  clear Hb1 Hb0 Hmk.
  unfold strlen in prefix_short.
  pose proof (strcpy_strcat (prefix g) (lit "/") (malloc sizeof_path)) as Hcat.
  unfold strcpy in *. unfold malloc, sizeof_path in *.
  rewrite memcpy_0 in * by (rewrite length_replicate, length_app; cbn [length]; lia).
  rewrite lift_Some. cbn [mbind option_bind] in Hcat.
  rewrite Hcat by (rewrite length_replicate; cbn [length c_str lit]; simpl; lia).
  clear Hcat. rewrite lift_Some.
  change (c_str (lit "/")) with [SLASH].
  rewrite heap_string_front
    by (apply (pre_no_NUL g)).
  cbn [fmap option_fmap option_map]. rewrite lift_Some.
  rewrite fmap_app, <- app_assoc.
  set (rest := (Some <$> [NUL]) ++ drop _ _).
  assert (Hrest : 28 ≤ length rest).
  { unfold rest. rewrite length_app, length_drop, length_replicate, length_app.
    cbn [length fmap list_fmap]. lia. }
  clearbody rest.
  destruct (setupPrefix_loop_ok g w prefix_not_empty setupPrefix_dirs [[]] rest w1
              Hb1' eq_refl Hrest) as (rest1 & w2 & Hloop & Hrest1 & Hb2).
  fstep Hloop. fold uid. rewrite user_known.
  destruct (setupPrefix_file_ok g w prefix_not_empty "/private/etc/passwd"
              (passwd_text pw) _ rest1 w2 uid Hb2 ltac:(lia)
              ltac:(by apply (bool_decide_unpack _)) ltac:(vm_compute; lia)
              ltac:(done) eq_refl eq_refl)
    as (rest2 & w3 & Hf1 & Hrest2 & Hb3).
  fstep Hf1.
  destruct (setupPrefix_file_ok g w prefix_not_empty "/private/etc/master.passwd"
              (master_passwd_text pw) _ rest2 w3 uid Hb3 ltac:(lia)
              ltac:(by apply (bool_decide_unpack _)) ltac:(vm_compute; lia)
              ltac:(done) eq_refl eq_refl)
    as (rest3 & w4 & Hf2 & Hrest3 & Hb4).
  fstep Hf2.
  destruct (setupPrefix_file_ok g w prefix_not_empty "/private/etc/group"
              (group_text pw) _ rest3 w4 uid Hb4 ltac:(lia)
              ltac:(by apply (bool_decide_unpack _)) ltac:(vm_compute; lia)
              ltac:(done) eq_refl eq_refl)
    as (rest4 & w5 & Hf3 & Hrest4 & Hb5).
  fstep Hf3.
  exists (set_euid 0 w5). split; [done|]. by apply below_set_euid with uid.
Qed.

End FreshPrefix.

Lemma main_prefix_found (g : globals) (getpwuid : Z → option passwd) (w0 : world)
    (u v : Z) (c : key → option node) (w : world) :
  below (resolve w0 (prefix g)) w0 u c w →
  c_str (prefix g) ≠ [] →
  c [] = Some (Dir v) →
  g_originalUid g = 0%Z ∨ v = g_originalUid g →
  main_prefix g getpwuid w = FRet false w.
Proof.
  intros Hb Hne Hc Hown. pose proof Hb as (Hcwd & Heuid & Hden & Hin & Hout).
  assert (Hstat : stat w (prefix g) = inl (Dir v)).
  { unfold stat. rewrite decide_False by done. cbv zeta.
    rewrite (below_resolve _ _ _ _ _ _ Hb), Hden.
    rewrite <- (app_nil_r (resolve w0 (prefix g))). by rewrite Hin, Hc. }
  unfold main_prefix, checkPrefixDir, checkPrefixOwner.
  rewrite (fbind_FRet (get_world ≫= _) _ w w 1%Z)
    by (rewrite (fbind_FRet get_world _ w w w eq_refl); by rewrite Hstat).
  rewrite decide_False by done.
  rewrite (fbind_FRet (mret false) _ w w false eq_refl).
  rewrite (fbind_FRet (get_world ≫= _) _ w w tt); [done|].
  rewrite (fbind_FRet get_world _ w w w eq_refl), Hstat. cbn [st_uid].
  rewrite decide_False; [done|]. intros [? ?]. by destruct Hown.
Qed.

Lemma main_prefix_fresh_below (g : globals) (getpwuid : Z → option passwd) (w : world)
    (u0 : Z) (pw : passwd) :
  c_str (prefix g) ≠ [] →
  strlen (prefix g) ≤ 255 →
  (∀ v k, denied w v k = false) →
  (∀ r, fs w (resolve w (prefix g) ++ r) = None) →
  fs w (removelast (resolve w (prefix g))) = Some (Dir u0) →
  getpwuid (g_originalUid g) = Some pw →
  ∃ w', main_prefix g getpwuid w = FRet true w'
        ∧ below (resolve w (prefix g)) w 0
            (setupPrefix_region (g_originalUid g) pw) w'.
Proof.
  intros Hne Hshort Hden Hfresh Hparent Hpw.
  destruct (setupPrefix_fresh g getpwuid w u0 pw Hne Hshort Hden Hfresh Hparent Hpw)
    as (w' & Hsetup & Hb).
  exists w'. split; [|done].
  assert (Hstat : stat w (prefix g) = inr ENOENT).
  { unfold stat. rewrite decide_False by done. cbv zeta. rewrite Hden.
    rewrite <- (app_nil_r (resolve w (prefix g))). by rewrite Hfresh. }
  unfold main_prefix, checkPrefixDir.
  rewrite (fbind_FRet (get_world ≫= _) _ w w 0%Z)
    by (rewrite (fbind_FRet get_world _ w w w eq_refl); by rewrite Hstat).
  rewrite decide_True by done.
  rewrite (fbind_FRet (setupPrefix g getpwuid ≫= _) _ w w' true)
    by (by rewrite (fbind_FRet _ _ _ _ _ Hsetup)).
  pose proof Hb as (Hcwd & Heuid & Hden' & Hin & Hout).
  assert (Hstat' : stat w' (prefix g) = inl (Dir (g_originalUid g))).
  { unfold stat. rewrite decide_False by done. cbv zeta.
    rewrite (below_resolve _ _ _ _ _ _ Hb), Hden'.
    rewrite <- (app_nil_r (resolve w (prefix g))). by rewrite Hin. }
  unfold checkPrefixOwner.
  rewrite (fbind_FRet (get_world ≫= _) _ w' w' tt); [done|].
  rewrite (fbind_FRet get_world _ w' w' w' eq_refl), Hstat'. cbn [st_uid].
  rewrite decide_False; [done|]. by intros [? ?].
Qed.

(** X23: on a system where the prefix does not exist yet but its parent
    directory does, the first launch creates the prefix: the prefix
    directory, the fourteen directories of the skeleton (each after its
    parent) and the three account files, all owned by the invoking user;
    nothing outside the prefix is touched and [g_fixPermissions] is set. *)
Theorem main_prefix_fresh (g : globals) (getpwuid : Z → option passwd) (w : world)
    (u0 : Z) (pw : passwd) :
  let pk := resolve w (prefix g) in
  let uid := g_originalUid g in
  c_str (prefix g) ≠ [] →
  strlen (prefix g) ≤ 255 →
  (∀ v k, denied w v k = false) →
  (∀ r, fs w (pk ++ r) = None) →
  fs w (removelast pk) = Some (Dir u0) →
  getpwuid uid = Some pw →
  ∃ w', main_prefix g getpwuid w = FRet true w'
        ∧ fs w' pk = Some (Dir uid)
        ∧ Forall (λ d, fs w' (pk ++ components (lit d)) = Some (Dir uid)) setupPrefix_dirs
        ∧ fs w' (pk ++ [lit "private"; lit "etc"; lit "passwd"])
          = Some (File uid (passwd_text pw))
        ∧ fs w' (pk ++ [lit "private"; lit "etc"; lit "master.passwd"])
          = Some (File uid (master_passwd_text pw))
        ∧ fs w' (pk ++ [lit "private"; lit "etc"; lit "group"])
          = Some (File uid (group_text pw))
        ∧ (∀ k, (∀ r, k ≠ pk ++ r) → fs w' k = fs w k).
Proof.
  intros pk uid Hne Hshort Hden Hfresh Hparent Hpw.
  destruct (main_prefix_fresh_below g getpwuid w u0 pw Hne Hshort Hden Hfresh Hparent Hpw)
    as (w' & Hmain & Hb).
  destruct Hb as (Hcwd & Heuid & Hden' & Hin & Hout). fold pk uid in Hin, Hout.
  exists w'. split; [done|]. split.
  { rewrite <- (app_nil_r pk). by rewrite Hin. }
  split.
  { unfold setupPrefix_dirs. repeat constructor; by rewrite Hin. }
  split; [by rewrite Hin|]. split; [by rewrite Hin|]. split; [by rewrite Hin|done].
Qed.

Lemma main_prefix_fresh_witness :
  ∃ w', main_prefix example_globals example_getpwuid example_world = FRet true w'
        ∧ fs w' [lit "home"; lit "user"; lit ".darling"] = Some (Dir 1000)
        ∧ fs w' [lit "home"; lit "user"; lit ".darling"; lit "var"; lit "run"]
          = Some (Dir 1000)
        ∧ fs w' [lit "home"; lit "user"] = Some (Dir 1000).
Proof.
  destruct (main_prefix_fresh example_globals example_getpwuid example_world 1000
              {| pw_name := lit "user"; pw_uid := 1000; pw_gid := 1000 |})
    as (w' & Hmain & Hpk & Hdirs & _ & _ & _ & Hout).
  - done.
  - vm_compute. lia.
  - done.
  - intros r. change (resolve example_world (prefix example_globals))
      with [lit "home"; lit "user"; lit ".darling"].
    cbn [app fs example_world]. by rewrite !decide_False.
  - reflexivity.
  - reflexivity.
  - exists w'. split; [exact Hmain|]. split; [exact Hpk|]. split.
    + apply Forall_forall with (x := "/var/run"%string) in Hdirs; [exact Hdirs|].
      by apply (bool_decide_unpack _).
    + rewrite Hout; [reflexivity|]. intros r. by destruct r.
Defined.

(** X24: after that first launch the next one finds the prefix, accepts it
    as owned by the invoking user, and changes nothing on disk:
    [setupPrefix] does not run again. *)
Theorem main_prefix_second_launch (g : globals) (getpwuid : Z → option passwd)
    (w : world) (u0 : Z) (pw : passwd) :
  let pk := resolve w (prefix g) in
  c_str (prefix g) ≠ [] →
  strlen (prefix g) ≤ 255 →
  (∀ v k, denied w v k = false) →
  (∀ r, fs w (pk ++ r) = None) →
  fs w (removelast pk) = Some (Dir u0) →
  getpwuid (g_originalUid g) = Some pw →
  ∃ w', main_prefix g getpwuid w = FRet true w'
        ∧ main_prefix g getpwuid w' = FRet false w'.
Proof.
  intros pk Hne Hshort Hden Hfresh Hparent Hpw.
  destruct (main_prefix_fresh_below g getpwuid w u0 pw Hne Hshort Hden Hfresh Hparent Hpw)
    as (w' & Hmain & Hb).
  exists w'. split; [done|].
  eapply main_prefix_found; [exact Hb|done|reflexivity|by right].
Qed.

Lemma main_prefix_second_launch_witness :
  ∃ w', main_prefix example_globals example_getpwuid example_world = FRet true w'
        ∧ main_prefix example_globals example_getpwuid w' = FRet false w'.
Proof.
  apply (main_prefix_second_launch example_globals example_getpwuid example_world 1000
           {| pw_name := lit "user"; pw_uid := 1000; pw_gid := 1000 |}).
  - done.
  - vm_compute. lia.
  - done.
  - intros r. change (resolve example_world (prefix example_globals))
      with [lit "home"; lit "user"; lit ".darling"].
    cbn [app fs example_world]. by rewrite !decide_False.
  - reflexivity.
  - reflexivity.
Defined.

Lemma fbind_inv {A B} (m : F A) (f : A → F B) (w w' : world) (b : B) :
  (m ≫= f) w = FRet b w' → ∃ a w1, m w = FRet a w1 ∧ f a w1 = FRet b w'.
Proof. unfold mbind, F_bind. destruct (m w) as [a w1|n w1|w1]; [by eauto|done..]. Qed.

(** X25: whenever the part of [main] that finds or creates the prefix
    returns, the ownership check has passed on the prefix as it then is: it
    belongs to the invoking user unless that user is root, and [stat] did not
    fail for lack of permission. Otherwise the process has exited. *)
Theorem main_prefix_owner_checked (g : globals) (getpwuid : Z → option passwd)
    (w w' : world) (fixPermissions : bool) :
  main_prefix g getpwuid w = FRet fixPermissions w' →
  match stat w' (prefix g) with
  | inl st => g_originalUid g = 0%Z ∨ st_uid st = g_originalUid g
  | inr errno => errno ≠ EACCES
  end.
Proof.
  unfold main_prefix. intros H.
  apply fbind_inv in H as (found & w1 & _ & H).
  apply fbind_inv in H as (fx & w2 & _ & H).
  apply fbind_inv in H as ([] & w3 & Hcheck & [= <- <-]).
  unfold checkPrefixOwner in Hcheck.
  apply fbind_inv in Hcheck as (w4 & w5 & [= <- <-] & Hcheck).
  destruct (stat w2 (prefix g)) as [st|errno] eqn:Hstat.
  - case_decide as Hown; [done|]. injection Hcheck as <-. rewrite Hstat.
    destruct (decide (g_originalUid g = 0%Z)); [by left|right].
    destruct (decide (st_uid st = g_originalUid g)); [done|]. by destruct Hown.
  - case_decide as Herr; [done|]. injection Hcheck as <-. by rewrite Hstat.
Qed.

Lemma main_prefix_owner_checked_witness :
  match stat (fworld (main_prefix example_globals example_getpwuid example_world))
          (prefix example_globals) with
  | inl st => g_originalUid example_globals = 0%Z
              ∨ st_uid st = g_originalUid example_globals
  | inr errno => errno ≠ EACCES
  end.
Proof.
  apply (main_prefix_owner_checked example_globals example_getpwuid example_world
           (fworld (main_prefix example_globals example_getpwuid example_world)) true).
  vm_compute. reflexivity.
Defined.

(** X26: [createDir] can be repeated: once it has returned for a path, a
    second call for the same path returns as well and changes nothing, so
    the directories of an earlier launch are accepted as they are. *)
Theorem createDir_again (path : cstr) (w w' : world) :
  createDir path w = FRet tt w' → createDir path w' = FRet tt w'.
Proof.
  unfold createDir, mbind, F_bind, get_world, stat.
  case_decide as Hempty.
  - rewrite decide_True by done. unfold mkdir. rewrite decide_True by done.
    by rewrite decide_True by done.
  - cbv zeta. destruct (denied w (euid w) (resolve w path)) eqn:Hden; [done|].
    destruct (fs w (resolve w path)) as [n|] eqn:Hfs.
    + destruct (S_ISDIR n) eqn:Hdir; [|done]. cbn [negb]. intros [= <-].
      by rewrite Hden, Hfs, Hdir.
    + rewrite decide_True by done. unfold mkdir. rewrite decide_False by done.
      cbv zeta. rewrite Hden, Hfs.
      destruct (fs w (removelast (resolve w path))) as [[v|v c]|]; [|done..].
      rewrite decide_False by (by intros ?). intros [= <-].
      change (resolve (set_fs _ _ w) path) with (resolve w path).
      cbn [denied euid set_fs fs]. rewrite Hden. by rewrite decide_True.
Qed.

Lemma createDir_again_witness :
  createDir (lit "/home/user/.darling.workdir")
    (fworld (createDir (lit "/home/user/.darling.workdir") example_world))
  = FRet tt (fworld (createDir (lit "/home/user/.darling.workdir") example_world)).
Proof.
  apply (createDir_again (lit "/home/user/.darling.workdir") example_world).
  reflexivity.
Defined.

(** ** What a pid returned by getInitProcess guarantees *)

(** X27: a pid other than 0 returned by [getInitProcess] is the number in
    the record, of a process that answers [kill(pid, 0)], whose command name
    starts with the word [darlingserver] and, unless the invoking user is
    root, whose status file shows that user's ids; the record is then left
    in place. *)
Theorem getInitProcess_sound (g : globals) (h h' : host) (pid : Z) :
  getInitProcess g h = (pid, h') →
  pid ≠ 0%Z →
  h' = h
  ∧ kill0 h pid ≠ (-1)%Z
  ∧ (∃ content rest, init_pid h = Some content ∧ scan_d content = Some (pid, rest))
  ∧ (∃ comm word rest,
       proc_comm h pid = Some comm ∧ scan_ms comm = Some (word, rest)
       ∧ c_str word = lit "darlingserver")
  ∧ (g_originalUid g ≠ 0%Z →
     ∃ status,
       proc_status h pid = Some status
       ∧ fold_left (getInitProcess_line g) (getlines status) (false, false)
         = (true, true)).
Proof.
  unfold getInitProcess. intros Hget Hpid.
  destruct (init_pid h) as [content|] eqn:Hfile; [|by simplify_eq].
  destruct (scan_d content) as [[pid' rest]|] eqn:Hscan; [|by simplify_eq].
  destruct (decide (kill0 h pid' = (-1)%Z)) as [|Hkill]; [by simplify_eq|].
  destruct (proc_comm h pid') as [comm|] eqn:Hcomm; [|by simplify_eq].
  destruct (scan_ms comm) as [[word rest']|] eqn:Hword; [|by simplify_eq].
  destruct (streq word (lit "darlingserver")) eqn:Hname;
    [|cbn [negb] in Hget; by simplify_eq].
  cbn [negb] in Hget. apply bool_decide_eq_true in Hname.
  assert (Hrest : pid' = pid ∧ h' = h
                  ∧ (g_originalUid g ≠ 0%Z →
                     ∃ status,
                       proc_status h pid' = Some status
                       ∧ fold_left (getInitProcess_line g) (getlines status) (false, false)
                         = (true, true))).
  { destruct (decide (g_originalUid g ≠ 0%Z)) as [Huid|Huid]; [|by simplify_eq].
    destruct (proc_status h pid') as [status|] eqn:Hstatus; [|by simplify_eq].
    destruct (fold_left _ _ _) as [[] []] eqn:Hfold; cbn [negb orb] in Hget;
      simplify_eq. eauto. }
  destruct Hrest as (-> & -> & Hown).
  split; [done|]. split; [done|]. split; [by eauto|]. split; [|done].
  exists comm, word, rest'. by rewrite Hname.
Qed.

Lemma getInitProcess_sound_witness :
  let h := example_host "darlingserver" ["1000"; "1000"; "1000"; "1000"]%string in
  h = h
  ∧ kill0 h 4242 ≠ (-1)%Z
  ∧ (∃ content rest, init_pid h = Some content ∧ scan_d content = Some (4242%Z, rest))
  ∧ (∃ comm word rest,
       proc_comm h 4242 = Some comm ∧ scan_ms comm = Some (word, rest)
       ∧ c_str word = lit "darlingserver")
  ∧ (g_originalUid example_globals ≠ 0%Z →
     ∃ status,
       proc_status h 4242 = Some status
       ∧ fold_left (getInitProcess_line example_globals) (getlines status) (false, false)
         = (true, true)).
Proof.
  intros h.
  apply (getInitProcess_sound example_globals h h 4242).
  - reflexivity.
  - done.
Defined.

(** ** Raw mode and its undoing *)

Lemma setupFDs_calls (e : env) (s : state) :
  ∃ r, trace (final_state (setupFDs e s)) = trace s ++ r
       ∧ (r = []
          ∨ r = [sys_set_termios (posix_openpt_ret e)]
          ∨ (r = [sys_set_termios (posix_openpt_ret e); sys_get_winsz 0;
                  sys_set_termios STDIN_FILENO]
             ∧ (tcsetattr_ret e < 0)%Z ∧ ∃ s', setupFDs e s = Exit 1 s')
          ∨ (r = [sys_set_termios (posix_openpt_ret e); sys_get_winsz 0;
                  sys_set_termios STDIN_FILENO;
                  sys_set_winsz (posix_openpt_ret e) (tty_winsize e);
                  sys_atexit_restoreTermios]
             ∧ ∃ fds s', setupFDs e s = Ret fds s')).
Proof.
  unfold setupFDs, setupPtys, openpty_darling. run.
  destruct (isatty e STDIN_FILENO); [|exists []; by rewrite app_nil_r; auto].
  case_decide; [exists []; by rewrite app_nil_r; auto|].
  case_decide; [exists []; by rewrite app_nil_r; auto|].
  case_decide; [exists []; by rewrite app_nil_r; auto|].
  destruct (bool_decide (tcgetattr_ret e < 0)%Z); cbn [negb].
  - eexists [_]. split; [done|]. auto.
  - case_decide.
    + eexists [_; _; _]. cbn [final_state trace log]. rewrite <- !app_assoc.
      split; [done|]. do 2 right. left. eauto.
    + eexists [_; _; _; _; _]. cbn [final_state trace log]. rewrite <- !app_assoc.
      split; [done|]. do 3 right. eauto.
Qed.

(** X28: [setupFDs] never leaves the terminal in raw mode without the means
    to undo it: if it has called [tcsetattr] on standard input, then either
    it returns with [restoreTermios] registered by [atexit], or that very
    call failed and the process ends with [exit(1)]. *)
Theorem setupFDs_raw_mode_restored (e : env) (s : state) (r : list syscall) :
  posix_openpt_ret e ≠ STDIN_FILENO →
  trace (final_state (setupFDs e s)) = trace s ++ r →
  sys_set_termios STDIN_FILENO ∈ r →
  (sys_atexit_restoreTermios ∈ r ∧ ∃ fds s', setupFDs e s = Ret fds s')
  ∨ ((tcsetattr_ret e < 0)%Z ∧ ∃ s', setupFDs e s = Exit 1 s').
Proof.
  intros Hpt Hr Hin. destruct (setupFDs_calls e s) as (r' & Hr' & Hcases).
  rewrite Hr in Hr'. apply app_inv_head in Hr'. subst r'.
  destruct Hcases as [->|[->|[(-> & Hfail & Hexit)|(-> & Hret)]]].
  - by apply elem_of_nil in Hin.
  - apply elem_of_cons in Hin as [Hin|Hin]; [by simplify_eq|by apply elem_of_nil in Hin].
  - by right.
  - left. split; [|done]. do 4 (apply elem_of_cons; right). apply elem_of_cons. by left.
Qed.

Lemma setupFDs_raw_mode_restored_witness :
  (sys_atexit_restoreTermios
   ∈ [sys_set_termios 5; sys_get_winsz 0; sys_set_termios STDIN_FILENO;
      sys_set_winsz 5 example_winsize; sys_atexit_restoreTermios]
   ∧ ∃ fds s', setupFDs (example_env_tty []) initial_state = Ret fds s')
  ∨ ((tcsetattr_ret (example_env_tty []) < 0)%Z
     ∧ ∃ s', setupFDs (example_env_tty []) initial_state = Exit 1 s').
Proof.
  apply (setupFDs_raw_mode_restored (example_env_tty []) initial_state
           [sys_set_termios 5; sys_get_winsz 0; sys_set_termios STDIN_FILENO;
            sys_set_winsz 5 example_winsize; sys_atexit_restoreTermios]).
  - done.
  - reflexivity.
  - apply elem_of_cons. right. apply elem_of_cons. right. apply elem_of_cons. by left.
Defined.

(** ** The Go message of a spawn request *)

Lemma emits_first_all {A B} (P : syscall → Prop) (c : syscall) (m1 : M A) (m2 : M B) :
  emits P m1 → emits P m2 →
  ∀ s, ∃ r, trace (final_state (((emit c;; m1);; m2) s)) = trace s ++ c :: r
            ∧ Forall P r.
Proof.
  intros H1 H2 s.
  destruct (emits_bind P m1 (λ _, m2) H1 (λ _, H2) (log c s)) as (r & Ht & Hr).
  exists r. change (((emit c;; m1);; m2) s) with ((m1;; m2) (log c s)).
  rewrite Ht. simpl. by rewrite <- app_assoc.
Qed.

Section NoSendmsg.
Variable e : env.

Lemma pushShellspawnCommandData_no_sendmsg (sockfd : Z) (type : shellspawn_cmd_type_t)
    (data : option (list ascii)) (n : nat) :
  emits no_sendmsg (pushShellspawnCommandData e sockfd type data n).
Proof. unfold pushShellspawnCommandData. emits_auto. Qed.
#[local] Hint Resolve pushShellspawnCommandData_no_sendmsg : emits.

Lemma signalHandler_no_sendmsg (signo : Z) (win : winsize) :
  emits no_sendmsg (signalHandler e signo win).
Proof. unfold signalHandler. emits_auto. Qed.
#[local] Hint Resolve signalHandler_no_sendmsg : emits.

Lemma shellLoop_master_no_sendmsg (master : Z) (reads : list (option (list ascii))) :
  emits no_sendmsg (shellLoop_master master reads).
Proof. induction reads as [|r reads IH]; cbn [shellLoop_master]; emits_auto. Qed.
#[local] Hint Resolve shellLoop_master_no_sendmsg : emits.

Lemma shellLoop_stdin_no_sendmsg (master : Z)
    (reads : list (option Z * option (list ascii))) :
  emits no_sendmsg (shellLoop_stdin master reads).
Proof.
  induction reads as [|[fion r] reads IH]; cbn [shellLoop_stdin]; emits_auto.
Qed.
#[local] Hint Resolve shellLoop_stdin_no_sendmsg : emits.

Lemma shellLoop_body_no_sendmsg (sockfd master : Z) (fdcount : nat) (k : wakeup) :
  emits no_sendmsg (shellLoop_body sockfd master fdcount k).
Proof.
  unfold shellLoop_body, shellLoop_pty, shellLoop_sock, shellLoop_poll.
  emits_auto. apply emits_put_state. intros s. by destruct (wk_revents k).
Qed.
#[local] Hint Resolve shellLoop_body_no_sendmsg : emits.

Lemma shellLoop_run_no_sendmsg (sockfd master : Z) (fdcount : nat) (evs : list event) :
  emits no_sendmsg (shellLoop_run e sockfd master fdcount evs).
Proof.
  induction evs as [|[signo win|k] evs IH]; cbn [shellLoop_run]; emits_auto.
Qed.
#[local] Hint Resolve shellLoop_run_no_sendmsg : emits.

Lemma shellLoop_no_sendmsg (sockfd master : Z) :
  emits no_sendmsg (shellLoop e sockfd master).
Proof. unfold shellLoop. emits_auto. Qed.
#[local] Hint Resolve shellLoop_no_sendmsg : emits.

(** [spawnGo] sends the Go with the descriptors it is given, first thing,
    and no other message with descriptors after it. *)
Lemma spawnGo_sends (sockfd fd0 fd1 fd2 master : Z) (s : state) :
  ∃ after,
    trace (final_state (spawnGo e sockfd (fd0, fd1, fd2) master s))
    = trace s ++ sys_sendmsg sockfd Go_cmd [fd0; fd1; fd2] :: after
    ∧ Forall no_sendmsg after.
Proof. refine (emits_first_all no_sendmsg _ _ _ _ _ s); emits_auto. Qed.

(** [setupFDs], when it returns, returns the descriptors of [chosen_fds]. *)
Lemma setupFDs_chosen (s : state) :
  setupFDs_succeeds e →
  ∃ master r,
    setupFDs e s = Ret (chosen_fds e, master) (log_all r s) ∧ Forall no_sendmsg r.
Proof.
  intros Hok. unfold setupFDs, setupFDs_succeeds, chosen_fds in *.
  destruct (isatty e STDIN_FILENO).
  - destruct Hok as (H1 & H2 & H3 & H4); [done|].
    unfold setupPtys, openpty_darling. run.
    destruct (decide (posix_openpt_ret e = (-1)%Z)); [done|].
    destruct (decide (unlockpt_ret e < 0)%Z); [done|].
    destruct (decide (open_slave_ret e = (-1)%Z)); [done|]. run.
    assert (Hfds : ∀ fd : Z,
               (if decide (posix_openpt_ret e = (-1)%Z ∨ ¬ isatty e fd)
                then fd else open_slave_ret e)
               = (if true && isatty e fd then open_slave_ret e else fd)).
    { intros fd. destruct (isatty e fd); cbn [andb].
      - rewrite decide_False; [done|]. intros [?|Hn]; [done|]. by apply Hn.
      - rewrite decide_True; [done|]. right. by intros ?. }
    destruct (bool_decide (tcgetattr_ret e < 0)%Z) eqn:Htty; cbn [negb].
    + run. rewrite !Hfds. eexists _, [_]. split; [reflexivity|]. by repeat constructor.
    + apply bool_decide_eq_false_1 in Htty. specialize (H4 Htty). run.
      destruct (decide (tcsetattr_ret e < 0)%Z); [done|]. run. rewrite !Hfds.
      eexists _, [_; _; _; _; _]. rewrite !log_log_all, !log_all_app.
      split; [reflexivity|]. by repeat constructor.
  - run. rewrite !decide_True by (by left). exists (-1)%Z, [].
    rewrite log_all_nil. by split.
Qed.

End NoSendmsg.

Section GoSent.
Variable g : globals.
Variable e : env.
Hypothesis fits :
  length (c_str (prefix g) ++ c_str (SHELLSPAWN_SOCKPATH g)) < sizeof_sun_path.
Hypothesis socket_ok : socket_ret e ≠ (-1)%Z.
Hypothesis connect_ok : connect_ret e ≠ (-1)%Z.
Hypothesis write_ok : ∀ n, write_whole e n = true.
Hypothesis login_ok : is_Some (login_name e).
Hypothesis fds_ok : setupFDs_succeeds e.

Lemma push_no_sendmsg (sockfd : Z) (type : shellspawn_cmd_type_t) (v : cstr) (s : state) :
  Forall no_sendmsg (trace s) →
  ∃ s1, pushShellspawnCommand e sockfd type (Some v) s = Ret tt s1
        ∧ Forall no_sendmsg (trace s1).
Proof.
  intros Hs. unfold pushShellspawnCommand, strlen.
  replace (length (c_str v) + 1) with (length (c_str v ++ [NUL])) by len.
  rewrite (pushShellspawnCommandData_ok e write_ok). eexists. split; [done|].
  cbn [trace log]. apply Forall_app. split; [done|]. by repeat constructor.
Qed.

Lemma request_to_Go (sockfd : Z) (s : state) :
  Forall no_sendmsg (trace s) →
  ∃ s1 s2 master after,
    setupFDs e s1 = Ret (chosen_fds e, master) s2
    ∧ trace (final_state
               ((setupWorkingDir g e sockfd;; setupIDs g e sockfd;;
                 '(fd0, fd1, fd2, master) ← setupFDs e;
                 spawnGo e sockfd (fd0, fd1, fd2) master) s))
      = trace s2
        ++ sys_sendmsg sockfd Go_cmd
             [(chosen_fds e).1.1; (chosen_fds e).1.2; (chosen_fds e).2] :: after
    ∧ Forall no_sendmsg (trace s2)
    ∧ Forall no_sendmsg after.
Proof.
  intros Hs. unfold setupWorkingDir. cbv zeta.
  destruct (push_no_sendmsg sockfd SHELLSPAWN_CHDIR
              (snprintf_4096 (c_str (SYSTEM_ROOT g) ++ c_str (g_workingDirectory g))) s Hs)
    as (sa & Ha & Hsa).
  rewrite (bind_Ret _ _ _ _ _ Ha). unfold setupIDs.
  change 8 with (length (int_bytes (g_originalUid g) ++ int_bytes (g_originalGid g))).
  rewrite (bind_Ret _ _ _ _ _ (pushShellspawnCommandData_ok e write_ok _ _ _ _)).
  match goal with |- context [(setupFDs e ≫= _) ?t] =>
    assert (Ht : Forall no_sendmsg (trace t))
      by (cbn [trace log]; apply Forall_app; split; [done|]; by repeat constructor);
    destruct (setupFDs_chosen e t fds_ok) as (master & r & Hf & Hr);
    exists t, (log_all r t), master
  end.
  rewrite (bind_Ret _ _ _ _ _ Hf).
  destruct (chosen_fds e) as [[fd0 fd1] fd2] eqn:Hfds. cbv beta iota. cbn [fst snd].
  match goal with |- context [spawnGo e sockfd _ master ?t] =>
    destruct (spawnGo_sends e sockfd fd0 fd1 fd2 master t) as (after & -> & Hafter)
  end.
  exists after. split; [done|]. split; [done|]. split; [|done].
  cbn [trace log_all]. apply Forall_app. by split.
Qed.

Lemma spawn_call_sends_Go (m : M unit) :
  spawn_call g e m →
  ∃ s1 s2 master after,
    setupFDs e s1 = Ret (chosen_fds e, master) s2
    ∧ trace (final_state (m initial_state))
      = trace s2
        ++ sys_sendmsg (socket_ret e) Go_cmd
             [(chosen_fds e).1.1; (chosen_fds e).1.2; (chosen_fds e).2] :: after
    ∧ Forall no_sendmsg (trace s2)
    ∧ Forall no_sendmsg after.
Proof.
  intros Hm.
  destruct (connectToShellspawn_ok g e initial_state fits socket_ok connect_ok)
    as (sun_path & Hc).
  set (sa := log (sys_connect (socket_ret e) sun_path) initial_state) in Hc.
  assert (Hsa : Forall no_sendmsg (trace sa)) by (by repeat constructor).
  assert (Henv : ∃ sb, setupShellspawnEnv e (socket_ret e) sa = Ret tt sb
                       ∧ Forall no_sendmsg (trace sb)).
  { unfold setupShellspawnEnv. destruct login_ok as [login ->].
    destruct (push_no_sendmsg (socket_ret e) SHELLSPAWN_SETENV
                (lit "PATH=/usr/bin:/bin:/usr/sbin:/sbin:/usr/local/bin") sa Hsa)
      as (s1 & H1 & Hs1).
    rewrite (bind_Ret _ _ _ _ _ H1).
    destruct (push_no_sendmsg (socket_ret e) SHELLSPAWN_SETENV
                (lit "TMPDIR=/private/tmp") s1 Hs1) as (s2 & H2 & Hs2).
    rewrite (bind_Ret _ _ _ _ _ H2). cbv zeta. by apply push_no_sendmsg. }
  destruct Henv as (sb & He & Hsb).
  destruct Hm as [|argv Hne|binary argv].
  - unfold spawnShell. rewrite (bind_Ret _ _ _ initial_state _ eq_refl).
    cbv beta iota. rewrite (bind_Ret _ _ _ _ _ Hc), (bind_Ret _ _ _ _ _ He).
    rewrite (bind_Ret _ _ sb sb tt eq_refl). by apply request_to_Go.
  - unfold spawnShell. rewrite spawnShell_buffer_front by done.
    rewrite (bind_Ret _ _ _ initial_state _ eq_refl).
    cbv beta iota. rewrite (bind_Ret _ _ _ _ _ Hc), (bind_Ret _ _ _ _ _ He).
    rewrite <- (app_nil_r (Some <$> _)), heap_string_front
      by apply cmdline_spec_c_str_no_NUL.
    destruct (push_no_sendmsg (socket_ret e) SHELLSPAWN_ADDARG (lit "-c") sb Hsb)
      as (s1 & H1 & Hs1).
    destruct (push_no_sendmsg (socket_ret e) SHELLSPAWN_ADDARG
                (cmdline_spec (c_str <$> argv)) s1 Hs1) as (s2 & H2 & Hs2).
    rewrite (bind_Ret _ _ sb s2 tt (eq_trans (bind_Ret _ _ sb s1 tt H1) H2)).
    by apply request_to_Go.
  - unfold spawnBinary. rewrite (bind_Ret _ _ _ _ _ Hc), (bind_Ret _ _ _ _ _ He).
    destruct (push_no_sendmsg (socket_ret e) SHELLSPAWN_SETEXEC binary sb Hsb)
      as (s1 & H1 & Hs1).
    rewrite (bind_Ret _ _ _ _ _ H1).
    assert (Hargs : ∀ args s, Forall no_sendmsg (trace s) →
               ∃ s', spawnBinary_args e (socket_ret e) args s = Ret tt s'
                     ∧ Forall no_sendmsg (trace s')).
    { intros args. induction args as [|a args IH]; intros s Hs; [by exists s|].
      cbn [spawnBinary_args].
      destruct (push_no_sendmsg (socket_ret e) SHELLSPAWN_ADDARG a s Hs)
        as (s' & H' & Hs').
      rewrite (bind_Ret _ _ _ _ _ H'). by apply IH. }
    destruct (Hargs argv s1 Hs1) as (s2 & H2 & Hs2).
    rewrite (bind_Ret _ _ _ _ _ H2). by apply request_to_Go.
Qed.

End GoSent.

(** C6: a spawn request, in shell mode and in exec mode alike, sends the Go
    command by [sendmsg] and in no other way: whatever the environment does,
    every [sendmsg] of the run carries a Go with payload length 0, no payload
    bytes and one control message of exactly three descriptors, and no
    [write] carries a Go. When the broker is reached (connection made, user
    name known, writes whole, descriptors set up) the request does send the
    Go, once, right after [setupFDs] has returned, and the three descriptors
    are the ones [setupFDs] chose for the target's standard input, output
    and error. *)
Theorem Go_message (g : globals) (e : env) (m : M unit) :
  spawn_call g e m →
  Forall Go_wellformed (trace (final_state (m initial_state)))
  ∧ (length (c_str (prefix g) ++ c_str (SHELLSPAWN_SOCKPATH g)) < sizeof_sun_path →
     socket_ret e ≠ (-1)%Z → connect_ret e ≠ (-1)%Z →
     (∀ n, write_whole e n = true) →
     is_Some (login_name e) →
     setupFDs_succeeds e →
     ∃ s1 s2 master after,
       setupFDs e s1 = Ret (chosen_fds e, master) s2
       ∧ trace (final_state (m initial_state))
         = trace s2
           ++ sys_sendmsg (socket_ret e) Go_cmd
                [(chosen_fds e).1.1; (chosen_fds e).1.2; (chosen_fds e).2] :: after
       ∧ Forall no_sendmsg (trace s2)
       ∧ Forall no_sendmsg after).
Proof.
  intros Hm. split.
  - destruct Hm as [|argv _|binary argv].
    + by destruct (spawnShell_Go g e None initial_state) as (r & -> & Hr).
    + by destruct (spawnShell_Go g e (Some argv) initial_state) as (r & -> & Hr).
    + by destruct (spawnBinary_Go g e binary argv initial_state) as (r & -> & Hr).
  - intros Hfit Hsock Hconn Hw Hlogin Hfds.
    exact (spawn_call_sends_Go g e Hfit Hsock Hconn Hw Hlogin Hfds m Hm).
Qed.

Lemma Go_message_witness :
  ∃ s1 s2 master after,
    setupFDs (example_env []) s1 = Ret ((4, 1, 2)%Z, master) s2
    ∧ trace (final_state
               (spawnBinary example_globals (example_env []) (lit "/bin/true")
                  [lit "/bin/true"] initial_state))
      = trace s2 ++ sys_sendmsg 3 Go_cmd [4; 1; 2]%Z :: after
    ∧ Forall no_sendmsg (trace s2)
    ∧ Forall no_sendmsg after.
Proof.
  apply (Go_message example_globals (example_env [])
           (spawnBinary example_globals (example_env []) (lit "/bin/true")
              [lit "/bin/true"])).
  - constructor.
  - vm_compute. lia.
  - done.
  - done.
  - done.
  - by eexists.
  - intros [=].
Defined.
